(** * briefly: the structural extraction engine

  A shallow embedding of the scanner (file statistics, categorizer), the
  per-file parser (ECMAScript walk, Python line heuristics, JSON shape)
  and the project analyzer (dependencies, entry points), followed by the
  properties proved about them.

  Conventions.  A JavaScript string is a [string]; its characters are the
  code units below 256.  [undefined] and an absent property are [None].
  A plain object used as a dictionary is an association list in
  [Object.keys] order when the order is observable and a [gmap] when only
  lookups are. *)

From Stdlib Require Import ZArith QArith Lia Ascii String List DecimalString Sorted.
From stdpp Require Import base list strings gmap.

#[local] Set Warnings "-register-all".

(** ** Strings as the JavaScript built-ins see them *)

Module JsString.

(** White space of [String.prototype.trim] and of the regular-expression
    class [\s], restricted to code units below 256. *)
Definition is_space (c : ascii) : bool :=
  let n := nat_of_ascii c in
  ((9 <=? n) && (n <=? 13)) || (n =? 32) || (n =? 160).

(** [s.includes(sub)] *)
Fixpoint includes (s sub : string) : bool :=
  String.prefix sub s ||
  match s with
  | EmptyString => false
  | String _ r => includes r sub
  end.

(** [s.startsWith(p)] *)
Definition startsWith (s p : string) : bool := String.prefix p s.

(** [s.split(sep)] for a one-character separator: never the empty list. *)
Fixpoint split (sep : ascii) (s : string) : list string :=
  match s with
  | EmptyString => [EmptyString]
  | String c r =>
      if Ascii.eqb c sep then EmptyString :: split sep r
      else match split sep r with
           | h :: t => String c h :: t
           | [] => [String c EmptyString]
           end
  end.

Fixpoint trimStart (s : string) : string :=
  match s with
  | EmptyString => EmptyString
  | String c r => if is_space c then trimStart r else s
  end.

Fixpoint trimEnd (s : string) : string :=
  match s with
  | EmptyString => EmptyString
  | String c r =>
      match trimEnd r with
      | EmptyString => if is_space c then EmptyString else String c EmptyString
      | r' => String c r'
      end
  end.

(** [s.trim()] *)
Definition trim (s : string) : string := trimEnd (trimStart s).

(** [Boolean(s)] for a string: the empty string is falsy. *)
Definition truthy (s : string) : bool := negb (String.eqb s "").

(** Template-literal rendering of a non-negative integer. *)
Definition of_nat (n : nat) : string := NilEmpty.string_of_uint (Nat.to_uint n).

(** [a || b] where [a] is a string or [undefined]. *)
Definition or_else (a : option string) (b : option string) : option string :=
  match a with
  | Some s => if truthy s then Some s else b
  | None => b
  end.

(** [a || d] where [a] is a string or [undefined] and [d] a string. *)
Definition or_default (a : option string) (d : string) : string :=
  match a with
  | Some s => if truthy s then s else d
  | None => d
  end.

End JsString.

(** ** Plain objects in [Object.keys] order *)

Module JsObject.

Fixpoint digits_value (s : string) (acc : N) : option N :=
  match s with
  | EmptyString => Some acc
  | String c r =>
      let n := N_of_ascii c in
      if ((48 <=? n) && (n <=? 57))%N
      then digits_value r (acc * 10 + (n - 48))%N
      else None
  end.

(** A property name is an array index when it is the canonical decimal
    form of an integer below 2^32 - 1; such names are enumerated first,
    in ascending numeric order. *)
Definition array_index (k : string) : option N :=
  match k with
  | EmptyString => None
  | String c r =>
      if Ascii.eqb c "0" && negb (String.eqb r "") then None
      else match digits_value k 0 with
           | Some n => if (n <? 4294967295)%N then Some n else None
           | None => None
           end
  end.

Section Props.
Context {A : Type}.

Definition has_key (k : string) (o : list (string * A)) : bool :=
  existsb (fun p => String.eqb (fst p) k) o.

Fixpoint update (k : string) (v : A) (o : list (string * A)) : list (string * A) :=
  match o with
  | [] => []
  | (k', v') :: r =>
      if String.eqb k' k then (k, v) :: r else (k', v') :: update k v r
  end.

(** Position of a new own property: among the array indices by value,
    after every other name already present. *)
Fixpoint insert_new (k : string) (v : A) (o : list (string * A)) : list (string * A) :=
  match o with
  | [] => [(k, v)]
  | (k', v') :: r =>
      match array_index k, array_index k' with
      | Some n, Some n' =>
          if (n <? n')%N then (k, v) :: o else (k', v') :: insert_new k v r
      | Some _, None => (k, v) :: o
      | None, _ => (k', v') :: insert_new k v r
      end
  end.

(** [o[k] = v] on an object literal.  The name [__proto__] reaches the
    inherited setter and never creates an own property. *)
Definition assign (k : string) (v : A) (o : list (string * A)) : list (string * A) :=
  if String.eqb k "__proto__" then o
  else if has_key k o then update k v o
  else insert_new k v o.

Fixpoint get (k : string) (o : list (string * A)) : option A :=
  match o with
  | [] => None
  | (k', v) :: r => if String.eqb k' k then Some v else get k r
  end.
End Props.

End JsObject.

(** ** JSON values and their shape descriptor ([parser.js]) *)

Module Json.

(** The result of [JSON.parse]: an object lists its own properties in
    [Object.keys] order; a number is the rational its literal denotes. *)
Inductive value : Type :=
| JNull
| JBool (b : bool)
| JNumber (n : Q)
| JString (s : string)
| JArray (items : list value)
| JObject (props : list (string * value)).

(** What [getJSONStructure] returns: a string (the placeholder, a
    [typeof] tag or the remainder note), an array descriptor
    [{type, length, items}] whose [items] is [null] for an empty array,
    or an object descriptor [{type, keys}]. *)
Inductive shape : Type :=
| ShString (s : string)
| ShArray (length : nat) (items : option shape)
| ShObject (keys : list (string * shape)).

Definition placeholder : shape := ShString "...".

Fixpoint getJSONStructure (obj : value) (depth : nat) : shape :=
  if 3 <? depth then placeholder
  else
    match obj with
    | JArray items =>
        ShArray (length items)
          match items with
          | [] => None
          | first :: _ => Some (getJSONStructure first (depth + 1))
          end
    | JObject props =>
        let structure :=
          (fix each (n : nat) (ps : list (string * value))
               (structure : list (string * shape)) {struct ps} :=
             match n, ps with
             | S n', (key, v) :: ps' =>
                 each n' ps'
                   (JsObject.assign key (getJSONStructure v (depth + 1)) structure)
             | _, _ => structure
             end) 10 props [] in
        ShObject
          (if 10 <? length props
           then JsObject.assign "..."
                  (ShString (JsString.of_nat (length props - 10) +:+ " more keys"))
                  structure
           else structure)
    | JNull => ShString "object"
    | JBool _ => ShString "boolean"
    | JNumber _ => ShString "number"
    | JString _ => ShString "string"
    end.

(** The value cut [n] levels below its root: what lies deeper is
    forgotten. *)
Fixpoint prune (n : nat) (v : value) : value :=
  match n with
  | 0 => JNull
  | S n' =>
      match v with
      | JArray items => JArray (map (prune n') items)
      | JObject props => JObject (map (fun p => (fst p, prune n' (snd p))) props)
      | _ => v
      end
  end.

(** Nesting height of a descriptor. *)
Fixpoint height (s : shape) : nat :=
  match s with
  | ShString _ => 0
  | ShArray _ None => 1
  | ShArray _ (Some i) => S (height i)
  | ShObject keys => S (fold_right (fun p m => Nat.max (height (snd p)) m) 0 keys)
  end.

(** [k] objects nested in one another around [leaf]. *)
Fixpoint nest (k : nat) (leaf : value) : value :=
  match k with
  | 0 => leaf
  | S k' => JObject [("a", nest k' leaf)]
  end.

End Json.

(** ** Node's [path] module *)

(** The functions of [path] the scanner and the analyzer call.  [join] is
    left to the instance: the code only compares its result with the
    members of the file list. *)
Class PathModule := {
  sep : ascii;
  extname : string -> string;
  basename : string -> string;
  dirname : string -> string;
  join : string -> string -> string
}.

Module NodePath.

(** [s.slice(a, b)] for [0 <= a <= b]. *)
Definition slice (s : string) (a b : Z) : string :=
  String.substring (Z.to_nat a) (Z.to_nat (b - a)) s.

(** The characters of [path] from the last to the first, as the loops of
    [path.posix] read them. *)
Definition backwards (path : string) : list ascii :=
  rev (list_ascii_of_string path).

Definition last_index (path : string) : Z := Z.of_nat (String.length path) - 1.

Record ExtScan := {
  startDot : Z;
  startPart : Z;
  ext_end : Z;
  ext_matchedSlash : bool;
  preDotState : Z
}.

Fixpoint extname_scan (codes : list ascii) (i : Z) (st : ExtScan) : ExtScan :=
  match codes with
  | [] => st
  | code :: before =>
      if Ascii.eqb code "/" then
        if negb (ext_matchedSlash st)
        then {| startDot := startDot st; startPart := i + 1; ext_end := ext_end st;
                ext_matchedSlash := ext_matchedSlash st; preDotState := preDotState st |}
        else extname_scan before (i - 1) st
      else
        let st1 :=
          if (ext_end st =? -1)%Z
          then {| startDot := startDot st; startPart := startPart st; ext_end := i + 1;
                  ext_matchedSlash := false; preDotState := preDotState st |}
          else st in
        let st2 :=
          if Ascii.eqb code "." then
            if (startDot st1 =? -1)%Z
            then {| startDot := i; startPart := startPart st1; ext_end := ext_end st1;
                    ext_matchedSlash := ext_matchedSlash st1;
                    preDotState := preDotState st1 |}
            else if negb (preDotState st1 =? 1)%Z
            then {| startDot := startDot st1; startPart := startPart st1;
                    ext_end := ext_end st1; ext_matchedSlash := ext_matchedSlash st1;
                    preDotState := 1 |}
            else st1
          else if negb (startDot st1 =? -1)%Z
          then {| startDot := startDot st1; startPart := startPart st1;
                  ext_end := ext_end st1; ext_matchedSlash := ext_matchedSlash st1;
                  preDotState := -1 |}
          else st1 in
        extname_scan before (i - 1) st2
  end.

(** [path.posix.extname] *)
Definition posix_extname (path : string) : string :=
  let st := extname_scan (backwards path) (last_index path)
              {| startDot := -1; startPart := 0; ext_end := -1;
                 ext_matchedSlash := true; preDotState := 0 |} in
  if ((startDot st =? -1) || (ext_end st =? -1) || (preDotState st =? 0)
      || ((preDotState st =? 1) && (startDot st =? ext_end st - 1)
          && (startDot st =? startPart st + 1)))%Z
  then ""
  else slice path (startDot st) (ext_end st).

Record BaseScan := { base_start : Z; base_end : Z; base_matchedSlash : bool }.

Fixpoint basename_scan (codes : list ascii) (i : Z) (st : BaseScan) : BaseScan :=
  match codes with
  | [] => st
  | code :: before =>
      if Ascii.eqb code "/" then
        if negb (base_matchedSlash st)
        then {| base_start := i + 1; base_end := base_end st;
                base_matchedSlash := base_matchedSlash st |}
        else basename_scan before (i - 1) st
      else if (base_end st =? -1)%Z
      then basename_scan before (i - 1)
             {| base_start := base_start st; base_end := i + 1;
                base_matchedSlash := false |}
      else basename_scan before (i - 1) st
  end.

(** [path.posix.basename] without a suffix *)
Definition posix_basename (path : string) : string :=
  let st := basename_scan (backwards path) (last_index path)
              {| base_start := 0; base_end := -1; base_matchedSlash := true |} in
  if (base_end st =? -1)%Z then "" else slice path (base_start st) (base_end st).

(** The loop of [dirname] runs from the last index down to index 1: the
    first character is only consulted for [hasRoot]. *)
Fixpoint dirname_scan (codes : list ascii) (i : Z) (matchedSlash : bool) : Z :=
  match codes with
  | [] => -1
  | code :: before =>
      if (i <? 1)%Z then -1
      else if Ascii.eqb code "/" then
        if negb matchedSlash then i else dirname_scan before (i - 1) matchedSlash
      else dirname_scan before (i - 1) false
  end.

(** [path.posix.dirname] *)
Definition posix_dirname (path : string) : string :=
  match path with
  | EmptyString => "."
  | String first _ =>
      let hasRoot := Ascii.eqb first "/" in
      let e := dirname_scan (backwards path) (last_index path) true in
      if (e =? -1)%Z then (if hasRoot then "/" else ".")
      else if hasRoot && (e =? 1)%Z then "//"
      else slice path 0 e
  end.

(** [path.posix], with [join] restricted to the case the analyzer meets: a
    normalized, non-empty root without a trailing separator and a
    normalized relative name. *)
#[export] Instance posix : PathModule := {
  sep := "/"%char;
  extname := posix_extname;
  basename := posix_basename;
  dirname := posix_dirname;
  join := fun root name => root +:+ "/" +:+ name
}.

End NodePath.

(** ** The file system the scanner and the analyzer read

    A failing call (a missing or unreadable file) is [None] or [false]. *)
Record FileSystem := {
  readFile : string -> option string;
  access : string -> bool;
  stat_size : string -> option N
}.

(** ** Scanner: statistics and categories *)

Module Scanner.

(** [array.includes(x)] on an array of strings *)
Definition Array_includes (xs : list string) (x : string) : bool :=
  existsb (String.eqb x) xs.

Record Stats := {
  total : nat;
  byExtension : gmap string nat;
  byDirectory : gmap string nat;
  totalSize : N
}.

(** [counts[key] = (counts[key] || 0) + 1], for keys that do not name a
    member of [Object.prototype].  At such a key the table is a plain
    object that reads the inherited member instead of an absent count: the
    assignment to [__proto__] stores nothing and the others store a string.
    The statements about whole histograms exclude these keys. *)
Definition count_up (key : string) (counts : gmap string nat) : gmap string nat :=
  <[key := default 0 (counts !! key) + 1]> counts.

(** Sum of the counts of a histogram. *)
Definition count_sum (counts : gmap string nat) : nat :=
  map_fold (fun _ n acc => n + acc) 0 counts.

Inductive Category := Code | Config | Docs | Tests | Assets | Other.

#[export] Instance Category_eq_dec : EqDecision Category.
Proof. solve_decision. Defined.

Record Categories := {
  code : list string;
  config : list string;
  docs : list string;
  tests : list string;
  assets : list string;
  other : list string
}.

Definition no_categories : Categories :=
  {| code := []; config := []; docs := []; tests := []; assets := []; other := [] |}.

(** [categories.<c>.push(file)] *)
Definition push (c : Category) (file : string) (cs : Categories) : Categories :=
  match c with
  | Code => {| code := code cs ++ [file]; config := config cs; docs := docs cs;
               tests := tests cs; assets := assets cs; other := other cs |}
  | Config => {| code := code cs; config := config cs ++ [file]; docs := docs cs;
                 tests := tests cs; assets := assets cs; other := other cs |}
  | Docs => {| code := code cs; config := config cs; docs := docs cs ++ [file];
               tests := tests cs; assets := assets cs; other := other cs |}
  | Tests => {| code := code cs; config := config cs; docs := docs cs;
                tests := tests cs ++ [file]; assets := assets cs; other := other cs |}
  | Assets => {| code := code cs; config := config cs; docs := docs cs;
                 tests := tests cs; assets := assets cs ++ [file]; other := other cs |}
  | Other => {| code := code cs; config := config cs; docs := docs cs;
                tests := tests cs; assets := assets cs; other := other cs ++ [file] |}
  end.

(** The list of one category. *)
Definition members (c : Category) (cs : Categories) : list string :=
  match c with
  | Code => code cs
  | Config => config cs
  | Docs => docs cs
  | Tests => tests cs
  | Assets => assets cs
  | Other => other cs
  end.

Definition codeExtensions : list string :=
  [".js"; ".ts"; ".jsx"; ".tsx"; ".py"; ".rb"; ".go"; ".java"; ".c"; ".cpp"; ".rs"].
Definition configFiles : list string :=
  ["package.json"; "tsconfig.json"; ".eslintrc"; ".prettierrc";
   "webpack.config.js"; "vite.config.js"].
Definition docExtensions : list string := [".md"; ".txt"; ".rst"; ".adoc"].
Definition testPatterns : list string :=
  [".test."; ".spec."; "__tests__"; "test/"; "tests/"].
Definition assetExtensions : list string :=
  [".png"; ".jpg"; ".jpeg"; ".gif"; ".svg"; ".ico"; ".woff"; ".woff2"; ".ttf"].

Section WithPath.
Context `{PathModule}.

(** [path.dirname(file).split(path.sep)[0] || '.'] *)
Definition directory_key (file : string) : string :=
  let first := hd "" (JsString.split sep (dirname file)) in
  if JsString.truthy first then first else ".".

(** One iteration of the loop of [getFileStats]. *)
Definition stats_step (fs : FileSystem) (stats : Stats) (file : string) : Stats :=
  let ext := if JsString.truthy (extname file) then extname file else "(no extension)" in
  let byExtension' := count_up ext (byExtension stats) in
  let dir := directory_key file in
  let byDirectory' := count_up dir (byDirectory stats) in
  {| total := total stats;
     byExtension := byExtension';
     byDirectory := byDirectory';
     totalSize := match stat_size fs file with
                  | Some size => (totalSize stats + size)%N
                  | None => totalSize stats
                  end |}.

Definition getFileStats (fs : FileSystem) (files : list string) : Stats :=
  fold_left (stats_step fs) files
    {| total := length files; byExtension := ∅; byDirectory := ∅; totalSize := 0 |}.

(** The branch the [if]/[else if] chain of [categorizeFiles] takes. *)
Definition category_of (file : string) : Category :=
  let ext := extname file in
  let basename := basename file in
  if existsb (fun p => JsString.includes file p) testPatterns then Tests
  else if Array_includes codeExtensions ext then Code
  else if existsb (fun c => JsString.includes basename c) configFiles
          || String.eqb ext ".json" || String.eqb ext ".yaml" || String.eqb ext ".yml"
  then Config
  else if Array_includes docExtensions ext then Docs
  else if Array_includes assetExtensions ext then Assets
  else Other.

Definition categorizeFiles (files : list string) : Categories :=
  fold_left (fun categories file => push (category_of file) file categories)
    files no_categories.

(** The precedence as the specification words it: the third rule asks that
    the basename be one of the known configuration file names. *)
Definition category_as_specified (file : string) : Category :=
  let ext := extname file in
  if existsb (fun p => JsString.includes file p) testPatterns then Tests
  else if Array_includes codeExtensions ext then Code
  else if Array_includes configFiles (basename file)
          || Array_includes [".json"; ".yaml"; ".yml"] ext
  then Config
  else if Array_includes docExtensions ext then Docs
  else if Array_includes assetExtensions ext then Assets
  else Other.

End WithPath.

End Scanner.

(** ** Regular expressions

    The fragment of JavaScript regular expressions the sources use, with
    the backtracking order of [RegExp.prototype.exec]: greedy quantifiers
    try the longest repetition first, an optional part is tried before it
    is skipped.  Every expression of the sources is anchored with [^] and
    has no flags, so a match can only start at index 0. *)

Module Regex.

Inductive regex : Type :=
| Chr (c : ascii)                     (* a literal character *)
| Cls (p : ascii -> bool)             (* a character class *)
| Star (p : ascii -> bool)            (* [class*] *)
| Seq (r1 r2 : regex)
| Opt (r : regex)                     (* [(?:r)?] *)
| Group (i : nat) (r : regex)         (* the [i]-th capturing group *)
| Eol.                                (* [$] *)

(** [class+] *)
Definition Plus (p : ascii -> bool) : regex := Seq (Cls p) (Star p).

(** A literal word. *)
Fixpoint Lit (w : string) (next : regex) : regex :=
  match w with
  | EmptyString => next
  | String c w' => Seq (Chr c) (Lit w' next)
  end.

(** Captures: group number to matched text; an absent group did not take
    part in the match ([undefined]). *)
Definition captures := list (nat * string).

Fixpoint capture (i : nat) (caps : captures) : option string :=
  match caps with
  | [] => None
  | (j, text) :: rest => if Nat.eqb i j then Some text else capture i rest
  end.

(** [m[i]] for a group that takes part in every match. *)
Definition group (i : nat) (m : captures) : string := default "" (capture i m).

(** The text consumed between the input [s] and its suffix [s']. *)
Definition consumed (s s' : string) : string :=
  String.substring 0 (String.length s - String.length s') s.

Definition cont := string -> captures -> option captures.

Fixpoint star_loop (p : ascii -> bool) (k : cont) (s : string) (caps : captures)
  : option captures :=
  match s with
  | String c s' =>
      if p c then
        match star_loop p k s' caps with
        | Some result => Some result
        | None => k s caps
        end
      else k s caps
  | EmptyString => k s caps
  end.

Fixpoint run (r : regex) (s : string) (caps : captures) (k : cont) : option captures :=
  match r with
  | Chr c =>
      match s with
      | String c' s' => if Ascii.eqb c' c then k s' caps else None
      | EmptyString => None
      end
  | Cls p =>
      match s with
      | String c' s' => if p c' then k s' caps else None
      | EmptyString => None
      end
  | Star p => star_loop p k s caps
  | Seq r1 r2 => run r1 s caps (fun s' caps' => run r2 s' caps' k)
  | Opt r' =>
      match run r' s caps k with
      | Some result => Some result
      | None => k s caps
      end
  | Group i r' => run r' s caps (fun s' caps' => k s' ((i, consumed s s') :: caps'))
  | Eol =>
      match s with
      | EmptyString => k s caps
      | String _ _ => None
      end
  end.

(** [s.match(r)] for an expression anchored at the start: the captures of
    the first match in backtracking order, or [None] for [null]. *)
Definition exec (r : regex) (s : string) : option captures :=
  run r s [] (fun _ caps => Some caps).

(** Character classes *)
Definition unit (c : ascii) : nat := nat_of_ascii c.
Definition between (lo hi : nat) (c : ascii) : bool := (lo <=? unit c) && (unit c <=? hi).
Definition upper : ascii -> bool := between 65 90.
Definition lower : ascii -> bool := between 97 122.
Definition digit : ascii -> bool := between 48 57.
Definition one (x : ascii) (c : ascii) : bool := Ascii.eqb c x.
(** [\w] *)
Definition word (c : ascii) : bool := upper c || lower c || digit c || one "_" c.
(** [\s] and [\S] *)
Definition space : ascii -> bool := JsString.is_space.
Definition nonspace (c : ascii) : bool := negb (space c).
(** Anything but a closing parenthesis *)
Definition notparen (c : ascii) : bool := negb (one ")" c).
(** [.]: anything but a line terminator *)
Definition dot (c : ascii) : bool := negb ((unit c =? 10) || (unit c =? 13)).

(** Every character of [s] is in the class [p]. *)
Fixpoint all_chars (p : ascii -> bool) (s : string) : bool :=
  match s with
  | EmptyString => true
  | String c s' => p c && all_chars p s'
  end.

(** A run of [p] cannot be extended into [s]. *)
Definition stops (p : ascii -> bool) (s : string) : bool :=
  match s with
  | EmptyString => true
  | String c _ => negb (p c)
  end.

End Regex.

(** ** Syntax trees of the ECMAScript parser

    The part of an ESTree the extractor reads.  Declarators and specifiers
    are not walked as nodes of their own, so they are kept as tuples inside
    their declaration; every other kind of node is an [Other] with the
    children the walker descends into. *)

Module ESTree.

Inductive FunctionType := FunctionDeclaration | FunctionExpression | ArrowFunctionExpression.
Inductive ClassType := ClassDeclaration | ClassExpression.

Inductive node : Type :=
| Identifier (name : string)
| PrivateIdentifier (name : string)
| Literal (raw : string)
| AssignmentPattern (left right : node)
| Function (type : FunctionType) (line : nat) (id : option node)
    (params : list node) (body : node) (async generator : bool)
| Class (type : ClassType) (line : nat) (id : option node)
    (superClass : option node) (body : list node)
| MethodDefinition (key : node) (computed : bool) (kind : string)
    (static : bool) (value : node)
| VariableDeclaration (line : nat) (kind : string)
    (declarations : list (node * option node))           (* [id], [init] *)
| ImportDeclaration (line : nat)
    (specifiers : list (string * node * option node))    (* [type], [local], [imported] *)
    (source : string)
| ExportNamedDeclaration (line : nat) (declaration : option node)
    (specifiers : list (node * node))                    (* [local], [exported] *)
| ExportDefaultDeclaration (line : nat) (declaration : node)
| Other (type : string) (children : list node).

(** [type === 'ArrowFunctionExpression'] *)
Definition is_arrow (type : FunctionType) : bool :=
  match type with
  | ArrowFunctionExpression => true
  | _ => false
  end.

(** [n.name] *)
Definition name_of (n : node) : option string :=
  match n with
  | Identifier name | PrivateIdentifier name => Some name
  | _ => None
  end.

(** [n.id] *)
Definition id_of (n : node) : option node :=
  match n with
  | Function _ _ id _ _ _ _ => id
  | Class _ _ id _ _ => id
  | _ => None
  end.

(** [n.left] *)
Definition left_of (n : node) : option node :=
  match n with
  | AssignmentPattern lhs _ => Some lhs
  | _ => None
  end.

(** [o?.name] *)
Definition opt_name (o : option node) : option string :=
  match o with
  | Some n => name_of n
  | None => None
  end.

Definition of_option (f : node -> list node) (o : option node) : list node :=
  match o with
  | Some n => f n
  | None => []
  end.

(** The nodes of a tree in the order [walk.simple] calls back on them:
    the base walker descends into the children of a node, then the
    visitor for the node's own type fires. *)
Fixpoint postorder (n : node) : list node :=
  match n with
  | Identifier _ | PrivateIdentifier _ | Literal _ => [n]
  | AssignmentPattern lhs rhs => postorder lhs ++ postorder rhs ++ [n]
  | Function _ _ id params body _ _ =>
      of_option postorder id ++ flat_map postorder params ++ postorder body ++ [n]
  | Class _ _ id superClass body =>
      of_option postorder id ++ of_option postorder superClass
      ++ flat_map postorder body ++ [n]
  | MethodDefinition key computed _ _ value =>
      (if computed then postorder key else []) ++ postorder value ++ [n]
  | VariableDeclaration _ _ declarations =>
      flat_map (fun d => postorder (fst d) ++ of_option postorder (snd d)) declarations
      ++ [n]
  | ImportDeclaration _ _ _ => [n]
  | ExportNamedDeclaration _ declaration _ => of_option postorder declaration ++ [n]
  | ExportDefaultDeclaration _ declaration => postorder declaration ++ [n]
  | Other _ children => flat_map postorder children ++ [n]
  end.

(** The children the base walker descends into.  The specifiers of an
    import and the literal source of an import or export are leaves no
    callback of the extractor fires on; they are left out. *)
Definition kids (n : node) : list node :=
  match n with
  | Identifier _ | PrivateIdentifier _ | Literal _ => []
  | AssignmentPattern lhs rhs => [lhs; rhs]
  | Function _ _ id params body _ _ => option_list id ++ params ++ [body]
  | Class _ _ id superClass body => option_list id ++ option_list superClass ++ body
  | MethodDefinition key computed _ _ value =>
      (if computed then [key] else []) ++ [value]
  | VariableDeclaration _ _ declarations =>
      flat_map (fun d => fst d :: option_list (snd d)) declarations
  | ImportDeclaration _ _ _ => []
  | ExportNamedDeclaration _ declaration _ => option_list declaration
  | ExportDefaultDeclaration _ declaration => [declaration]
  | Other _ children => children
  end.

(** [walk.simple(ast, visitors)] with the shared state the callbacks
    mutate threaded through. *)
Definition simple {S : Type} (ast : node) (visit : node -> S -> S) (state : S) : S :=
  fold_left (fun st n => visit n st) (postorder ast) state.

End ESTree.

(** ** Parser: the record of one file ([parser.js])

    One record type per kind of fact serves both the ECMAScript and the
    Python extractor; a property one of them does not write is [None]. *)

Module Parser.
Import ESTree.

Record ImportRecord := {
  imp_source : option string;
  imp_specifiers : option (list (string * option string * option string));
  imp_line : nat
}.

Record ExportRecord := { exp_type : string; exp_name : option string; exp_line : nat }.

Record FunctionRecord := {
  fn_name : string;
  fn_params : list string;
  fn_async : option bool;
  fn_generator : option bool;
  fn_arrow : option bool;
  fn_line : nat;
  fn_exported : option bool;
  fn_isMethod : option bool
}.

Record MethodRecord := { m_name : option string; m_kind : string; m_static : bool }.

Record ClassRecord := {
  cls_name : option string;
  cls_superClass : option string;
  cls_methods : option (list MethodRecord);
  cls_line : nat;
  cls_exported : option bool
}.

Record VariableRecord := { var_name : string; var_kind : option string; var_line : nat }.

Record CommentRecord := {
  cm_type : string;
  cm_value : string;
  cm_start : nat;
  cm_end : nat
}.

Record FileRecord := {
  filePath : string;
  fileName : string;
  extension : string;
  lines : nat;
  size : nat;
  exports : list ExportRecord;
  imports : list ImportRecord;
  functions : list FunctionRecord;
  classes : list ClassRecord;
  variables : list VariableRecord;
  comments : list CommentRecord;
  ast : option node;
  parseError : option string;
  structure : option Json.shape
}.

(** [result.<list>.push(x)], [result.<property> = x] *)
Definition push_export (x : ExportRecord) (r : FileRecord) : FileRecord :=
  {| filePath := filePath r; fileName := fileName r; extension := extension r;
     lines := lines r; size := size r; exports := exports r ++ [x];
     imports := imports r; functions := functions r; classes := classes r;
     variables := variables r; comments := comments r; ast := ast r;
     parseError := parseError r; structure := structure r |}.
Definition push_import (x : ImportRecord) (r : FileRecord) : FileRecord :=
  {| filePath := filePath r; fileName := fileName r; extension := extension r;
     lines := lines r; size := size r; exports := exports r;
     imports := imports r ++ [x]; functions := functions r; classes := classes r;
     variables := variables r; comments := comments r; ast := ast r;
     parseError := parseError r; structure := structure r |}.
Definition push_function (x : FunctionRecord) (r : FileRecord) : FileRecord :=
  {| filePath := filePath r; fileName := fileName r; extension := extension r;
     lines := lines r; size := size r; exports := exports r;
     imports := imports r; functions := functions r ++ [x]; classes := classes r;
     variables := variables r; comments := comments r; ast := ast r;
     parseError := parseError r; structure := structure r |}.
Definition push_class (x : ClassRecord) (r : FileRecord) : FileRecord :=
  {| filePath := filePath r; fileName := fileName r; extension := extension r;
     lines := lines r; size := size r; exports := exports r;
     imports := imports r; functions := functions r; classes := classes r ++ [x];
     variables := variables r; comments := comments r; ast := ast r;
     parseError := parseError r; structure := structure r |}.
Definition push_variable (x : VariableRecord) (r : FileRecord) : FileRecord :=
  {| filePath := filePath r; fileName := fileName r; extension := extension r;
     lines := lines r; size := size r; exports := exports r;
     imports := imports r; functions := functions r; classes := classes r;
     variables := variables r ++ [x]; comments := comments r; ast := ast r;
     parseError := parseError r; structure := structure r |}.
Definition push_comment (x : CommentRecord) (r : FileRecord) : FileRecord :=
  {| filePath := filePath r; fileName := fileName r; extension := extension r;
     lines := lines r; size := size r; exports := exports r;
     imports := imports r; functions := functions r; classes := classes r;
     variables := variables r; comments := comments r ++ [x]; ast := ast r;
     parseError := parseError r; structure := structure r |}.
Definition set_ast (x : node) (r : FileRecord) : FileRecord :=
  {| filePath := filePath r; fileName := fileName r; extension := extension r;
     lines := lines r; size := size r; exports := exports r;
     imports := imports r; functions := functions r; classes := classes r;
     variables := variables r; comments := comments r; ast := Some x;
     parseError := parseError r; structure := structure r |}.
Definition set_parseError (x : string) (r : FileRecord) : FileRecord :=
  {| filePath := filePath r; fileName := fileName r; extension := extension r;
     lines := lines r; size := size r; exports := exports r;
     imports := imports r; functions := functions r; classes := classes r;
     variables := variables r; comments := comments r; ast := ast r;
     parseError := Some x; structure := structure r |}.
Definition set_structure (x : Json.shape) (r : FileRecord) : FileRecord :=
  {| filePath := filePath r; fileName := fileName r; extension := extension r;
     lines := lines r; size := size r; exports := exports r;
     imports := imports r; functions := functions r; classes := classes r;
     variables := variables r; comments := comments r; ast := ast r;
     parseError := parseError r; structure := Some x |}.
(** The two marking loops at the end of [parseJavaScript]. *)
Definition set_functions_classes (fs : list FunctionRecord) (cs : list ClassRecord)
  (r : FileRecord) : FileRecord :=
  {| filePath := filePath r; fileName := fileName r; extension := extension r;
     lines := lines r; size := size r; exports := exports r;
     imports := imports r; functions := fs; classes := cs;
     variables := variables r; comments := comments r; ast := ast r;
     parseError := parseError r; structure := structure r |}.

(** *** Python: one regular expression after the other, line by line *)

Import Regex.

(** [importRegex]: optionally [from], white space, a run of non-space
    characters (group 1) and white space; then [import], white space and
    the rest of the line (group 2, at least one character). *)
Definition importRegex : regex :=
  Seq (Opt (Lit "from" (Seq (Plus space) (Seq (Group 1 (Plus nonspace)) (Plus space)))))
    (Lit "import" (Seq (Plus space) (Seq (Group 2 (Plus dot)) Eol))).

(** [funcRegex]: a possibly empty run of white space (group 1), [def],
    white space, a word (group 2), optional white space, an opening
    parenthesis, a possibly empty run of characters other than the closing
    parenthesis (group 3), a closing parenthesis.  No end anchor. *)
Definition funcRegex : regex :=
  Seq (Group 1 (Star space))
    (Lit "def"
       (Seq (Plus space)
          (Seq (Group 2 (Plus word))
             (Seq (Star space)
                (Seq (Chr "(")
                   (Seq (Group 3 (Star notparen)) (Chr ")"))))))).

(** [classRegex]: [class], white space, a word (group 1), optionally a
    parenthesized run of characters other than the closing parenthesis
    (group 2), a colon.  No end anchor. *)
Definition classRegex : regex :=
  Lit "class"
    (Seq (Plus space)
       (Seq (Group 1 (Plus word))
          (Seq (Opt (Seq (Chr "(")
                       (Seq (Group 2 (Star notparen)) (Chr ")"))))
             (Chr ":")))).

(** [varRegex]: a capital letter or underscore followed by capital
    letters, digits and underscores (group 1), optional white space, an
    equals sign.  No end anchor. *)
Definition varRegex : regex :=
  Seq (Group 1 (Seq (Cls (fun c => upper c || one "_" c))
                  (Star (fun c => upper c || digit c || one "_" c))))
    (Seq (Star space) (Chr "=")).

(** The body of the loop of [parsePython] for the line numbered
    [lineNum]. *)
Definition python_line (result : FileRecord) (lineNum : nat) (line : string)
  : FileRecord :=
  match exec importRegex line with
  | Some importMatch =>
      push_import
        {| imp_source := JsString.or_else (capture 1 importMatch) (capture 2 importMatch);
           imp_specifiers := None;
           imp_line := lineNum |} result
  | None =>
      match exec funcRegex line with
      | Some funcMatch =>
          let indent := String.length (group 1 funcMatch) in
          push_function
            {| fn_name := group 2 funcMatch;
               fn_params :=
                 List.filter JsString.truthy
                   (map JsString.trim (JsString.split "," (group 3 funcMatch)));
               fn_async := None; fn_generator := None; fn_arrow := None;
               fn_line := lineNum;
               fn_exported := None;
               fn_isMethod := Some (0 <? indent) |} result
      | None =>
          match exec classRegex line with
          | Some classMatch =>
              push_class
                {| cls_name := capture 1 classMatch;
                   cls_superClass := capture 2 classMatch;
                   cls_methods := None;
                   cls_line := lineNum;
                   cls_exported := None |} result
          | None =>
              match exec varRegex line with
              | Some varMatch =>
                  push_variable
                    {| var_name := group 1 varMatch; var_kind := None;
                       var_line := lineNum |} result
              | None => result
              end
          end
      end
  end.

(** The loop from index [i] on. *)
Fixpoint python_lines (lines : list string) (i : nat) (result : FileRecord)
  : FileRecord :=
  match lines with
  | [] => result
  | line :: rest => python_lines rest (i + 1) (python_line result (i + 1) line)
  end.

Definition parsePython (content : string) (result : FileRecord) : FileRecord :=
  python_lines (JsString.split "010" content) 0 result.

(** The first base of a parenthesized base-class list, which the
    specification names as the parent of a class. *)
Definition first_base (bases : string) : string :=
  JsString.trim (hd "" (JsString.split "," bases)).

(** *** ECMAScript: parse, walk, mark *)

(** What one call of [acorn.parse] does as far as the extractor can see:
    it reports comments through [onComment] while it reads the source and
    then either returns a tree or throws an error with a message. *)
Inductive Outcome := Parsed (tree : node) | Thrown (message : string).

Record CommentEvent := {
  ev_block : bool;
  ev_text : string;
  ev_start : nat;
  ev_end : nat
}.

(** How [walk.simple] ends on the tree [acorn.parse] returned.  The walk
    recurses on the call stack of the engine: on a tree that nests deeper
    than the stack allows, the engine throws from inside the walk.  By then
    the callbacks have run on the nodes that come before that point in the
    order of the walk, the first [visited] nodes of that order, and on no
    other node: the callback of a node runs after the walk of its children
    has returned, deeper on the stack than the callback itself goes. *)
Inductive WalkEnd := Returns | Throws (visited : nat) (message : string).

(** What the libraries do on one source text: the comments [acorn.parse]
    reports, how it ends, and how the walk over its tree ends. *)
Record Parse := { reported : list CommentEvent; outcome : Outcome; walk : WalkEnd }.

(** The nodes the callbacks have run on when the walk ends, in order. *)
Definition walked (parse : Parse) (tree : node) : list node :=
  match walk parse with
  | Returns => postorder tree
  | Throws visited _ => firstn visited (postorder tree)
  end.

Record Options := { showAst : bool }.

(** The record the [onComment] callback builds. *)
Definition comment_of (ev : CommentEvent) : CommentRecord :=
  {| cm_type := if ev_block ev then "block" else "line";
     cm_value := JsString.trim (ev_text ev);
     cm_start := ev_start ev;
     cm_end := ev_end ev |}.

(** The [onComment] callback. *)
Definition onComment (result : FileRecord) (ev : CommentEvent) : FileRecord :=
  push_comment (comment_of ev) result.

(** [p.name || p.left?.name || 'param'] *)
Definition param_name (p : node) : string :=
  JsString.or_default (JsString.or_else (name_of p) (opt_name (left_of p))) "param".

Definition method_of (item : node) : list MethodRecord :=
  match item with
  | MethodDefinition key _ kind static _ =>
      [{| m_name := name_of key; m_kind := kind; m_static := static |}]
  | _ => []
  end.

(** One iteration of the loop of the [VariableDeclaration] callback. *)
Definition declarator (line : nat) (kind : string) (result : FileRecord)
  (decl : node * option node) : FileRecord :=
  match fst decl with
  | Identifier name =>
      match snd decl with
      | Some (Function ArrowFunctionExpression _ _ params _ async _) =>
          push_function
            {| fn_name := name; fn_params := map param_name params;
               fn_async := Some async; fn_generator := None; fn_arrow := Some true;
               fn_line := line; fn_exported := None; fn_isMethod := None |} result
      | Some (Function FunctionExpression _ _ params _ async _) =>
          push_function
            {| fn_name := name; fn_params := map param_name params;
               fn_async := Some async; fn_generator := None; fn_arrow := Some false;
               fn_line := line; fn_exported := None; fn_isMethod := None |} result
      | _ =>
          push_variable
            {| var_name := name; var_kind := Some kind; var_line := line |} result
      end
  | _ => result
  end.

(** The callbacks handed to [walk.simple], by node type. *)
Definition visit (n : node) (result : FileRecord) : FileRecord :=
  match n with
  | ImportDeclaration line specifiers source =>
      push_import
        {| imp_source := Some source;
           imp_specifiers :=
             Some (map (fun s => (fst (fst s), name_of (snd (fst s)), opt_name (snd s)))
                     specifiers);
           imp_line := line |} result
  | ExportNamedDeclaration line declaration specifiers =>
      let declared :=
        match declaration with
        | Some (Function FunctionDeclaration _ id _ _ _ _) =>
            push_export
              {| exp_type := "function"; exp_name := opt_name id; exp_line := line |}
              result
        | Some (VariableDeclaration _ _ declarations) =>
            fold_left
              (fun r decl =>
                 push_export
                   {| exp_type := "variable"; exp_name := name_of (fst decl);
                      exp_line := line |} r)
              declarations result
        | Some (Class ClassDeclaration _ id _ _) =>
            push_export
              {| exp_type := "class"; exp_name := opt_name id; exp_line := line |}
              result
        | _ => result
        end in
      fold_left
        (fun r spec =>
           push_export
             {| exp_type := "reexport"; exp_name := name_of (snd spec);
                exp_line := line |} r)
        specifiers declared
  | ExportDefaultDeclaration line declaration =>
      push_export
        {| exp_type := "default";
           exp_name :=
             Some (JsString.or_default
                     (JsString.or_else (name_of declaration)
                        (opt_name (id_of declaration)))
                     "anonymous");
           exp_line := line |} result
  | Function FunctionDeclaration line id params _ async generator =>
      push_function
        {| fn_name := JsString.or_default (opt_name id) "anonymous";
           fn_params := map param_name params;
           fn_async := Some async; fn_generator := Some generator; fn_arrow := None;
           fn_line := line; fn_exported := Some false; fn_isMethod := None |} result
  | Class ClassDeclaration line id superClass body =>
      push_class
        {| cls_name := opt_name id;
           cls_superClass := opt_name superClass;
           cls_methods := Some (flat_map method_of body);
           cls_line := line;
           cls_exported := None |} result
  | VariableDeclaration line kind declarations =>
      fold_left (declarator line kind) declarations result
  | _ => result
  end.

(** *** The callbacks as a pure description: what each node contributes *)

Record Facts := {
  f_exports : list ExportRecord;
  f_imports : list ImportRecord;
  f_functions : list FunctionRecord;
  f_classes : list ClassRecord;
  f_variables : list VariableRecord
}.

Definition no_facts : Facts :=
  {| f_exports := []; f_imports := []; f_functions := []; f_classes := [];
     f_variables := [] |}.

Definition add_facts (d : Facts) (r : FileRecord) : FileRecord :=
  {| filePath := filePath r; fileName := fileName r; extension := extension r;
     lines := lines r; size := size r;
     exports := exports r ++ f_exports d;
     imports := imports r ++ f_imports d;
     functions := functions r ++ f_functions d;
     classes := classes r ++ f_classes d;
     variables := variables r ++ f_variables d;
     comments := comments r; ast := ast r;
     parseError := parseError r; structure := structure r |}.

(** An initializer that makes its declarator a function. *)
Definition function_init (init : option node) : bool :=
  match init with
  | Some (Function ArrowFunctionExpression _ _ _ _ _ _)
  | Some (Function FunctionExpression _ _ _ _ _ _) => true
  | _ => false
  end.

(** The function record of a declarator, if its name is an identifier and
    its initializer a function or arrow expression. *)
Definition declared_function (line : nat) (decl : node * option node)
  : list FunctionRecord :=
  match decl with
  | (Identifier name, Some (Function type _ _ params _ async _)) =>
      match type with
      | FunctionDeclaration => []
      | _ =>
          [{| fn_name := name; fn_params := map param_name params;
              fn_async := Some async; fn_generator := None;
              fn_arrow := Some (is_arrow type);
              fn_line := line; fn_exported := None; fn_isMethod := None |}]
      end
  | _ => []
  end.

(** The variable record of a declarator, if its name is an identifier and
    its initializer is not a function or arrow expression. *)
Definition declared_variable (line : nat) (kind : string) (decl : node * option node)
  : list VariableRecord :=
  match fst decl with
  | Identifier name =>
      if function_init (snd decl) then []
      else [{| var_name := name; var_kind := Some kind; var_line := line |}]
  | _ => []
  end.

Definition declared_exports (line : nat) (declaration : option node)
  : list ExportRecord :=
  match declaration with
  | Some (Function FunctionDeclaration _ id _ _ _ _) =>
      [{| exp_type := "function"; exp_name := opt_name id; exp_line := line |}]
  | Some (VariableDeclaration _ _ declarations) =>
      map (fun decl => {| exp_type := "variable"; exp_name := name_of (fst decl);
                          exp_line := line |}) declarations
  | Some (Class ClassDeclaration _ id _ _) =>
      [{| exp_type := "class"; exp_name := opt_name id; exp_line := line |}]
  | _ => []
  end.

Definition facts_of (n : node) : Facts :=
  match n with
  | ImportDeclaration line specifiers source =>
      {| f_exports := [];
         f_imports :=
           [{| imp_source := Some source;
               imp_specifiers :=
                 Some (map (fun s => (fst (fst s), name_of (snd (fst s)),
                                      opt_name (snd s))) specifiers);
               imp_line := line |}];
         f_functions := []; f_classes := []; f_variables := [] |}
  | ExportNamedDeclaration line declaration specifiers =>
      {| f_exports :=
           declared_exports line declaration
           ++ map (fun spec => {| exp_type := "reexport";
                                  exp_name := name_of (snd spec);
                                  exp_line := line |}) specifiers;
         f_imports := []; f_functions := []; f_classes := []; f_variables := [] |}
  | ExportDefaultDeclaration line declaration =>
      {| f_exports :=
           [{| exp_type := "default";
               exp_name :=
                 Some (JsString.or_default
                         (JsString.or_else (name_of declaration)
                            (opt_name (id_of declaration)))
                         "anonymous");
               exp_line := line |}];
         f_imports := []; f_functions := []; f_classes := []; f_variables := [] |}
  | Function FunctionDeclaration line id params _ async generator =>
      {| f_exports := []; f_imports := [];
         f_functions :=
           [{| fn_name := JsString.or_default (opt_name id) "anonymous";
               fn_params := map param_name params;
               fn_async := Some async; fn_generator := Some generator;
               fn_arrow := None; fn_line := line; fn_exported := Some false;
               fn_isMethod := None |}];
         f_classes := []; f_variables := [] |}
  | Class ClassDeclaration line id superClass body =>
      {| f_exports := []; f_imports := []; f_functions := [];
         f_classes :=
           [{| cls_name := opt_name id; cls_superClass := opt_name superClass;
               cls_methods := Some (flat_map method_of body);
               cls_line := line; cls_exported := None |}];
         f_variables := [] |}
  | VariableDeclaration line kind declarations =>
      {| f_exports := []; f_imports := [];
         f_functions := flat_map (declared_function line) declarations;
         f_classes := [];
         f_variables := flat_map (declared_variable line kind) declarations |}
  | _ => no_facts
  end.


(** The extensions [parseFile] sends to [parseJavaScript]. *)
Definition ecma_extensions : list string :=
  [".js"; ".mjs"; ".cjs"; ".ts"; ".tsx"; ".jsx"].

(** [func.exported = exportedNames.has(func.name)] *)
Definition mark_function (exportedNames : list (option string)) (func : FunctionRecord)
  : FunctionRecord :=
  {| fn_name := fn_name func; fn_params := fn_params func; fn_async := fn_async func;
     fn_generator := fn_generator func; fn_arrow := fn_arrow func;
     fn_line := fn_line func;
     fn_exported := Some (bool_decide (Some (fn_name func) ∈ exportedNames));
     fn_isMethod := fn_isMethod func |}.

Definition mark_class (exportedNames : list (option string)) (cls : ClassRecord)
  : ClassRecord :=
  {| cls_name := cls_name cls; cls_superClass := cls_superClass cls;
     cls_methods := cls_methods cls; cls_line := cls_line cls;
     cls_exported := Some (bool_decide (cls_name cls ∈ exportedNames)) |}.

Section WithParsers.
(** [acorn.parse] with the options of the source, and [JSON.parse]. *)
Variable acorn_parse : string -> Parse.
Variable JSON_parse : string -> Json.value + string.
Context `{PathModule}.

(** One [try] holds the parse, the walk and the marking of the exported
    names; its [catch] stores the message of whatever was thrown.  An error
    thrown from the walk therefore leaves the facts collected so far in the
    record, unmarked, beside the message. *)
Definition parseJavaScript (content : string) (result : FileRecord) (options : Options)
  : FileRecord :=
  let parse := acorn_parse content in
  let result := fold_left onComment (reported parse) result in
  match outcome parse with
  | Parsed tree =>
      let result := if showAst options then set_ast tree result else result in
      match walk parse with
      | Returns =>
          let result := simple tree visit result in
          let exportedNames := map exp_name (exports result) in
          set_functions_classes
            (map (mark_function exportedNames) (functions result))
            (map (mark_class exportedNames) (classes result))
            result
      | Throws visited message =>
          let result :=
            fold_left (fun st n => visit n st) (firstn visited (postorder tree)) result in
          set_parseError message result
      end
  | Thrown message => set_parseError message result
  end.

Definition parseJSON (content : string) (result : FileRecord) : FileRecord :=
  match JSON_parse content with
  | inl json => set_structure (Json.getJSONStructure json 0) result
  | inr message => set_parseError message result
  end.

(** The record [parseFile] starts from. *)
Definition new_result (path content : string) : FileRecord :=
  {| filePath := path;
     fileName := basename path;
     extension := extname path;
     lines := length (JsString.split "010" content);
     size := String.length content;
     exports := []; imports := []; functions := []; classes := [];
     variables := []; comments := [];
     ast := None; parseError := None; structure := None |}.

Definition parseFile (path content : string) (options : Options) : FileRecord :=
  let ext := extname path in
  let result := new_result path content in
  if Scanner.Array_includes [".js"; ".mjs"; ".cjs"] ext
  then parseJavaScript content result options
  else if Scanner.Array_includes [".ts"; ".tsx"] ext
  then parseJavaScript content result options
  else if Scanner.Array_includes [".jsx"] ext
  then parseJavaScript content result options
  else if String.eqb ext ".py" then parsePython content result
  else if String.eqb ext ".json" then parseJSON content result
  else result.

End WithParsers.

End Parser.

(** ** Analyzer: dependencies and entry points ([analyzer.js]) *)

Module Analyzer.
Import Json.

(** [Boolean(v)] for a parsed JSON value *)
Definition truthy (v : value) : bool :=
  match v with
  | JNull => false
  | JBool b => b
  | JNumber n => negb (Qeq_bool n 0)
  | JString s => JsString.truthy s
  | JArray _ | JObject _ => true
  end.

(** [v.k] for a parsed JSON value and a name [k] that no prototype
    defines: [None] when the access throws (on [null]), [Some None] for
    [undefined]. *)
Definition member (v : value) (k : string) : option (option value) :=
  match v with
  | JNull => None
  | JObject props => Some (JsObject.get k props)
  | _ => Some None
  end.

(** [x || {}] *)
Definition or_empty (x : option value) : value :=
  match x with
  | Some v => if truthy v then v else JObject []
  | None => JObject []
  end.

(** [Object.values(v)] for a truthy value that is not a string *)
Definition object_values (v : value) : list value :=
  match v with
  | JObject props => map snd props
  | JArray items => items
  | _ => []
  end.

(** The equality of [Set]: primitives by value, objects by identity; two
    objects of one parsed document are never the same object. *)
Definition same_value (a b : value) : bool :=
  match a, b with
  | JNull, JNull => true
  | JBool x, JBool y => Bool.eqb x y
  | JNumber x, JNumber y => Qeq_bool x y
  | JString x, JString y => String.eqb x y
  | _, _ => false
  end.

(** [[...new Set(xs)]]: first occurrences, in order. *)
Fixpoint dedupe_from (seen xs : list value) : list value :=
  match xs with
  | [] => []
  | x :: rest =>
      if existsb (same_value x) seen then dedupe_from seen rest
      else x :: dedupe_from (x :: seen) rest
  end.

Definition dedupe (xs : list value) : list value := dedupe_from [] xs.

Record Dependencies := {
  manager : option string;
  dependencies : value;
  devDependencies : value
}.

Import Regex.

Definition name_char (c : ascii) : bool :=
  lower c || upper c || digit c || one "_" c || one "-" c.
Definition operator_char (c : ascii) : bool :=
  one "<" c || one ">" c || one "=" c || one "!" c.

(** The pattern of [parseRequirements]: a run of letters, digits,
    underscores and hyphens (group 1), optionally a run of comparison
    characters followed by at least one more character (group 2), the end
    of the text. *)
Definition requirementRegex : regex :=
  Seq (Group 1 (Plus name_char))
    (Seq (Opt (Group 2 (Seq (Plus operator_char) (Plus dot)))) Eol).

(** The body of the loop of [parseRequirements]. *)
Definition requirement_line (deps : list (string * value)) (line : string)
  : list (string * value) :=
  let trimmed := JsString.trim line in
  if JsString.truthy trimmed && negb (JsString.startsWith trimmed "#") then
    match exec requirementRegex trimmed with
    | Some m =>
        JsObject.assign (group 1 m)
          (JString (JsString.or_default (capture 2 m) "*")) deps
    | None => deps
    end
  else deps.

(** A line the loop skips: blank once trimmed, or a comment. *)
Definition skipped (line : string) : bool :=
  negb (JsString.truthy (JsString.trim line)
        && negb (JsString.startsWith (JsString.trim line) "#")).

Definition parseRequirements (content : string) : value :=
  JObject (fold_left requirement_line (JsString.split "010" content) []).

Definition commonEntries : list string :=
  ["index.js"; "index.ts"; "main.js"; "main.ts";
   "app.js"; "app.ts"; "server.js"; "server.ts";
   "src/index.js"; "src/index.ts"; "src/main.js"; "src/main.ts";
   "src/app.js"; "src/app.ts";
   "main.py"; "app.py"; "__main__.py";
   "cmd/main.go"; "main.go"].

Section WithFileSystem.
Variable fs : FileSystem.
Variable JSON_parse : string -> Json.value + string.
Context `{PathModule}.

(** The first [try] block of [analyzeDependencies]: [inl] when it reaches
    its [return], [inr] with the object as mutated so far when something
    throws and the [catch] swallows it. *)
Definition probe_package (projectPath : string) (deps : Dependencies)
  : Dependencies + Dependencies :=
  match readFile fs (join projectPath "package.json") with
  | None => inr deps
  | Some text =>
      match JSON_parse text with
      | inr _ => inr deps
      | inl packageJson =>
          let deps1 := {| manager := Some "npm"; dependencies := dependencies deps;
                          devDependencies := devDependencies deps |} in
          match member packageJson "dependencies" with
          | None => inr deps1
          | Some d =>
              let deps2 := {| manager := manager deps1; dependencies := or_empty d;
                              devDependencies := devDependencies deps1 |} in
              match member packageJson "devDependencies" with
              | None => inr deps2
              | Some dd =>
                  inl {| manager := manager deps2; dependencies := dependencies deps2;
                         devDependencies := or_empty dd |}
              end
          end
      end
  end.

Definition analyzeDependencies (projectPath : string) : Dependencies :=
  let deps := {| manager := None; dependencies := JObject [];
                 devDependencies := JObject [] |} in
  match probe_package projectPath deps with
  | inl deps => deps
  | inr deps =>
      match readFile fs (join projectPath "requirements.txt") with
      | Some requirements =>
          {| manager := Some "pip";
             dependencies := parseRequirements requirements;
             devDependencies := devDependencies deps |}
      | None =>
          if access fs (join projectPath "pyproject.toml")
          then {| manager := Some "poetry/pip"; dependencies := dependencies deps;
                  devDependencies := devDependencies deps |}
          else deps
      end
  end.

(** The [try] block of [findEntryPoints]: what it has pushed when it ends
    or throws. *)
Definition declared_entries (projectPath : string) (entryPoints : list value)
  : list value :=
  match readFile fs (join projectPath "package.json") with
  | None => entryPoints
  | Some text =>
      match JSON_parse text with
      | inr _ => entryPoints
      | inl packageJson =>
          match member packageJson "main" with
          | None => entryPoints
          | Some main =>
              let entryPoints :=
                match main with
                | Some m => if truthy m then entryPoints ++ [m] else entryPoints
                | None => entryPoints
                end in
              match member packageJson "bin" with
              | None => entryPoints
              | Some (Some bin) =>
                  if truthy bin then
                    entryPoints ++ match bin with
                                   | JString _ => [bin]
                                   | _ => object_values bin
                                   end
                  else entryPoints
              | Some None => entryPoints
              end
          end
      end
  end.

Definition findEntryPoints (projectPath : string) (files : list string) : list value :=
  let entryPoints :=
    fold_left
      (fun entryPoints entry =>
         let fullPath := join projectPath entry in
         if Scanner.Array_includes files fullPath
         then entryPoints ++ [JString entry]
         else entryPoints)
      commonEntries [] in
  dedupe (declared_entries projectPath entryPoints).

End WithFileSystem.

End Analyzer.

(** ** Sample inputs *)

Module Samples.

Definition nl : string := String "010" EmptyString.

(** A method and a module-level function with the same signature. *)
Definition python_defs : string :=
  "class K:" +:+ nl +:+ "    def f(a, b):" +:+ nl +:+ "def f(a, b):".

(** A class with two bases. *)
Definition python_two_bases : string := "class A(B, C):".

(** The records [parseFile] would start from for these sources. *)
Definition python_defs_result : Parser.FileRecord :=
  Parser.new_result (H := NodePath.posix) "m.py" python_defs.
Definition python_two_bases_result : Parser.FileRecord :=
  Parser.new_result (H := NodePath.posix) "m.py" python_two_bases.

(** What [acorn.parse] does on the two-line source [js_unbalanced]: while
    skipping to the first token it reports the line comment (the text after
    the slashes, offsets 0 to 7), then it meets the closing brace where a
    statement must start and throws. *)
Definition js_unbalanced : string := "// note" +:+ nl +:+ "}".
Definition acorn_unbalanced : string -> Parser.Parse :=
  fun _ =>
    {| Parser.reported :=
         [{| Parser.ev_block := false; Parser.ev_text := " note";
             Parser.ev_start := 0; Parser.ev_end := 7 |}];
       Parser.outcome := Parser.Thrown "Unexpected token (2:0)";
       Parser.walk := Parser.Returns |}.

(** A parser that returns the given tree and reports no comment. *)
Definition acorn_returns (tree : ESTree.node) : string -> Parser.Parse :=
  fun _ => {| Parser.reported := []; Parser.outcome := Parser.Parsed tree;
              Parser.walk := Parser.Returns |}.

(** The parser returns [tree] and the walk over it runs out of stack after
    [visited] callbacks. *)
Definition acorn_overflows (tree : ESTree.node) (visited : nat) : string -> Parser.Parse :=
  fun _ => {| Parser.reported := []; Parser.outcome := Parser.Parsed tree;
              Parser.walk := Parser.Throws visited "Maximum call stack size exceeded" |}.

Definition no_json : string -> Json.value + string :=
  fun _ => inr "Unexpected end of JSON input".

Definition block : ESTree.node := ESTree.Other "BlockStatement" [].

(** [function f() {}] on line 1 and [export { f };] on line 2. *)
Definition js_reexport : string := "function f() {}" +:+ nl +:+ "export { f };".
Definition tree_reexport : ESTree.node :=
  ESTree.Other "Program"
    [ESTree.Function ESTree.FunctionDeclaration 1 (Some (ESTree.Identifier "f")) []
       block false false;
     ESTree.ExportNamedDeclaration 2 None
       [(ESTree.Identifier "f", ESTree.Identifier "f")]].

(** [export function g() {}] *)
Definition js_export_function : string := "export function g() {}".
Definition tree_export_function : ESTree.node :=
  ESTree.Other "Program"
    [ESTree.ExportNamedDeclaration 1
       (Some (ESTree.Function ESTree.FunctionDeclaration 1
                (Some (ESTree.Identifier "g")) [] block false false))
       []].


Definition default_options : Parser.Options := {| Parser.showAst := false |}.

(** A project at [/proj] holding [index.js] and a [requirements.txt]. *)
Definition requirements_txt : string := "# web" +:+ nl +:+ "flask==2.0" +:+ nl.
Definition pip_project : FileSystem :=
  {| readFile := fun path =>
       if String.eqb path "/proj/requirements.txt" then Some requirements_txt
       else if String.eqb path "/proj/index.js"
            then Some "export function main() {}"
            else None;
     access := fun path =>
       String.eqb path "/proj/requirements.txt" || String.eqb path "/proj/index.js";
     stat_size := fun _ => None |}.
Definition pip_project_files : list string :=
  ["/proj/index.js"; "/proj/requirements.txt"].

End Samples.

(** ** Arrays of strings as the JavaScript built-ins see them *)

Module JsArray.

(** [xs.join(sep)] *)
Fixpoint join (sep : string) (xs : list string) : string :=
  match xs with
  | [] => EmptyString
  | [x] => x
  | x :: rest => x +:+ sep +:+ join sep rest
  end.

Fixpoint insert_sorted (x : string) (sorted : list string) : list string :=
  match sorted with
  | [] => [x]
  | y :: rest => if String.leb x y then x :: sorted else y :: insert_sorted x rest
  end.

(** [xs.sort()] without a comparator: ascending in the order of the code
    units.  Two strings that compare equal are the same string, so the
    sorted arrangement does not depend on the algorithm. *)
Definition sort (xs : list string) : list string := fold_right insert_sorted [] xs.

(** [set.add(x)] on a [Set] of strings kept in insertion order. *)
Definition set_add (x : string) (set : list string) : list string :=
  if Scanner.Array_includes set x then set else set ++ [x].

End JsArray.

(** ** Scanner: the directory scan ([scanDirectory]) *)

Module Scan.

Definition DEFAULT_IGNORE : list string :=
  ["**/node_modules/**"; "**/.git/**"; "**/dist/**"; "**/build/**"; "**/.next/**";
   "**/coverage/**"; "**/*.min.js"; "**/*.map"; "**/package-lock.json";
   "**/yarn.lock"; "**/pnpm-lock.yaml"].

(** What [fs.stat] does on the root: it resolves to a directory or to
    something else, or it rejects with an error that may carry a code. *)
Inductive StatOutcome :=
| IsDirectory
| NotDirectory
| StatRejects (code : option string) (message : string).

(** The options [scanDirectory] hands to [glob]. *)
Record GlobOptions := {
  cwd : string;
  absolute : bool;
  nodir : bool;
  glob_ignore : list string;
  glob_maxDepth : Z
}.

(** The caller's options; an absent one takes its default. *)
Record ScanOptions := { maxDepth : option Z; ignore : option (list string) }.

(** The promise [scanDirectory] returns: fulfilled with the files or
    rejected with an error of the given message. *)
Inductive ScanResult := Files (files : list string) | Rejected (message : string).

Section WithDisk.
Variable stat : string -> StatOutcome.
Variable glob : string -> GlobOptions -> list string.

Definition scanDirectory (dirPath : string) (options : ScanOptions) : ScanResult :=
  let maxDepth := default 10%Z (maxDepth options) in
  let ignore := default [] (ignore options) in
  match stat dirPath with
  | StatRejects code message =>
      if bool_decide (code = Some "ENOENT")
      then Rejected ("Directory not found: " +:+ dirPath)
      else Rejected message
  | NotDirectory =>
      (* thrown inside the [try], caught, and thrown again: it has no code *)
      Rejected (dirPath +:+ " is not a directory")
  | IsDirectory =>
      let depthPattern := if (0 <? maxDepth)%Z then "**/*" else "*" in
      let files :=
        glob depthPattern
          {| cwd := dirPath; absolute := true; nodir := true;
             glob_ignore := DEFAULT_IGNORE ++ ignore;
             glob_maxDepth := maxDepth |} in
      Files (JsArray.sort files)
  end.

End WithDisk.

End Scan.

(** ** Analyzer: structure, technology stack, the whole analysis *)

Module Project.
Import Json Analyzer.

Record Structure := {
  directories : list string;
  depth : nat;
  tree : list (string * Json.value)      (* created empty and never filled *)
}.

(** The inner loop of [analyzeStructure]: every part but the last extends
    the current path, which is added to the set. *)
Definition add_directories (join : string -> string -> string) (parts : list string)
  (set : list string) : list string :=
  snd (fold_left
         (fun state part =>
            let currentPath :=
              if JsString.truthy (fst state) then join (fst state) part else part in
            (currentPath, JsArray.set_add currentPath (snd state)))
         (removelast parts) (EmptyString, set)).

(** An own enumerable property of a parsed JSON value, as object spread
    copies it: of an object by name, of an array or a string by index. *)
Definition own_property (v : value) (k : string) : option value :=
  match v with
  | JObject props => JsObject.get k props
  | JArray items =>
      match JsObject.array_index k with
      | Some i => nth_error items (N.to_nat i)
      | None => None
      end
  | JString s =>
      match JsObject.array_index k with
      | Some i =>
          match String.get (N.to_nat i) s with
          | Some c => Some (JString (String c EmptyString))
          | None => None
          end
      | None => None
      end
  | _ => None
  end.

(** [allDeps[k]] for [allDeps = {...dependencies, ...devDependencies}] and
    a name [k] that no prototype defines. *)
Definition allDeps (deps : Dependencies) (k : string) : option value :=
  match own_property (devDependencies deps) k with
  | Some v => Some v
  | None => own_property (dependencies deps) k
  end.

(** [allDeps[k]] as a condition. *)
Definition depends_on (deps : Dependencies) (k : string) : bool :=
  match allDeps deps k with
  | Some v => truthy v
  | None => false
  end.

(** [Object.keys(counts)] *)
Definition keys (counts : gmap string nat) : list string := (map_to_list counts).*1.

(** [if (condition) stack.push(tag)] *)
Definition push_if (condition : bool) (tag : string) (stack : list string) : list string :=
  if condition then stack ++ [tag] else stack.

(** [detectTechStack], from the two parts of the analysis it reads. *)
Definition detectTechStack (deps : Dependencies) (stats : Scanner.Stats) : list string :=
  let fileExts := keys (Scanner.byExtension stats) in
  let ext_in (exts : list string) := existsb (fun e => Scanner.Array_includes exts e) fileExts in
  let stack := [] in
  let stack := push_if (ext_in [".js"; ".mjs"; ".cjs"]) "JavaScript" stack in
  let stack := push_if (ext_in [".ts"; ".tsx"]) "TypeScript" stack in
  let stack := push_if (existsb (fun e => String.eqb e ".py") fileExts) "Python" stack in
  let stack := push_if (existsb (fun e => String.eqb e ".go") fileExts) "Go" stack in
  let stack := push_if (existsb (fun e => String.eqb e ".rs") fileExts) "Rust" stack in
  let stack := push_if (depends_on deps "react" || depends_on deps "react-dom")
                 "React" stack in
  let stack := push_if (depends_on deps "vue") "Vue" stack in
  let stack := push_if (depends_on deps "@angular/core") "Angular" stack in
  let stack := push_if (depends_on deps "next") "Next.js" stack in
  let stack := push_if (depends_on deps "express") "Express" stack in
  let stack := push_if (depends_on deps "fastify") "Fastify" stack in
  let stack := push_if (depends_on deps "nestjs" || depends_on deps "@nestjs/core")
                 "NestJS" stack in
  let stack := push_if (depends_on deps "webpack") "Webpack" stack in
  let stack := push_if (depends_on deps "vite") "Vite" stack in
  let stack := push_if (depends_on deps "jest") "Jest" stack in
  let stack := push_if (depends_on deps "mocha") "Mocha" stack in
  let stack := push_if (depends_on deps "tailwindcss") "Tailwind CSS" stack in
  stack.

(** The tags in the order of the rules. *)
Definition all_tags : list string :=
  ["JavaScript"; "TypeScript"; "Python"; "Go"; "Rust"; "React"; "Vue"; "Angular";
   "Next.js"; "Express"; "Fastify"; "NestJS"; "Webpack"; "Vite"; "Jest"; "Mocha";
   "Tailwind CSS"].

Record Analysis := {
  name : string;
  path : string;
  files : list string;
  stats : Scanner.Stats;
  categories : Scanner.Categories;
  structure : Structure;
  dependencies : Dependencies;
  entryPoints : list value;
  techStack : list string
}.

Section WithFileSystem.
Variable fs : FileSystem.
Variable JSON_parse : string -> Json.value + string.
(** [path.relative] *)
Variable relative : string -> string -> string.
Context `{PathModule}.

(** One iteration of the outer loop of [analyzeStructure]. *)
Definition structure_step (projectPath : string) (st : Structure) (file : string)
  : Structure :=
  let relativePath := relative projectPath file in
  let parts := JsString.split sep relativePath in
  {| directories := add_directories join parts (directories st);
     depth := Nat.max (depth st) (length parts);
     tree := tree st |}.

Definition analyzeStructure (projectPath : string) (files : list string) : Structure :=
  let st := fold_left (structure_step projectPath) files
              {| directories := []; depth := 0; tree := [] |} in
  {| directories := JsArray.sort (directories st); depth := depth st; tree := tree st |}.

Definition analyzeProject (projectPath : string) (files : list string) : Analysis :=
  let stats := Scanner.getFileStats fs files in
  let deps := analyzeDependencies fs JSON_parse projectPath in
  {| name := basename projectPath;
     path := projectPath;
     files := files;
     stats := stats;
     categories := Scanner.categorizeFiles files;
     structure := analyzeStructure projectPath files;
     dependencies := deps;
     entryPoints := findEntryPoints fs JSON_parse projectPath files;
     techStack := detectTechStack deps stats |}.

End WithFileSystem.

End Project.

(** ** Output and formatting helpers ([output.js], [formatter.js]) *)

Module Output.
Import Regex.

Definition escape : ascii := ascii_of_nat 27.

(** The pattern of [stripAnsi]: the escape character, an opening bracket,
    a possibly empty run of digits and semicolons, one letter.  Group 0 is
    the whole match. *)
Definition ansiRegex : regex :=
  Group 0
    (Seq (Chr escape)
       (Seq (Chr "[")
          (Seq (Star (fun c => digit c || one ";" c))
             (Cls (fun c => lower c || upper c))))).

(** [str.replace(ansiRegex, '')] with the global flag: from left to right,
    a match at the current position is dropped and the scan resumes after
    it; otherwise the character is kept.  [skip] counts the characters of
    the current match still to drop. *)
Fixpoint strip (skip : nat) (str : string) : string :=
  match str with
  | EmptyString => EmptyString
  | String c rest =>
      match skip with
      | S skip' => strip skip' rest
      | 0 =>
          match exec ansiRegex str with
          | Some m => strip (String.length (group 0 m) - 1) rest
          | None => String c (strip 0 rest)
          end
      end
  end.

Definition stripAnsi (str : string) : string := strip 0 str.

(** [formatAISummary] of [formatter.js] *)
Definition formatAISummary (summary : string) : string :=
  JsArray.join (String "010" EmptyString)
    (map (fun line => "  " +:+ line) (JsString.split "010" summary)).

End Output.

(** ** Derived notions used to state the properties *)

Module Derived.

(** [path.extname(file) || '(no extension)'], the key of the extension
    histogram. *)
Definition extension_key `{PathModule} (file : string) : string :=
  if JsString.truthy (extname file) then extname file else "(no extension)".

(** The names a plain object inherits from [Object.prototype]. *)
Definition Object_prototype : list string :=
  ["__proto__"; "constructor"; "hasOwnProperty"; "isPrototypeOf";
   "propertyIsEnumerable"; "toLocaleString"; "toString"; "valueOf";
   "__defineGetter__"; "__defineSetter__"; "__lookupGetter__"; "__lookupSetter__"].

(** No file of the list has an extension key or a directory key that names
    a member of [Object.prototype]. *)
Definition ordinary_keys `{PathModule} (files : list string) : bool :=
  forallb
    (fun file =>
       negb (Scanner.Array_includes Object_prototype (extension_key file))
       && negb (Scanner.Array_includes Object_prototype (Scanner.directory_key file)))
    files.

(** The six lists of two categorizations, joined list by list. *)
Definition merge_categories (a b : Scanner.Categories) : Scanner.Categories :=
  {| Scanner.code := Scanner.code a ++ Scanner.code b;
     Scanner.config := Scanner.config a ++ Scanner.config b;
     Scanner.docs := Scanner.docs a ++ Scanner.docs b;
     Scanner.tests := Scanner.tests a ++ Scanner.tests b;
     Scanner.assets := Scanner.assets a ++ Scanner.assets b;
     Scanner.other := Scanner.other a ++ Scanner.other b |}.

(** Two bundles of facts, joined list by list. *)
Definition merge_facts (a b : Parser.Facts) : Parser.Facts :=
  {| Parser.f_exports := Parser.f_exports a ++ Parser.f_exports b;
     Parser.f_imports := Parser.f_imports a ++ Parser.f_imports b;
     Parser.f_functions := Parser.f_functions a ++ Parser.f_functions b;
     Parser.f_classes := Parser.f_classes a ++ Parser.f_classes b;
     Parser.f_variables := Parser.f_variables a ++ Parser.f_variables b |}.

(** What the line numbered [lineNum] contributes to the record of a Python
    file: the record of the first of the four expressions that matches. *)
Definition python_facts (lineNum : nat) (line : string) : Parser.Facts :=
  match Regex.exec Parser.importRegex line with
  | Some importMatch =>
      {| Parser.f_exports := [];
         Parser.f_imports :=
           [{| Parser.imp_source :=
                 JsString.or_else (Regex.capture 1 importMatch)
                   (Regex.capture 2 importMatch);
               Parser.imp_specifiers := None;
               Parser.imp_line := lineNum |}];
         Parser.f_functions := []; Parser.f_classes := []; Parser.f_variables := [] |}
  | None =>
      match Regex.exec Parser.funcRegex line with
      | Some funcMatch =>
          {| Parser.f_exports := []; Parser.f_imports := [];
             Parser.f_functions :=
               [{| Parser.fn_name := Regex.group 2 funcMatch;
                   Parser.fn_params :=
                     List.filter JsString.truthy
                       (map JsString.trim
                          (JsString.split "," (Regex.group 3 funcMatch)));
                   Parser.fn_async := None; Parser.fn_generator := None;
                   Parser.fn_arrow := None;
                   Parser.fn_line := lineNum;
                   Parser.fn_exported := None;
                   Parser.fn_isMethod :=
                     Some (0 <? String.length (Regex.group 1 funcMatch)) |}];
             Parser.f_classes := []; Parser.f_variables := [] |}
      | None =>
          match Regex.exec Parser.classRegex line with
          | Some classMatch =>
              {| Parser.f_exports := []; Parser.f_imports := [];
                 Parser.f_functions := [];
                 Parser.f_classes :=
                   [{| Parser.cls_name := Regex.capture 1 classMatch;
                       Parser.cls_superClass := Regex.capture 2 classMatch;
                       Parser.cls_methods := None;
                       Parser.cls_line := lineNum;
                       Parser.cls_exported := None |}];
                 Parser.f_variables := [] |}
          | None =>
              match Regex.exec Parser.varRegex line with
              | Some varMatch =>
                  {| Parser.f_exports := []; Parser.f_imports := [];
                     Parser.f_functions := []; Parser.f_classes := [];
                     Parser.f_variables :=
                       [{| Parser.var_name := Regex.group 1 varMatch;
                           Parser.var_kind := None;
                           Parser.var_line := lineNum |}] |}
              | None => Parser.no_facts
              end
          end
      end
  end.

(** What the lines after index [i] contribute, in order. *)
Fixpoint python_all (lines : list string) (i : nat) : Parser.Facts :=
  match lines with
  | [] => Parser.no_facts
  | line :: rest => merge_facts (python_facts (i + 1) line) (python_all rest (i + 1))
  end.

(** The line numbers of the four lists of a bundle. *)
Definition line_numbers (d : Parser.Facts) : list (list nat) :=
  [map Parser.imp_line (Parser.f_imports d);
   map Parser.fn_line (Parser.f_functions d);
   map Parser.cls_line (Parser.f_classes d);
   map Parser.var_line (Parser.f_variables d)].

(** The facts a record holds. *)
Definition facts_in (r : Parser.FileRecord) : Parser.Facts :=
  {| Parser.f_exports := Parser.exports r;
     Parser.f_imports := Parser.imports r;
     Parser.f_functions := Parser.functions r;
     Parser.f_classes := Parser.classes r;
     Parser.f_variables := Parser.variables r |}.

(** A name of the all-capitals convention: a capital letter or an
    underscore, then capital letters, digits and underscores. *)
Definition constant_name (s : string) : bool :=
  match s with
  | EmptyString => false
  | String c rest =>
      (Regex.upper c || Regex.one "_" c)
      && Regex.all_chars
           (fun c => Regex.upper c || Regex.digit c || Regex.one "_" c) rest
  end.

(** Ascending in the order of the code units. *)
Definition ascending (xs : list string) : Prop :=
  Sorted (fun a b => String.leb a b = true) xs.

(** A package name as [parseRequirements] accepts it: letters, digits,
    underscores and hyphens, at least one. *)
Definition requirement_name (name : string) : bool :=
  JsString.truthy name && Regex.all_chars Analyzer.name_char name.

(** A version specification as [parseRequirements] accepts it: a comparison
    character, then at least one more character, none of them a line
    terminator. *)
Definition requirement_spec (spec : string) : bool :=
  match spec with
  | String o (String d tail) =>
      Analyzer.operator_char o && Regex.all_chars Regex.dot (String d tail)
  | _ => false
  end.

(** A well-formed dependency: such a name, and as value the star or such a
    specification. *)
Definition requirement_entry (p : string * Json.value) : bool :=
  requirement_name (fst p)
  && match snd p with
     | Json.JString v => String.eqb v "*" || requirement_spec v
     | _ => false
     end.

(** The rules of [detectTechStack] that test one dependency: its name and
    the tag it gives. *)
Definition dependency_tags : list (string * string) :=
  [("vue", "Vue"); ("@angular/core", "Angular"); ("next", "Next.js");
   ("express", "Express"); ("fastify", "Fastify"); ("webpack", "Webpack");
   ("vite", "Vite"); ("jest", "Jest"); ("mocha", "Mocha");
   ("tailwindcss", "Tailwind CSS")].


(** The parenthesized base list of a class line, when it has one. *)
Definition base_list (parent : option string) : string :=
  match parent with
  | Some bases => "(" +:+ bases +:+ ")"
  | None => EmptyString
  end.

(** The class lines [parsePython] recognizes: [class] at column 0, white
    space, a name of word characters, optionally a parenthesized text that
    holds no closing parenthesis, a colon, and anything after it. *)
Definition class_line (ws name : string) (parent : option string) (rest : string)
  : string :=
  "class" +:+ ws +:+ name +:+ base_list parent +:+ ":" +:+ rest.

Definition class_line_parts (ws name : string) (parent : option string) : bool :=
  JsString.truthy ws && Regex.all_chars Regex.space ws
  && JsString.truthy name && Regex.all_chars Regex.word name
  && match parent with
     | Some bases => Regex.all_chars Regex.notparen bases
     | None => true
     end.

End Derived.

(** ** More sample inputs *)

Module MoreSamples.
Import Samples.

(** A Python module with imports, a constant and a nested class. *)
Definition python_module : string :=
  "import os" +:+ nl +:+ "from a.b import c, d" +:+ nl +:+ "MAX_SIZE = 10" +:+ nl
  +:+ "class K:" +:+ nl +:+ "    class Inner:".

(** [function outer() { function inner(x) {} }] on line 1,
    [items.forEach(function (i) {})] on line 2 and
    [export default function () {}] on line 3. *)
Definition js_nested : string :=
  "function outer() { function inner(x) {} }" +:+ nl
  +:+ "items.forEach(function (i) {});" +:+ nl
  +:+ "export default function () {}".
Definition tree_nested : ESTree.node :=
  ESTree.Other "Program"
    [ESTree.Function ESTree.FunctionDeclaration 1 (Some (ESTree.Identifier "outer")) []
       (ESTree.Other "BlockStatement"
          [ESTree.Function ESTree.FunctionDeclaration 1
             (Some (ESTree.Identifier "inner")) [ESTree.Identifier "x"]
             block false false])
       false false;
     ESTree.Other "ExpressionStatement"
       [ESTree.Other "CallExpression"
          [ESTree.Other "MemberExpression"
             [ESTree.Identifier "items"; ESTree.Identifier "forEach"];
           ESTree.Function ESTree.FunctionExpression 2 None [ESTree.Identifier "i"]
             block false false]];
     ESTree.ExportDefaultDeclaration 3
       (ESTree.Function ESTree.FunctionDeclaration 3 None [] block false false)].

(** [function f() { function f(x) {} }] on line 1 and [export { f };] on
    line 2: two declarations of one name. *)
Definition js_shadow : string :=
  "function f() { function f(x) {} }" +:+ nl +:+ "export { f };".
Definition tree_shadow : ESTree.node :=
  ESTree.Other "Program"
    [ESTree.Function ESTree.FunctionDeclaration 1 (Some (ESTree.Identifier "f")) []
       (ESTree.Other "BlockStatement"
          [ESTree.Function ESTree.FunctionDeclaration 1
             (Some (ESTree.Identifier "f")) [ESTree.Identifier "x"] block false false])
       false false;
     ESTree.ExportNamedDeclaration 2 None
       [(ESTree.Identifier "f", ESTree.Identifier "f")]].

(** [class A extends B { constructor() {} static make() {} }] on line 1 and
    [const C = class {};] on line 2. *)
Definition js_classes : string :=
  "class A extends B { constructor() {} static make() {} }" +:+ nl
  +:+ "const C = class {};".
Definition method (name kind : string) (static : bool) : ESTree.node :=
  ESTree.MethodDefinition (ESTree.Identifier name) false kind static
    (ESTree.Function ESTree.FunctionExpression 1 None [] block false false).
Definition tree_classes : ESTree.node :=
  ESTree.Other "Program"
    [ESTree.Class ESTree.ClassDeclaration 1 (Some (ESTree.Identifier "A"))
       (Some (ESTree.Identifier "B"))
       [method "constructor" "constructor" false; method "make" "method" true];
     ESTree.VariableDeclaration 2 "const"
       [(ESTree.Identifier "C",
         Some (ESTree.Class ESTree.ClassExpression 2 None None []))]].

(** An object with twelve properties, one of them named like the
    remainder note. *)
Definition twelve_keys : Json.value :=
  Json.JObject
    (map (fun k => (k, Json.JNull))
       ["a"; "b"; "..."; "d"; "e"; "f"; "g"; "h"; "i"; "j"; "k"; "l"]).


(** A project whose manifest holds the text [null]. *)
Definition null_manifest : FileSystem :=
  {| readFile := fun path =>
       if String.eqb path "/app/package.json" then Some "null" else None;
     access := fun _ => false;
     stat_size := fun _ => None |}.

Definition json_null : string -> Json.value + string :=
  fun text => if String.eqb text "null" then inl Json.JNull
              else inr "Unexpected token".

(** A project whose manifest names a main module and one command. *)
Definition quoted (s : string) : string :=
  String (ascii_of_nat 34) s +:+ String (ascii_of_nat 34) EmptyString.

Definition manifest_text : string :=
  "{" +:+ quoted "main" +:+ ":" +:+ quoted "lib/cli.js" +:+ ","
  +:+ quoted "bin" +:+ ":{" +:+ quoted "briefly" +:+ ":" +:+ quoted "bin/briefly.js"
  +:+ "}}".

Definition manifest_props : list (string * Json.value) :=
  [("main", Json.JString "lib/cli.js");
   ("bin", Json.JObject [("briefly", Json.JString "bin/briefly.js")])].

Definition node_manifest : FileSystem :=
  {| readFile := fun path =>
       if String.eqb path "/app/package.json" then Some manifest_text else None;
     access := fun _ => false;
     stat_size := fun _ => None |}.

Definition json_manifest : string -> Json.value + string :=
  fun text => if String.eqb text manifest_text then inl (Json.JObject manifest_props)
              else inr "Unexpected token".

End MoreSamples.

(* ================================================================== *)
(** * Properties *)

Module JsonShape.
Import Json.

Lemma getJSONStructure_deep obj depth :
  3 < depth -> getJSONStructure obj depth = placeholder.
Proof.
  intros H. apply Nat.ltb_lt in H.
  destruct obj; simpl; rewrite H; reflexivity.
Qed.

Lemma each_congr (f g : value -> shape) :
  forall (n : nat) (ps qs : list (string * value)) acc,
    map fst ps = map fst qs ->
    Forall2 (fun p q => f (snd p) = g (snd q)) ps qs ->
    (fix each (n : nat) (ps : list (string * value))
         (structure : list (string * shape)) {struct ps} :=
       match n, ps with
       | S n', (key, v) :: ps' => each n' ps' (JsObject.assign key (f v) structure)
       | _, _ => structure
       end) n ps acc =
    (fix each (n : nat) (ps : list (string * value))
         (structure : list (string * shape)) {struct ps} :=
       match n, ps with
       | S n', (key, v) :: ps' => each n' ps' (JsObject.assign key (g v) structure)
       | _, _ => structure
       end) n qs acc.
Proof.
  intros n ps qs acc Hk Hv. revert n acc Hk.
  induction Hv as [|[k v] [k' v'] ps qs Hhd _ IH]; intros n acc Hk.
  - reflexivity.
  - simpl in Hk. injection Hk as -> Hk. simpl in Hhd.
    destruct n as [|n]; [reflexivity|].
    rewrite Hhd. apply IH, Hk.
Qed.

Lemma prune_props_inv n (ps qs : list (string * value)) :
  map (fun p => (fst p, prune n (snd p))) ps =
  map (fun p => (fst p, prune n (snd p))) qs ->
  map fst ps = map fst qs /\
  Forall2 (fun p q => prune n (snd p) = prune n (snd q)) ps qs.
Proof.
  revert qs. induction ps as [|p ps IH]; intros [|q qs] H; simpl in H; try discriminate.
  - split; constructor.
  - injection H as Hk Hv Ht. destruct (IH _ Ht) as [IHk IHv].
    split; [simpl; congruence | constructor; assumption].
Qed.

Lemma getJSONStructure_prune :
  forall n depth a b,
    4 <= depth + n ->
    prune n a = prune n b ->
    getJSONStructure a depth = getJSONStructure b depth.
Proof.
  induction n as [|n IH]; intros depth a b Hd Hp.
  - rewrite !getJSONStructure_deep by lia. reflexivity.
  - destruct (Nat.ltb_spec 3 depth) as [Hlt|Hle].
    { rewrite !getJSONStructure_deep by lia. reflexivity. }
    assert (Hnext : 4 <= (depth + 1) + n) by lia.
    pose proof (proj2 (Nat.ltb_ge 3 depth) Hle) as Hb.
    destruct a, b; simpl in Hp; try discriminate; simpl; rewrite Hb; try reflexivity.
    + injection Hp as Hp.
      assert (Hlen : length items = length items0).
      { rewrite <- (length_map (prune n) items), Hp. apply length_map. }
      rewrite Hlen. f_equal.
      destruct items, items0; simpl in Hp; try discriminate; [reflexivity|].
      injection Hp as Hh _. f_equal. apply IH; assumption.
    + injection Hp as Hp.
      assert (Hlen : length props = length props0).
      { rewrite <- (length_map (fun p => (fst p, prune n (snd p))) props), Hp.
        apply length_map. }
      destruct (prune_props_inv _ _ _ Hp) as [Hk Hv].
      rewrite Hlen. f_equal.
      rewrite (each_congr (fun v => getJSONStructure v (depth + 1))
                 (fun v => getJSONStructure v (depth + 1)) 10 props props0 [] Hk).
      * reflexivity.
      * eapply Forall2_impl; [exact Hv|]. intros p q Hpq. apply IH; assumption.
Qed.

Lemma Forall_assign {A} (P : A -> Prop) k v (o : list (string * A)) :
  P v -> Forall (fun p => P (snd p)) o ->
  Forall (fun p => P (snd p)) (JsObject.assign k v o).
Proof.
  intros Hv Ho. unfold JsObject.assign.
  destruct (String.eqb k "__proto__"); [assumption|].
  destruct (JsObject.has_key k o).
  - induction Ho as [|[k' v'] r Hh Hr IH]; simpl; [constructor|].
    destruct (String.eqb k' k); constructor; simpl; auto.
  - induction Ho as [|[k' v'] r Hh Hr IH]; simpl.
    + constructor; simpl; auto.
    + destruct (JsObject.array_index k) as [i|], (JsObject.array_index k') as [i'|];
        try destruct (i <? i')%N; repeat (constructor; simpl; auto).
Qed.

Lemma height_keys_le h (keys : list (string * shape)) :
  Forall (fun p => height (snd p) <= h) keys ->
  fold_right (fun p m => Nat.max (height (snd p)) m) 0 keys <= h.
Proof. induction 1; simpl; lia. Qed.

Lemma getJSONStructure_height :
  forall n depth obj, 4 <= depth + n -> height (getJSONStructure obj depth) <= n.
Proof.
  induction n as [|n IH]; intros depth obj Hd.
  - rewrite getJSONStructure_deep by lia. simpl. lia.
  - destruct (Nat.ltb_spec 3 depth) as [Hlt|Hle].
    { rewrite getJSONStructure_deep by lia. simpl. lia. }
    pose proof (proj2 (Nat.ltb_ge 3 depth) Hle) as Hb.
    destruct obj; simpl; rewrite Hb; simpl; try lia.
    + destruct items; [lia|]. apply le_n_S, IH. lia.
    + apply le_n_S, height_keys_le.
      assert (Hall : forall k ps acc,
        Forall (fun p => height (snd p) <= n) acc ->
        Forall (fun p => height (snd p) <= n)
          ((fix each (n0 : nat) (ps : list (string * value))
                (structure : list (string * shape)) {struct ps} :=
              match n0, ps with
              | S n', (key, v) :: ps' =>
                  each n' ps'
                    (JsObject.assign key (getJSONStructure v (depth + 1)) structure)
              | _, _ => structure
              end) k ps acc)).
      { intros k ps. revert k. induction ps as [|[key v] ps IHps]; intros k acc Hacc.
        - destruct k; assumption.
        - destruct k; [assumption|].
          apply IHps, (Forall_assign (fun s => height s <= n)); [|assumption].
          apply IH. lia. }
      destruct (10 <? length props).
      * apply (Forall_assign (fun s => height s <= n)); [simpl; lia|].
        apply Hall. constructor.
      * apply Hall. constructor.
Qed.

(** C3.  The descriptor depends on a value only through its first four
    levels (depths 0 to 3): whatever is reached at depth 4 or deeper is
    rendered as the placeholder, whatever it contains, and the descriptor
    built from depth [depth] never nests deeper than the levels that remain
    above depth 4.  Two values that agree once cut at depth 4 therefore get
    identical descriptors. *)
Theorem getJSONStructure_depth_only (a b : value) (depth : nat) :
  prune (4 - depth) a = prune (4 - depth) b ->
  getJSONStructure a depth = getJSONStructure b depth
  /\ (3 < depth -> getJSONStructure a depth = placeholder)
  /\ height (getJSONStructure a depth) <= 4 - depth
  /\ getJSONStructure a 4 = placeholder.
Proof.
  intros Hp. split; [|split; [|split]].
  - apply getJSONStructure_prune with (n := 4 - depth); [lia | exact Hp].
  - apply getJSONStructure_deep.
  - destruct (Nat.ltb_spec 3 depth) as [Hlt|Hle].
    + rewrite getJSONStructure_deep by lia. simpl. lia.
    + apply getJSONStructure_height. lia.
  - apply getJSONStructure_deep. lia.
Qed.

(** A 5-level and a 6-level nest of objects cut to the same four levels and
    are described identically. *)
Lemma getJSONStructure_depth_only_witness :
  prune 4 (nest 5 (JNumber 1%Q)) = prune 4 (nest 6 (JString "x")) /\
  getJSONStructure (nest 5 (JNumber 1%Q)) 0 = getJSONStructure (nest 6 (JString "x")) 0.
Proof.
  split; [reflexivity|].
  apply (getJSONStructure_depth_only (nest 5 (JNumber 1%Q)) (nest 6 (JString "x")) 0).
  reflexivity.
Defined.

Example getJSONStructure_nest5 :
  getJSONStructure (nest 5 (JNumber 1%Q)) 0 =
  ShObject [("a", ShObject [("a", ShObject [("a", ShObject [("a", placeholder)])])])].
Proof. reflexivity. Qed.

End JsonShape.

(** ** The categorizer *)

Module CategorizerFacts.
Import Scanner.

Section Generic.
Context `{PathModule}.

Lemma members_push c c' file cs :
  members c (push c' file cs) =
  members c cs ++ (if decide (c' = c) then [file] else []).
Proof.
  destruct c, c'; simpl; rewrite ?app_nil_r; reflexivity.
Qed.

Lemma members_fold c files : forall cs,
  members c (fold_left (fun categories file => push (category_of file) file categories)
               files cs) =
  members c cs ++ filter (fun f => category_of f = c) files.
Proof.
  induction files as [|f files IH]; intros cs; simpl.
  - rewrite app_nil_r. reflexivity.
  - rewrite IH, members_push, <- app_assoc. f_equal.
    rewrite filter_cons. destruct (decide (category_of f = c)); reflexivity.
Qed.

Lemma members_categorizeFiles c files :
  members c (categorizeFiles files) = filter (fun f => category_of f = c) files.
Proof.
  unfold categorizeFiles. rewrite members_fold. destruct c; reflexivity.
Qed.

Lemma filters_permutation (files : list string) :
  filter (fun f => category_of f = Code) files ++
  filter (fun f => category_of f = Config) files ++
  filter (fun f => category_of f = Docs) files ++
  filter (fun f => category_of f = Tests) files ++
  filter (fun f => category_of f = Assets) files ++
  filter (fun f => category_of f = Other) files ≡ₚ files.
Proof.
  induction files as [|f files IH]; [reflexivity|].
  rewrite !filter_cons.
  destruct (category_of f) eqn:E; simpl;
    repeat match goal with
           | |- context [decide (?a = ?b)] =>
               destruct (decide (a = b)); try discriminate; try congruence
           end;
    rewrite <- ?Permutation_middle; simpl; constructor; exact IH.
Qed.

Lemma elem_of_members c file files :
  file ∈ members c (categorizeFiles files) <-> file ∈ files /\ c = category_of file.
Proof.
  rewrite members_categorizeFiles, list_elem_of_filter.
  split; intros [? ?]; split; congruence.
Qed.

(** C10.  The six lists partition the input: each list is the input
    filtered, in input order, by the branch its paths take; a path of the
    output lies in one list only; and the lists together are a
    rearrangement of the input, every occurrence counted. *)
Theorem categorizeFiles_partition (files : list string) :
  (forall c, members c (categorizeFiles files)
             = filter (fun f => category_of f = c) files)
  /\ (forall c file, file ∈ members c (categorizeFiles files)
                     <-> file ∈ files /\ c = category_of file)
  /\ code (categorizeFiles files) ++ config (categorizeFiles files) ++
     docs (categorizeFiles files) ++ tests (categorizeFiles files) ++
     assets (categorizeFiles files) ++ other (categorizeFiles files) ≡ₚ files
  /\ (forall c, sublist (members c (categorizeFiles files)) files).
Proof.
  split; [|split; [|split]].
  - intros c. apply members_categorizeFiles.
  - intros c file. apply elem_of_members.
  - pose proof (members_categorizeFiles Code files) as H1.
    pose proof (members_categorizeFiles Config files) as H2.
    pose proof (members_categorizeFiles Docs files) as H3.
    pose proof (members_categorizeFiles Tests files) as H4.
    pose proof (members_categorizeFiles Assets files) as H5.
    pose proof (members_categorizeFiles Other files) as H6.
    simpl in *. rewrite H1, H2, H3, H4, H5, H6. apply filters_permutation.
  - intros c. rewrite members_categorizeFiles. apply sublist_filter.
Qed.

(** C4, amended.  Each path of the input lands in the list chosen by the
    first rule that applies, in the order: a test marker occurs in the
    path; the extension is a source-code extension; the basename contains
    a known configuration file name, or the extension is [.json], [.yaml]
    or [.yml]; the extension is a documentation extension; the extension is
    an asset extension; none of these.  A path with a test marker and the
    extension [.json] is therefore in [tests] and not in [config]. *)
Theorem categorizeFiles_precedence (files : list string) (file : string) :
  file ∈ files ->
  let marked := existsb (fun p => JsString.includes file p) testPatterns in
  let is_code := Array_includes codeExtensions (extname file) in
  let is_config :=
    existsb (fun c => JsString.includes (basename file) c) configFiles
    || Array_includes [".json"; ".yaml"; ".yml"] (extname file) in
  let is_doc := Array_includes docExtensions (extname file) in
  let is_asset := Array_includes assetExtensions (extname file) in
  let out := categorizeFiles files in
  (marked = true -> file ∈ tests out)
  /\ (marked = false -> is_code = true -> file ∈ code out)
  /\ (marked = false -> is_code = false -> is_config = true -> file ∈ config out)
  /\ (marked = false -> is_code = false -> is_config = false -> is_doc = true ->
      file ∈ docs out)
  /\ (marked = false -> is_code = false -> is_config = false -> is_doc = false ->
      is_asset = true -> file ∈ assets out)
  /\ (marked = false -> is_code = false -> is_config = false -> is_doc = false ->
      is_asset = false -> file ∈ other out)
  /\ (marked = true -> extname file = ".json" ->
      file ∈ tests out /\ file ∉ config out).
Proof.
  intros Hin marked is_code is_config is_doc is_asset out.
  assert (Hcfg : is_config =
            (existsb (fun c => JsString.includes (basename file) c) configFiles
             || String.eqb (extname file) ".json" || String.eqb (extname file) ".yaml"
             || String.eqb (extname file) ".yml")).
  { unfold is_config, Array_includes. simpl existsb at 2.
    rewrite orb_false_r, !orb_assoc. reflexivity. }
  assert (Hmem : forall c, c = category_of file -> file ∈ members c out).
  { intros c Hc. apply elem_of_members. split; assumption. }
  assert (Hcat : category_of file =
            if marked then Tests else if is_code then Code
            else if is_config then Config else if is_doc then Docs
            else if is_asset then Assets else Other).
  { rewrite Hcfg. reflexivity. }
  split; [|split; [|split; [|split; [|split; [|split]]]]].
  - intros Hm. apply (Hmem Tests). rewrite Hcat, Hm. reflexivity.
  - intros Hm Hc. apply (Hmem Code). rewrite Hcat, Hm, Hc. reflexivity.
  - intros Hm Hc Hf. apply (Hmem Config). rewrite Hcat, Hm, Hc, Hf. reflexivity.
  - intros Hm Hc Hf Hd. apply (Hmem Docs). rewrite Hcat, Hm, Hc, Hf, Hd. reflexivity.
  - intros Hm Hc Hf Hd Ha. apply (Hmem Assets).
    rewrite Hcat, Hm, Hc, Hf, Hd, Ha. reflexivity.
  - intros Hm Hc Hf Hd Ha. apply (Hmem Other).
    rewrite Hcat, Hm, Hc, Hf, Hd, Ha. reflexivity.
  - intros Hm _. split.
    + apply (Hmem Tests). rewrite Hcat, Hm. reflexivity.
    + intros Hc.
      apply (elem_of_members Config) in Hc.
      destruct Hc as [_ Hc]. rewrite Hcat, Hm in Hc. discriminate.
Qed.

End Generic.

Import NodePath.

(** With [path.posix]: a test fixture with the extension [.json] is a
    test. *)
Lemma categorizeFiles_precedence_witness :
  "fixtures/data.test.json" ∈ ["src/a.js"; "fixtures/data.test.json"] /\
  "fixtures/data.test.json"
    ∈ tests (categorizeFiles ["src/a.js"; "fixtures/data.test.json"]) /\
  "fixtures/data.test.json"
    ∉ config (categorizeFiles ["src/a.js"; "fixtures/data.test.json"]).
Proof.
  assert (Hin : "fixtures/data.test.json" ∈ ["src/a.js"; "fixtures/data.test.json"]).
  { right. left. }
  split; [exact Hin|].
  apply (categorizeFiles_precedence
           ["src/a.js"; "fixtures/data.test.json"] "fixtures/data.test.json" Hin);
    reflexivity.
Defined.

(** C4 as stated fails: [.eslintrc.cjs] is not a known configuration file
    name and [.cjs] is in none of the extension tables, so the stated
    precedence sends it to [other]; the code tests whether the basename
    contains [.eslintrc] and files it under [config]. *)
Lemma categorizeFiles_precedence_as_stated_fails :
  ~ (forall files file,
       file ∈ files ->
       file ∈ members (category_as_specified file) (categorizeFiles files)).
Proof.
  intros Hall.
  specialize (Hall [".eslintrc.cjs"] ".eslintrc.cjs" ltac:(left)).
  vm_compute in Hall. inversion Hall.
Qed.

Example eslintrc_cjs_is_config :
  categorizeFiles [".eslintrc.cjs"] = push Config ".eslintrc.cjs" no_categories
  /\ category_as_specified ".eslintrc.cjs" = Other.
Proof. split; reflexivity. Qed.

End CategorizerFacts.

(** ** File statistics *)

Module StatsFacts.
Import Scanner.

Lemma count_sum_insert k n (counts : gmap string nat) :
  counts !! k = None -> count_sum (<[k := n]> counts) = n + count_sum counts.
Proof.
  intros Hk. unfold count_sum.
  apply (map_fold_insert_L (fun _ n acc => n + acc)); [|exact Hk].
  intros. lia.
Qed.

Lemma count_sum_count_up k counts : count_sum (count_up k counts) = S (count_sum counts).
Proof.
  unfold count_up. destruct (counts !! k) as [n|] eqn:Hk; simpl.
  - rewrite <- (insert_delete_id counts k n Hk) at 2.
    rewrite <- (insert_delete_eq counts).
    rewrite !count_sum_insert by apply lookup_delete_eq. lia.
  - rewrite count_sum_insert by exact Hk. reflexivity.
Qed.

Section Generic.
Context `{PathModule}.

Lemma byDirectory_fold fs files : forall stats,
  byDirectory (fold_left (stats_step fs) files stats) =
  fold_left (fun counts file => count_up (directory_key file) counts) files
    (byDirectory stats).
Proof.
  induction files as [|f files IH]; intros stats; simpl; [reflexivity|].
  rewrite IH. reflexivity.
Qed.

(** Every file adds one to exactly one bucket. *)
Lemma byDirectory_counts_every_file fs files :
  count_sum (byDirectory (getFileStats fs files)) = length files.
Proof.
  unfold getFileStats. rewrite byDirectory_fold. simpl.
  assert (Hgen : forall counts,
    count_sum (fold_left (fun counts file => count_up (directory_key file) counts)
                 files counts) = length files + count_sum counts).
  { induction files as [|f files IH]; intros counts; simpl; [reflexivity|].
    rewrite IH, count_sum_count_up. lia. }
  rewrite Hgen. unfold count_sum. rewrite map_fold_empty. lia.
Qed.

Lemma fold_rooted files :
  Forall (fun f => hd "" (JsString.split sep (dirname f)) = "") files ->
  forall n,
    fold_left (fun counts file => count_up (directory_key file) counts) files
      ({[ "." := S n ]} : gmap string nat) = {[ "." := length files + S n ]}.
Proof.
  induction 1 as [|f files Hf _ IH]; intros n; simpl; [reflexivity|].
  unfold directory_key at 2. rewrite Hf. simpl.
  unfold count_up at 2. rewrite lookup_singleton_eq. simpl.
  rewrite insert_singleton_eq.
  replace (S (n + 1)) with (S (S n)) by lia.
  rewrite (IH (S n)). f_equal. lia.
Qed.

(** A path whose directory name starts with the separator has an empty
    first segment, so it is counted under the root marker; a list of such
    paths fills that single bucket. *)
Lemma byDirectory_rooted fs files :
  Forall (fun f => hd "" (JsString.split sep (dirname f)) = "") files ->
  files <> [] ->
  byDirectory (getFileStats fs files) = {[ "." := length files ]}.
Proof.
  intros Hall Hne. unfold getFileStats. rewrite byDirectory_fold. simpl.
  destruct Hall as [|f files Hf Hall]; [congruence|]. simpl.
  unfold directory_key at 2. rewrite Hf. simpl.
  unfold count_up at 2. rewrite lookup_empty. simpl.
  rewrite insert_empty.
  rewrite (fold_rooted files Hall 0). f_equal. lia.
Qed.

End Generic.

Import NodePath.

(** C8, the code at the paths [scanDirectory] hands over (absolute ones):
    the three files lie in [src], in [lib] and at the root of [/proj], yet
    all three are counted under the root marker. *)
Theorem getFileStats_absolute_paths (fs : FileSystem) :
  byDirectory (getFileStats fs ["/proj/src/a.js"; "/proj/lib/b.js"; "/proj/index.js"])
  = {[ "." := 3 ]}
  /\ byDirectory (getFileStats fs ["/proj/src/a.js"; "/proj/lib/b.js"; "/proj/index.js"])
     <> <["src" := 1]> (<["lib" := 1]> {[ "." := 1 ]}).
Proof.
  assert (E : byDirectory
                (getFileStats fs ["/proj/src/a.js"; "/proj/lib/b.js"; "/proj/index.js"])
              = {[ "." := 3 ]}) by (vm_compute; reflexivity).
  split; [exact E|].
  rewrite E. intros Heq.
  assert (Hl : ({[ "." := 3 ]} : gmap string nat) !! "src" = Some 1).
  { rewrite Heq. apply lookup_insert_eq. }
  vm_compute in Hl. discriminate.
Qed.

End StatsFacts.

(** ** Matching a text built from known pieces *)

Module RegexFacts.
Import Regex.

Lemma length_append (a b : string) :
  String.length (a +:+ b) = String.length a + String.length b.
Proof. induction a as [|c a IH]; simpl; [reflexivity | rewrite IH; reflexivity]. Qed.

Lemma substring_prefix (a b : string) :
  String.substring 0 (String.length a) (a +:+ b) = a.
Proof.
  induction a as [|c a IH]; simpl.
  - destruct b; reflexivity.
  - rewrite IH. reflexivity.
Qed.

Lemma consumed_append (a b : string) : consumed (a +:+ b) b = a.
Proof.
  unfold consumed. rewrite length_append.
  replace (String.length a + String.length b - String.length b)
    with (String.length a) by lia.
  apply substring_prefix.
Qed.

Lemma append_cons c (a b : string) : String c a +:+ b = String c (a +:+ b).
Proof. reflexivity. Qed.

Lemma append_empty_r (s : string) : s +:+ "" = s.
Proof. induction s as [|c s IH]; [reflexivity|]. rewrite append_cons, IH. reflexivity. Qed.

Lemma append_assoc (a b c : string) : (a +:+ b) +:+ c = a +:+ (b +:+ c).
Proof.
  induction a as [|x a IH]; [reflexivity|].
  rewrite !append_cons, IH. reflexivity.
Qed.

(** A greedy run over [cs] that cannot go on into [rest] and whose
    continuation succeeds there takes exactly [cs]. *)
Lemma star_loop_exact p k cs rest caps res :
  all_chars p cs = true -> stops p rest = true ->
  k rest caps = Some res ->
  star_loop p k (cs +:+ rest) caps = Some res.
Proof.
  intros Hall Hstop Hk. induction cs as [|c cs IH]; simpl in *.
  - destruct rest as [|c rest]; simpl in *; [exact Hk|].
    apply negb_true_iff in Hstop. rewrite Hstop. exact Hk.
  - apply andb_true_iff in Hall as [Hc Hall]. rewrite Hc, (IH Hall). reflexivity.
Qed.

Lemma run_star_exact p cs rest caps k res :
  all_chars p cs = true -> stops p rest = true ->
  k rest caps = Some res ->
  run (Star p) (cs +:+ rest) caps k = Some res.
Proof. apply star_loop_exact. Qed.

Lemma run_group_star_exact i p cs rest caps k res :
  all_chars p cs = true -> stops p rest = true ->
  k rest ((i, cs) :: caps) = Some res ->
  run (Group i (Star p)) (cs +:+ rest) caps k = Some res.
Proof.
  intros Hall Hstop Hk. simpl.
  apply star_loop_exact; [assumption..|].
  rewrite consumed_append. exact Hk.
Qed.

Lemma run_group_plus_exact i p cs rest caps k res :
  cs <> "" -> all_chars p cs = true -> stops p rest = true ->
  k rest ((i, cs) :: caps) = Some res ->
  run (Group i (Plus p)) (cs +:+ rest) caps k = Some res.
Proof.
  intros Hne Hall Hstop Hk. destruct cs as [|c cs]; [congruence|].
  simpl in Hall. apply andb_true_iff in Hall as [Hc Hall].
  simpl. rewrite Hc.
  apply star_loop_exact; [assumption..|].
  change (String c (cs +:+ rest)) with (String c cs +:+ rest).
  rewrite consumed_append. exact Hk.
Qed.

(** A run that cannot start leaves the input to the continuation. *)
Lemma run_star_skip p rest caps k :
  stops p rest = true -> run (Star p) rest caps k = k rest caps.
Proof.
  intros Hstop. destruct rest as [|c rest]; simpl in *; [reflexivity|].
  apply negb_true_iff in Hstop. rewrite Hstop. reflexivity.
Qed.

Lemma stops_append p q a b :
  a <> "" -> all_chars q a = true -> (forall c, q c = true -> p c = false) ->
  stops p (a +:+ b) = true.
Proof.
  intros Hne Hall Hpq. destruct a as [|c a]; [congruence|]. simpl in *.
  apply andb_true_iff in Hall as [Hc _]. rewrite (Hpq c Hc). reflexivity.
Qed.

Lemma word_not_space c : word c = true -> space c = false.
Proof.
  destruct c as [[] [] [] [] [] [] [] []]; vm_compute; congruence.
Qed.

Lemma space_not_word c : space c = true -> word c = false.
Proof.
  destruct c as [[] [] [] [] [] [] [] []]; vm_compute; congruence.
Qed.

Lemma run_seq r1 r2 s caps k :
  run (Seq r1 r2) s caps k = run r1 s caps (fun s' caps' => run r2 s' caps' k).
Proof. reflexivity. Qed.

Lemma run_chr c s caps k : run (Chr c) (String c "" +:+ s) caps k = k s caps.
Proof. simpl. rewrite Ascii.eqb_refl. reflexivity. Qed.

Lemma run_lit w next s caps k :
  run (Lit w next) (w +:+ s) caps k = run next s caps k.
Proof.
  induction w as [|c w IH]; [reflexivity|].
  rewrite append_cons. simpl. rewrite Ascii.eqb_refl. exact IH.
Qed.

Lemma run_plus_exact p cs rest caps k res :
  cs <> "" -> all_chars p cs = true -> stops p rest = true ->
  k rest caps = Some res ->
  run (Plus p) (cs +:+ rest) caps k = Some res.
Proof.
  intros Hne Hall Hstop Hk. destruct cs as [|c cs]; [congruence|].
  simpl in Hall. apply andb_true_iff in Hall as [Hc Hall].
  simpl. rewrite Hc. apply star_loop_exact; assumption.
Qed.

Lemma run_opt_taken r s caps k res :
  run r s caps k = Some res -> run (Opt r) s caps k = Some res.
Proof. intros Hr. simpl. rewrite Hr. reflexivity. Qed.

End RegexFacts.

(** ** More on the regular-expression engine *)

Module RegexMore.
Import Regex RegexFacts.

(** What a successful greedy run took. *)
Lemma star_loop_inv p k s caps res :
  star_loop p k s caps = Some res ->
  exists cs rest, s = cs +:+ rest /\ all_chars p cs = true /\ k rest caps = Some res.
Proof.
  induction s as [|c s IH]; simpl.
  - intros Hk. exists "", "". auto.
  - destruct (p c) eqn:Hc.
    + destruct (star_loop p k s caps) as [result|] eqn:Hs.
      * intros Heq. injection Heq as ->.
        destruct (IH eq_refl) as (cs & rest & -> & Hall & Hk).
        exists (String c cs), rest. simpl. rewrite Hc, Hall. auto.
      * intros Hk. exists "", (String c s). auto.
    + intros Hk. exists "", (String c s). auto.
Qed.

(** A greedy run succeeds as soon as one of its splits does. *)
Lemma star_loop_some p k cs rest caps :
  all_chars p cs = true -> k rest caps <> None ->
  star_loop p k (cs +:+ rest) caps <> None.
Proof.
  intros Hall Hk. induction cs as [|c cs IH]; simpl in *.
  - destruct rest as [|c rest]; simpl; [exact Hk|].
    destruct (p c); [|exact Hk].
    destruct (star_loop p k rest caps); [discriminate | exact Hk].
  - apply andb_true_iff in Hall as [Hc Hall]. rewrite Hc.
    specialize (IH Hall). destruct (star_loop p k (cs +:+ rest) caps);
      [discriminate | contradiction].
Qed.

Lemma all_chars_append p a b :
  all_chars p (a +:+ b) = all_chars p a && all_chars p b.
Proof.
  induction a as [|c a IH]; [reflexivity|].
  rewrite append_cons. simpl. rewrite IH, andb_assoc. reflexivity.
Qed.

Lemma all_chars_impl (p q : ascii -> bool) s :
  (forall c, p c = true -> q c = true) -> all_chars p s = true -> all_chars q s = true.
Proof.
  intros Hpq. induction s as [|c s IH]; simpl; [reflexivity|].
  intros Hall. apply andb_true_iff in Hall as [Hc Hall].
  rewrite (Hpq c Hc), (IH Hall). reflexivity.
Qed.

Lemma consumed_all s : consumed s "" = s.
Proof.
  rewrite <- (append_empty_r s) at 1. apply consumed_append.
Qed.

Lemma append_empty_l (b : string) : "" +:+ b = b.
Proof. reflexivity. Qed.

(** Where a run that cannot go on ends is determined by the text. *)
Lemma run_end_unique p a : forall a' b b',
  a +:+ b = a' +:+ b' ->
  all_chars p a = true -> all_chars p a' = true ->
  stops p b = true -> stops p b' = true ->
  a = a' /\ b = b'.
Proof.
  induction a as [|c a IH]; intros [|c' a'] b b';
    rewrite ?append_cons, ?append_empty_l; simpl.
  - auto.
  - intros -> _ Hc' Hb _. simpl in Hb. apply andb_true_iff in Hc' as [Hc' _].
    rewrite Hc' in Hb. discriminate.
  - intros <- Hc _ _ Hb'. simpl in Hb'. apply andb_true_iff in Hc as [Hc _].
    rewrite Hc in Hb'. discriminate.
  - intros Heq Hc Hc' Hb Hb'. injection Heq as -> Heq.
    apply andb_true_iff in Hc as [_ Hc]. apply andb_true_iff in Hc' as [_ Hc'].
    destruct (IH _ _ _ Heq Hc Hc' Hb Hb') as [-> ->]. auto.
Qed.

End RegexMore.

(** ** The Python extractor *)

Module PythonFacts.
Import Regex RegexFacts RegexMore Parser Derived.

(** What the expressions do on a definition line. *)
Lemma importRegex_first c s :
  Ascii.eqb c "f" = false -> Ascii.eqb c "i" = false ->
  exec importRegex (String c s) = None.
Proof.
  intros Hf Hi. unfold exec, importRegex. simpl. rewrite Hf, Hi. reflexivity.
Qed.

Lemma space_not_f_i c :
  space c = true -> Ascii.eqb c "f" = false /\ Ascii.eqb c "i" = false.
Proof.
  destruct c as [[] [] [] [] [] [] [] []]; vm_compute; intros; split; congruence.
Qed.

Lemma importRegex_def indent tail :
  all_chars space indent = true ->
  exec importRegex (indent +:+ "def" +:+ tail) = None.
Proof.
  intros Hall. destruct indent as [|c indent]; [reflexivity|].
  simpl in Hall. apply andb_true_iff in Hall as [Hc _].
  destruct (space_not_f_i c Hc) as [Hf Hi].
  rewrite append_cons. apply importRegex_first; assumption.
Qed.

Lemma funcRegex_def indent name params rest :
  all_chars space indent = true ->
  name <> "" -> all_chars word name = true ->
  all_chars notparen params = true ->
  exec funcRegex (indent +:+ "def" +:+ " " +:+ name +:+ "(" +:+ params +:+ ")" +:+ rest)
  = Some [(3, params); (2, name); (1, indent)].
Proof.
  intros Hindent Hne Hname Hparams. unfold exec, funcRegex.
  rewrite run_seq. apply run_group_star_exact; [assumption | reflexivity |].
  cbv beta. rewrite run_lit, run_seq.
  apply (run_plus_exact space " "); [discriminate | reflexivity | |].
  { apply (stops_append space word); [assumption..|]. apply word_not_space. }
  rewrite run_seq. apply run_group_plus_exact; [assumption.. | reflexivity |].
  rewrite run_seq, run_star_skip by reflexivity.
  rewrite run_seq, run_chr, run_seq.
  apply run_group_star_exact; [assumption | reflexivity |].
  rewrite run_chr. reflexivity.
Qed.

Lemma classRegex_bases name bases rest :
  name <> "" -> all_chars word name = true ->
  all_chars notparen bases = true ->
  exec classRegex ("class" +:+ " " +:+ name +:+ "(" +:+ bases +:+ ")" +:+ ":" +:+ rest)
  = Some [(2, bases); (1, name)].
Proof.
  intros Hne Hname Hbases. unfold exec, classRegex.
  rewrite run_lit, run_seq.
  apply (run_plus_exact space " "); [discriminate | reflexivity | |].
  { apply (stops_append space word); [assumption..|]. apply word_not_space. }
  rewrite run_seq. apply run_group_plus_exact; [assumption.. | reflexivity |].
  rewrite run_seq. apply run_opt_taken.
  rewrite run_seq, run_chr, run_seq.
  apply run_group_star_exact; [assumption | reflexivity |].
  rewrite run_chr, run_chr. reflexivity.
Qed.

(** The loop only appends. *)
Lemma python_line_functions r n l f :
  f ∈ functions r -> f ∈ functions (python_line r n l).
Proof.
  intros Hf. unfold python_line.
  repeat match goal with
         | |- context [match ?o with Some _ => _ | None => _ end] => destruct o
         end; simpl; try assumption.
  apply elem_of_app. left. assumption.
Qed.

Lemma python_line_classes r n l c :
  c ∈ classes r -> c ∈ classes (python_line r n l).
Proof.
  intros Hc. unfold python_line.
  repeat match goal with
         | |- context [match ?o with Some _ => _ | None => _ end] => destruct o
         end; simpl; try assumption.
  apply elem_of_app. left. assumption.
Qed.

Lemma python_lines_functions ls : forall i r f,
  f ∈ functions r -> f ∈ functions (python_lines ls i r).
Proof.
  induction ls as [|l ls IH]; intros i r f Hf; simpl; [assumption|].
  apply IH, python_line_functions, Hf.
Qed.

Lemma python_lines_classes ls : forall i r c,
  c ∈ classes r -> c ∈ classes (python_lines ls i r).
Proof.
  induction ls as [|l ls IH]; intros i r c Hc; simpl; [assumption|].
  apply IH, python_line_classes, Hc.
Qed.

(** What the iteration for the line at index [j] appends stays in the
    result. *)
Lemma python_lines_function_at ls : forall i r j line f,
  ls !! j = Some line ->
  (forall r', f ∈ functions (python_line r' (i + j + 1) line)) ->
  f ∈ functions (python_lines ls i r).
Proof.
  induction ls as [|l ls IH]; intros i r j line f Hj Hf; [discriminate|].
  destruct j as [|j]; simpl in *.
  - injection Hj as ->. apply python_lines_functions.
    replace (i + 1) with (i + 0 + 1) by lia. apply Hf.
  - apply (IH (i + 1) _ j line f Hj). intros r'.
    replace (i + 1 + j + 1) with (i + S j + 1) by lia. apply Hf.
Qed.

Lemma python_lines_class_at ls : forall i r j line c,
  ls !! j = Some line ->
  (forall r', c ∈ classes (python_line r' (i + j + 1) line)) ->
  c ∈ classes (python_lines ls i r).
Proof.
  induction ls as [|l ls IH]; intros i r j line c Hj Hc; [discriminate|].
  destruct j as [|j]; simpl in *.
  - injection Hj as ->. apply python_lines_classes.
    replace (i + 1) with (i + 0 + 1) by lia. apply Hc.
  - apply (IH (i + 1) _ j line c Hj). intros r'.
    replace (i + 1 + j + 1) with (i + S j + 1) by lia. apply Hc.
Qed.

(** C6.  A line made of a run of white space, [def], a space, a name, and
    a parenthesized parameter text yields a function record with that
    name, with the parameter text split at commas, each piece trimmed and
    the empty pieces dropped, with the number of the line, and with
    [isMethod] telling whether the run of white space is non-empty. *)
Theorem parsePython_def_line (content : string) (result : FileRecord) (i : nat)
    (indent name params rest : string) :
  all_chars space indent = true ->
  name <> "" -> all_chars word name = true ->
  all_chars notparen params = true ->
  JsString.split "010" content !! i
    = Some (indent +:+ "def " +:+ name +:+ "(" +:+ params +:+ ")" +:+ rest) ->
  {| fn_name := name;
     fn_params :=
       List.filter JsString.truthy (map JsString.trim (JsString.split "," params));
     fn_async := None; fn_generator := None; fn_arrow := None;
     fn_line := i + 1;
     fn_exported := None;
     fn_isMethod := Some (0 <? String.length indent) |}
  ∈ functions (parsePython content result).
Proof.
  intros Hindent Hne Hname Hparams Hline. unfold parsePython.
  apply (python_lines_function_at _ 0 result i _ _ Hline). intros r'.
  unfold python_line.
  change (indent +:+ "def " +:+ name +:+ "(" +:+ params +:+ ")" +:+ rest)
    with (indent +:+ "def" +:+ " " +:+ name +:+ "(" +:+ params +:+ ")" +:+ rest).
  rewrite (importRegex_def indent _ Hindent).
  rewrite (funcRegex_def indent name params rest Hindent Hne Hname Hparams).
  simpl. apply elem_of_app. right. left.
Qed.

(** The claim's line at column 0 and indented under a class. *)
Lemma parsePython_def_line_witness :
  {| fn_name := "f"; fn_params := ["a"; "b"];
     fn_async := None; fn_generator := None; fn_arrow := None;
     fn_line := 3; fn_exported := None; fn_isMethod := Some false |}
  ∈ functions (parsePython Samples.python_defs Samples.python_defs_result)
  /\
  {| fn_name := "f"; fn_params := ["a"; "b"];
     fn_async := None; fn_generator := None; fn_arrow := None;
     fn_line := 2; fn_exported := None; fn_isMethod := Some true |}
  ∈ functions (parsePython Samples.python_defs Samples.python_defs_result).
Proof.
  split.
  - apply (parsePython_def_line Samples.python_defs Samples.python_defs_result
             2 "" "f" "a, b" ":");
      [reflexivity | discriminate | reflexivity | reflexivity | reflexivity].
  - apply (parsePython_def_line Samples.python_defs Samples.python_defs_result
             1 "    " "f" "a, b" ":");
      [reflexivity | discriminate | reflexivity | reflexivity | reflexivity].
Defined.

Lemma split_no_separator sep s :
  all_chars (fun c => negb (Ascii.eqb c sep)) s = true -> JsString.split sep s = [s].
Proof.
  induction s as [|c s IH]; simpl; [reflexivity|].
  intros Hall. apply andb_true_iff in Hall as [Hc Hall].
  apply negb_true_iff in Hc. rewrite Hc, (IH Hall). reflexivity.
Qed.

(** *** Class lines *)

Lemma run_lit_inv w next : forall s caps k res,
  run (Lit w next) s caps k = Some res ->
  exists s', s = w +:+ s' /\ run next s' caps k = Some res.
Proof.
  induction w as [|c w IH]; intros s caps k res Hrun; [exists s; auto|].
  simpl in Hrun. destruct s as [|c' s]; [discriminate|].
  destruct (Ascii.eqb_spec c' c) as [->|]; [|discriminate].
  destruct (IH _ _ _ _ Hrun) as (s' & -> & Hnext). exists s'. auto.
Qed.

Lemma run_chr_inv c s caps k res :
  run (Chr c) s caps k = Some res -> exists s', s = String c s' /\ k s' caps = Some res.
Proof.
  simpl. destruct s as [|c' s]; [discriminate|].
  destruct (Ascii.eqb_spec c' c) as [->|]; [|discriminate]. eauto.
Qed.

Lemma run_plus_inv p s caps k res :
  run (Plus p) s caps k = Some res ->
  exists cs rest, s = cs +:+ rest /\ cs <> "" /\ all_chars p cs = true
                  /\ k rest caps = Some res.
Proof.
  unfold Plus. cbn [run]. destruct s as [|c s]; [discriminate|].
  destruct (p c) eqn:Hc; [|discriminate]. intros Hrun.
  apply star_loop_inv in Hrun as (cs & rest & -> & Hall & Hk).
  exists (String c cs), rest. simpl. rewrite Hc, Hall. repeat split; [discriminate | exact Hk].
Qed.

Lemma run_group_plus_inv i p s caps k res :
  run (Group i (Plus p)) s caps k = Some res ->
  exists cs rest, s = cs +:+ rest /\ cs <> "" /\ all_chars p cs = true
                  /\ k rest ((i, cs) :: caps) = Some res.
Proof.
  intros Hrun. cbn [run] in Hrun.
  change (run (Plus p) s caps (fun s' caps' => k s' ((i, consumed s s') :: caps'))
          = Some res) in Hrun.
  apply run_plus_inv in Hrun as (cs & rest & -> & Hne & Hall & Hk).
  rewrite consumed_append in Hk. eauto 10.
Qed.

Lemma truthy_not_empty s : JsString.truthy s = true <-> s <> "".
Proof.
  unfold JsString.truthy. destruct (String.eqb_spec s ""); simpl; split;
    congruence.
Qed.

(** What a match of the class expression says about the line. *)
Lemma classRegex_inv line m :
  exec classRegex line = Some m ->
  exists ws name parent rest,
    line = class_line ws name parent rest
    /\ class_line_parts ws name parent = true
    /\ capture 1 m = Some name /\ capture 2 m = parent.
Proof.
  unfold exec, classRegex. intros Hrun.
  apply run_lit_inv in Hrun as (s1 & -> & Hrun).
  rewrite run_seq in Hrun.
  apply run_plus_inv in Hrun as (ws & s2 & -> & Hws & Hspace & Hrun).
  rewrite run_seq in Hrun.
  apply run_group_plus_inv in Hrun as (name & s3 & -> & Hname & Hword & Hrun).
  cbn [run] in Hrun.
  assert (Hparts : forall parent,
            match parent with
            | Some bases => all_chars notparen bases = true
            | None => True
            end -> class_line_parts ws name parent = true).
  { intros parent Hp. unfold class_line_parts.
    rewrite (proj2 (truthy_not_empty ws) Hws), Hspace,
      (proj2 (truthy_not_empty name) Hname), Hword.
    destruct parent; [rewrite Hp|]; reflexivity. }
  destruct s3 as [|c s3]; [discriminate|].
  destruct (Ascii.eqb_spec c "(") as [->|Hc].
  - match type of Hrun with
    | match ?loop with _ => _ end = _ => destruct loop as [result|] eqn:Hloop
    end; [|discriminate].
    injection Hrun as ->.
    apply star_loop_inv in Hloop as (bases & s4 & -> & Hbases & Hk).
    destruct s4 as [|c4 s4]; [discriminate|].
    destruct (Ascii.eqb_spec c4 ")") as [->|]; [|discriminate].
    destruct s4 as [|c5 rest]; [discriminate|].
    destruct (Ascii.eqb_spec c5 ":") as [->|]; [|discriminate].
    injection Hk as <-. rewrite consumed_append.
    exists ws, name, (Some bases), rest.
    split; [|split; [apply Hparts, Hbases | split; reflexivity]].
    unfold class_line, base_list.
    rewrite !append_cons, !append_assoc. reflexivity.
  - destruct (Ascii.eqb_spec c ":") as [->|]; [|discriminate].
    injection Hrun as <-.
    exists ws, name, None, s3.
    split; [reflexivity | split; [apply Hparts; exact I | split; reflexivity]].
Qed.

(** The class expression matches every line of that shape, and no earlier
    expression of the loop does. *)
Lemma classRegex_line ws name parent rest :
  class_line_parts ws name parent = true ->
  exec importRegex (class_line ws name parent rest) = None
  /\ exec funcRegex (class_line ws name parent rest) = None
  /\ exists m, exec classRegex (class_line ws name parent rest) = Some m
               /\ capture 1 m = Some name /\ capture 2 m = parent.
Proof.
  unfold class_line_parts. intros Hparts.
  apply andb_true_iff in Hparts as [Hparts Hparent].
  apply andb_true_iff in Hparts as [Hparts Hword].
  apply andb_true_iff in Hparts as [Hparts Hname].
  apply andb_true_iff in Hparts as [Hws Hspace].
  apply truthy_not_empty in Hws. apply truthy_not_empty in Hname.
  split; [reflexivity|]. split; [reflexivity|].
  assert (Hstop : stops word (base_list parent +:+ ":" +:+ rest) = true).
  { destruct parent; reflexivity. }
  unfold exec, classRegex, class_line.
  destruct parent as [bases|].
  - exists [(2, bases); (1, name)]. split; [|split; reflexivity].
    rewrite run_lit, run_seq.
    apply (run_plus_exact space ws); [assumption.. | |].
    { apply (stops_append space word); [assumption..|]. apply word_not_space. }
    rewrite run_seq. apply run_group_plus_exact; [assumption..|].
    rewrite run_seq. apply run_opt_taken.
    unfold base_list. rewrite !append_assoc.
    rewrite run_seq, run_chr, run_seq.
    apply run_group_star_exact; [assumption | reflexivity |].
    rewrite run_chr, run_chr. reflexivity.
  - exists [(1, name)]. split; [|split; reflexivity].
    rewrite run_lit, run_seq.
    apply (run_plus_exact space ws); [assumption.. | |].
    { apply (stops_append space word); [assumption..|]. apply word_not_space. }
    rewrite run_seq. apply run_group_plus_exact; [assumption..|].
    reflexivity.
Qed.

(** Where the class records of the loop come from. *)
Lemma python_line_class_origin r n l c :
  c ∈ classes (python_line r n l) ->
  c ∈ classes r
  \/ exists m, exec classRegex l = Some m
               /\ c = {| cls_name := capture 1 m; cls_superClass := capture 2 m;
                         cls_methods := None; cls_line := n; cls_exported := None |}.
Proof.
  unfold python_line.
  destruct (exec importRegex l); [simpl; auto|].
  destruct (exec funcRegex l); [simpl; auto|].
  destruct (exec classRegex l) as [m|].
  - simpl. intros Hc. apply elem_of_app in Hc as [Hc|Hc]; [auto|].
    apply list_elem_of_singleton in Hc. right. exists m. auto.
  - destruct (exec varRegex l); simpl; auto.
Qed.

Lemma python_lines_class_origin ls : forall i r c,
  c ∈ classes (python_lines ls i r) ->
  c ∈ classes r
  \/ exists j line m,
       ls !! j = Some line /\ exec classRegex line = Some m
       /\ c = {| cls_name := capture 1 m; cls_superClass := capture 2 m;
                 cls_methods := None; cls_line := i + j + 1; cls_exported := None |}.
Proof.
  induction ls as [|l ls IH]; intros i r c Hc; simpl in Hc; [auto|].
  destruct (IH _ _ _ Hc) as [Hhere|(j & line & m & Hj & Hm & ->)].
  - destruct (python_line_class_origin _ _ _ _ Hhere) as [Hr|(m & Hm & ->)]; [auto|].
    right. exists 0, l, m. repeat split; [exact Hm|].
    replace (i + 0 + 1) with (i + 1) by lia. reflexivity.
  - right. exists (S j), line, m. repeat split; [exact Hj | exact Hm|].
    replace (i + S j + 1) with (i + 1 + j + 1) by lia. reflexivity.
Qed.

(** C7, amended.  The lines that give a class record are exactly those
    made, from column 0, of [class], white space, a name of word
    characters, optionally a parenthesized text that holds no closing
    parenthesis, and a colon right after it; anything may follow the colon.
    The parent field of the record of such a line is the whole text between
    the parentheses, unsplit and untrimmed, and is absent when the line has
    no parentheses.  That text is the first base when it holds no comma and
    carries no white space at either end.  A class line written otherwise,
    with white space before the parenthesis or the colon or with a closing
    parenthesis inside the base list, gives no class record. *)
Theorem parsePython_class_parent (content : string) (result : FileRecord) (i : nat)
    (ws name : string) (parent : option string) (rest : string) :
  class_line_parts ws name parent = true ->
  JsString.split "010" content !! i = Some (class_line ws name parent rest) ->
  {| cls_name := Some name;
     cls_superClass := parent;
     cls_methods := None;
     cls_line := i + 1;
     cls_exported := None |}
  ∈ classes (parsePython content result)
  /\ (forall bases,
        parent = Some bases ->
        all_chars (fun c => negb (Ascii.eqb c ",")) bases = true ->
        JsString.trim bases = bases -> first_base bases = bases)
  /\ (forall c,
        c ∈ classes (parsePython content result) ->
        c ∈ classes result
        \/ exists j ws' name' parent' rest',
             JsString.split "010" content !! j
               = Some (class_line ws' name' parent' rest')
             /\ class_line_parts ws' name' parent' = true
             /\ c = {| cls_name := Some name'; cls_superClass := parent';
                       cls_methods := None; cls_line := j + 1;
                       cls_exported := None |}).
Proof.
  intros Hparts Hline. split; [|split].
  - unfold parsePython.
    apply (python_lines_class_at _ 0 result i _ _ Hline). intros r'.
    unfold python_line.
    destruct (classRegex_line ws name parent rest Hparts)
      as (-> & -> & m & -> & Hname & Hparent).
    rewrite Hname, Hparent. simpl. apply elem_of_app. right. left.
  - intros bases _ Hcomma Htrim. unfold first_base.
    rewrite (split_no_separator _ _ Hcomma). simpl. exact Htrim.
  - intros c Hc. unfold parsePython in Hc.
    destruct (python_lines_class_origin _ _ _ _ Hc)
      as [Hr|(j & line & m & Hj & Hm & ->)]; [auto|].
    destruct (classRegex_inv line m Hm)
      as (ws' & name' & parent' & rest' & -> & Hparts' & Hname' & Hparent').
    right. exists j, ws', name', parent', rest'.
    rewrite Hname', Hparent'. auto.
Qed.

(** [class A(B, C):] gives the parent [B, C]; the same line with a space
    before the parenthesis gives no record. *)
Lemma parsePython_class_parent_witness :
  {| cls_name := Some "A"; cls_superClass := Some "B, C"; cls_methods := None;
     cls_line := 1; cls_exported := None |}
  ∈ classes (parsePython Samples.python_two_bases Samples.python_two_bases_result).
Proof.
  apply (parsePython_class_parent Samples.python_two_bases
           Samples.python_two_bases_result 0 " " "A" (Some "B, C") "");
    reflexivity.
Defined.

Example class_line_with_space_before_parenthesis :
  classes (parsePython "class A (B):" (new_result (H := NodePath.posix) "m.py" "class A (B):"))
  = []
  /\ classes (parsePython "class A(metaclass=M(x)):"
                (new_result (H := NodePath.posix) "m.py" "class A(metaclass=M(x)):"))
     = []
  /\ map cls_superClass
       (classes (parsePython "class  A(B):  pass"
                   (new_result (H := NodePath.posix) "m.py" "class  A(B):  pass")))
     = [Some "B"].
Proof. repeat split; reflexivity. Qed.

(** C7 as stated fails: for [class A(B, C):] the first base is [B], and
    the only class record has the parent [B, C]. *)
Lemma parsePython_parent_is_not_first_base :
  ~ (forall content i name bases rest,
       name <> "" -> all_chars word name = true ->
       all_chars notparen bases = true ->
       JsString.split "010" content !! i
         = Some ("class " +:+ name +:+ "(" +:+ bases +:+ "):" +:+ rest) ->
       exists c,
         c ∈ classes (parsePython content
                        (new_result (H := NodePath.posix) "m.py" content))
         /\ cls_line c = i + 1
         /\ cls_superClass c = Some (first_base bases)).
Proof.
  intros Hclaim.
  destruct (Hclaim Samples.python_two_bases 0 "A" "B, C" "")
    as (c & Hc & _ & Hparent);
    [discriminate | reflexivity | reflexivity | reflexivity |].
  vm_compute in Hc, Hparent.
  apply list_elem_of_singleton in Hc. subst c. discriminate.
Qed.

End PythonFacts.

(** ** The ECMAScript extractor *)

Module WalkFacts.
Import ESTree Parser.

(** *** The callbacks only append *)

(** Two spellings of one record: open it, unfold the pushes, and compare
    the lists up to [app_nil_r] and associativity. *)
Ltac same_record r :=
  destruct r;
  unfold add_facts, push_export, push_import, push_function, push_class,
    push_variable;
  simpl; rewrite ?app_nil_r, <- ?app_assoc; reflexivity.

Lemma add_no_facts r : add_facts no_facts r = r.
Proof. same_record r. Qed.

Lemma fold_push_export {A} (g : A -> ExportRecord) l : forall r,
  fold_left (fun r x => push_export (g x) r) l r
  = add_facts {| f_exports := map g l; f_imports := []; f_functions := [];
                 f_classes := []; f_variables := [] |} r.
Proof.
  induction l as [|x l IH]; intros r; simpl.
  - same_record r.
  - rewrite IH. same_record r.
Qed.

Lemma declarator_facts line kind decl r :
  declarator line kind r decl
  = add_facts {| f_exports := []; f_imports := [];
                 f_functions := declared_function line decl;
                 f_classes := [];
                 f_variables := declared_variable line kind decl |} r.
Proof.
  destruct decl as [id init]. unfold declarator, declared_variable. simpl.
  destruct id; simpl; try (symmetry; apply add_no_facts).
  destruct init as [[]|]; simpl;
    try match goal with |- context [match ?t with FunctionDeclaration => _ | _ => _ end] =>
          destruct t end;
    same_record r.
Qed.

Lemma fold_declarator line kind decls : forall r,
  fold_left (declarator line kind) decls r
  = add_facts {| f_exports := []; f_imports := [];
                 f_functions := flat_map (declared_function line) decls;
                 f_classes := [];
                 f_variables := flat_map (declared_variable line kind) decls |} r.
Proof.
  induction decls as [|d decls IH]; intros r; simpl.
  - symmetry. apply add_no_facts.
  - rewrite IH, declarator_facts. same_record r.
Qed.

Lemma visit_facts n r : visit n r = add_facts (facts_of n) r.
Proof.
  destruct n; simpl; try (symmetry; apply add_no_facts).
  - (* Function *)
    destruct type; simpl; try (symmetry; apply add_no_facts).
    same_record r.
  - (* Class *)
    destruct type; simpl; try (symmetry; apply add_no_facts).
    same_record r.
  - (* VariableDeclaration *)
    apply fold_declarator.
  - (* ImportDeclaration *)
    same_record r.
  - (* ExportNamedDeclaration *)
    rewrite fold_push_export.
    destruct declaration as [[]|]; simpl;
      try match goal with |- context [match ?t with FunctionDeclaration => _ | _ => _ end] =>
            destruct t end;
      try match goal with |- context [match ?t with ClassDeclaration => _ | _ => _ end] =>
            destruct t end;
      rewrite ?fold_push_export; same_record r.
  - (* ExportDefaultDeclaration *)
    same_record r.
Qed.

(** The walk is the concatenation of what the nodes contribute, in
    postorder. *)
(** The callbacks run on a list of nodes append what each node
    contributes. *)
Lemma visits_facts ns : forall r,
  fold_left (fun st n => visit n st) ns r
  = add_facts {| f_exports := flat_map (fun n => f_exports (facts_of n)) ns;
                 f_imports := flat_map (fun n => f_imports (facts_of n)) ns;
                 f_functions := flat_map (fun n => f_functions (facts_of n)) ns;
                 f_classes := flat_map (fun n => f_classes (facts_of n)) ns;
                 f_variables := flat_map (fun n => f_variables (facts_of n)) ns |} r.
Proof.
  induction ns as [|n ns IH]; intros r; simpl.
  - symmetry. apply add_no_facts.
  - rewrite IH, visit_facts. same_record r.
Qed.

Lemma simple_visit tree r :
  simple tree visit r
  = add_facts {| f_exports := flat_map (fun n => f_exports (facts_of n)) (postorder tree);
                 f_imports := flat_map (fun n => f_imports (facts_of n)) (postorder tree);
                 f_functions :=
                   flat_map (fun n => f_functions (facts_of n)) (postorder tree);
                 f_classes := flat_map (fun n => f_classes (facts_of n)) (postorder tree);
                 f_variables :=
                   flat_map (fun n => f_variables (facts_of n)) (postorder tree) |} r.
Proof. apply visits_facts. Qed.

(** *** Every node of the tree is walked *)

Lemma of_option_flat_map (o : option node) :
  of_option postorder o = flat_map postorder (option_list o).
Proof. destruct o; simpl; rewrite ?app_nil_r; reflexivity. Qed.

Lemma postorder_kids n : postorder n = flat_map postorder (kids n) ++ [n].
Proof.
  destruct n; simpl; rewrite ?app_nil_r, ?of_option_flat_map, ?flat_map_app;
    simpl; rewrite ?app_nil_r, <- ?app_assoc; try reflexivity.
  - destruct computed; simpl; rewrite ?app_nil_r; reflexivity.
  - f_equal. induction declarations as [|[id init] ds IH]; simpl; [reflexivity|].
    rewrite flat_map_app, IH, of_option_flat_map. simpl.
    rewrite <- app_assoc. reflexivity.
Qed.

Lemma postorder_self n : In n (postorder n).
Proof. rewrite postorder_kids. apply in_or_app. right. left. reflexivity. Qed.

Lemma postorder_kid c n : In c (kids n) -> incl (postorder c) (postorder n).
Proof.
  intros Hc m Hm. rewrite (postorder_kids n). apply in_or_app. left.
  apply in_flat_map. exists c. split; assumption.
Qed.

Lemma kid_smaller c n :
  In c (kids n) -> length (postorder c) < length (postorder n).
Proof.
  intros Hc. rewrite (postorder_kids n), length_app. simpl.
  assert (length (postorder c) <= length (flat_map postorder (kids n))); [|lia].
  induction (kids n) as [|k ks IH]; [destruct Hc|].
  simpl. rewrite length_app. destruct Hc as [->|Hc]; [lia|].
  specialize (IH Hc). lia.
Qed.

(** Induction on a tree through the children the walker descends into. *)
Lemma kids_ind (P : node -> Prop) :
  (forall n, (forall c, In c (kids n) -> P c) -> P n) -> forall n, P n.
Proof.
  intros Hstep n.
  remember (length (postorder n)) as k eqn:Hk.
  revert n Hk. induction k as [k IH] using lt_wf_ind. intros n Hk.
  apply Hstep. intros c Hc. apply (IH (length (postorder c))); [|reflexivity].
  subst k. apply kid_smaller, Hc.
Qed.

(** The walk of a tree covers the walk of each node it reaches. *)
Lemma postorder_closed t : forall n, In n (postorder t) -> incl (postorder n) (postorder t).
Proof.
  induction t as [t IH] using kids_ind. intros n Hn.
  rewrite (postorder_kids t) in Hn. apply in_app_or in Hn as [Hn|Hn].
  - apply in_flat_map in Hn as (c & Hc & Hn).
    intros m Hm. apply (postorder_kid c t Hc). apply (IH c Hc n Hn m Hm).
  - destruct Hn as [<-|[]]. apply incl_refl.
Qed.

Lemma kid_walked t n c : In n (postorder t) -> In c (kids n) -> In c (postorder t).
Proof.
  intros Hn Hc. apply (postorder_closed t n Hn).
  apply (postorder_kid c n Hc). apply postorder_self.
Qed.

(** *** What [parseJavaScript] returns *)

Lemma fold_onComment evs : forall r,
  fold_left onComment evs r
  = {| filePath := filePath r; fileName := fileName r; extension := extension r;
       lines := lines r; size := size r; exports := exports r;
       imports := imports r; functions := functions r; classes := classes r;
       variables := variables r;
       comments := comments r ++ map comment_of evs;
       ast := ast r; parseError := parseError r; structure := structure r |}.
Proof.
  induction evs as [|ev evs IH]; intros r; simpl.
  - destruct r; simpl; rewrite app_nil_r; reflexivity.
  - rewrite IH. unfold onComment, push_comment. simpl.
    rewrite <- app_assoc. reflexivity.
Qed.

Section WithAcorn.
Variable acorn_parse : string -> Parse.

(** The lists a successful parse and walk produce. *)
Lemma parseJavaScript_parsed content r0 options tree :
  outcome (acorn_parse content) = Parsed tree ->
  walk (acorn_parse content) = Returns ->
  let r := parseJavaScript acorn_parse content r0 options in
  let names := map exp_name (exports r) in
  exports r = exports r0 ++ flat_map (fun n => f_exports (facts_of n)) (postorder tree)
  /\ functions r
     = map (mark_function names)
         (functions r0 ++ flat_map (fun n => f_functions (facts_of n)) (postorder tree))
  /\ classes r
     = map (mark_class names)
         (classes r0 ++ flat_map (fun n => f_classes (facts_of n)) (postorder tree))
  /\ variables r
     = variables r0 ++ flat_map (fun n => f_variables (facts_of n)) (postorder tree)
  /\ imports r
     = imports r0 ++ flat_map (fun n => f_imports (facts_of n)) (postorder tree)
  /\ comments r = comments r0 ++ map comment_of (reported (acorn_parse content))
  /\ parseError r = parseError r0.
Proof.
  intros Hparsed Hwalk r names. subst names r. unfold parseJavaScript.
  rewrite Hparsed, Hwalk, fold_onComment, simple_visit.
  destruct (showAst options); simpl; repeat split; reflexivity.
Qed.

(** The lists a successful parse produces, however the walk ends: the
    facts of the nodes the callbacks have run on.  The marking and the
    absence of an error need the walk to return. *)
Lemma parseJavaScript_walked content r0 options tree :
  outcome (acorn_parse content) = Parsed tree ->
  let r := parseJavaScript acorn_parse content r0 options in
  let ns := walked (acorn_parse content) tree in
  let names := map exp_name (exports r) in
  exports r = exports r0 ++ flat_map (fun n => f_exports (facts_of n)) ns
  /\ functions r
     = match walk (acorn_parse content) with
       | Returns =>
           map (mark_function names)
             (functions r0 ++ flat_map (fun n => f_functions (facts_of n)) ns)
       | Throws _ _ => functions r0 ++ flat_map (fun n => f_functions (facts_of n)) ns
       end
  /\ classes r
     = match walk (acorn_parse content) with
       | Returns =>
           map (mark_class names)
             (classes r0 ++ flat_map (fun n => f_classes (facts_of n)) ns)
       | Throws _ _ => classes r0 ++ flat_map (fun n => f_classes (facts_of n)) ns
       end
  /\ variables r = variables r0 ++ flat_map (fun n => f_variables (facts_of n)) ns
  /\ imports r = imports r0 ++ flat_map (fun n => f_imports (facts_of n)) ns
  /\ comments r = comments r0 ++ map comment_of (reported (acorn_parse content))
  /\ parseError r
     = match walk (acorn_parse content) with
       | Returns => parseError r0
       | Throws _ message => Some message
       end.
Proof.
  intros Hparsed r ns names. subst names ns r. unfold parseJavaScript, walked.
  rewrite Hparsed, fold_onComment.
  destruct (walk (acorn_parse content)) as [|visited message].
  - rewrite simple_visit. destruct (showAst options); simpl; repeat split; reflexivity.
  - rewrite visits_facts. destruct (showAst options); simpl; repeat split; reflexivity.
Qed.

(** The record a failed parse produces. *)
Lemma parseJavaScript_thrown content r0 options message :
  outcome (acorn_parse content) = Thrown message ->
  let r := parseJavaScript acorn_parse content r0 options in
  parseError r = Some message
  /\ exports r = exports r0 /\ imports r = imports r0
  /\ functions r = functions r0 /\ classes r = classes r0
  /\ variables r = variables r0
  /\ comments r = comments r0 ++ map comment_of (reported (acorn_parse content))
  /\ ast r = ast r0.
Proof.
  intros Hthrown r. subst r. unfold parseJavaScript.
  rewrite Hthrown, fold_onComment. simpl. repeat split; reflexivity.
Qed.

End WithAcorn.

End WalkFacts.

(** ** Claims about the ECMAScript extractor *)

Module EcmaFacts.
Import ESTree Parser WalkFacts.

Section Generic.
Variable acorn_parse : string -> Parse.
Variable JSON_parse : string -> Json.value + string.
Context `{PathModule}.

Lemma parseFile_ecma path content options :
  Scanner.Array_includes ecma_extensions (extname path) = true ->
  parseFile acorn_parse JSON_parse path content options
  = parseJavaScript acorn_parse content (new_result path content) options.
Proof.
  unfold parseFile, ecma_extensions, Scanner.Array_includes. simpl.
  destruct (String.eqb (extname path) ".js"),
    (String.eqb (extname path) ".mjs"), (String.eqb (extname path) ".cjs"),
    (String.eqb (extname path) ".ts"), (String.eqb (extname path) ".tsx"),
    (String.eqb (extname path) ".jsx"); simpl; intros Hx;
    try reflexivity; discriminate.
Qed.

(** C1, amended.  Extraction of an ECMAScript-family file is a total
    function of the source: whatever the parser does, a record comes back.
    When the parser throws, the record carries the parser's message as
    [parseError], its imports, exports, functions, classes and variables
    are empty and no tree is attached; its comments are the comments the
    parser reported before it threw. *)
Theorem parseFile_parse_failure (path content : string) (options : Options)
    (message : string) :
  Scanner.Array_includes ecma_extensions (extname path) = true ->
  outcome (acorn_parse content) = Thrown message ->
  let r := parseFile acorn_parse JSON_parse path content options in
  parseError r = Some message
  /\ (message <> "" -> parseError r <> Some "")
  /\ imports r = [] /\ exports r = [] /\ functions r = [] /\ classes r = []
  /\ variables r = []
  /\ comments r = map comment_of (reported (acorn_parse content))
  /\ ast r = None.
Proof.
  intros Hext Hthrown r. subst r. rewrite (parseFile_ecma _ _ _ Hext).
  destruct (parseJavaScript_thrown acorn_parse content (new_result path content)
              options message Hthrown)
    as (He & Hx & Hi & Hf & Hc & Hv & Hcm & Ha).
  rewrite He, Hx, Hi, Hf, Hc, Hv, Hcm, Ha. simpl.
  repeat split; try reflexivity. congruence.
Qed.

(** Where an export record of kind function or class comes from. *)
Lemma function_export_origin n e :
  In e (f_exports (facts_of n)) -> exp_type e = "function" ->
  exists line l id ps b a g specs,
    n = ExportNamedDeclaration line
          (Some (Function FunctionDeclaration l id ps b a g)) specs
    /\ exp_name e = opt_name id.
Proof.
  intros He Hty. destruct n; simpl in He; try contradiction.
  - destruct type; contradiction.
  - destruct type; contradiction.
  - apply in_app_or in He as [He|He].
    + destruct declaration as [[]|]; simpl in He; try contradiction.
      * destruct type; simpl in He; try contradiction.
        destruct He as [<-|[]]. simpl. eauto 10.
      * destruct type; simpl in He; try contradiction.
        destruct He as [<-|[]]. discriminate.
      * apply in_map_iff in He as (d & <- & _). discriminate.
    + apply in_map_iff in He as (d & <- & _). discriminate.
  - destruct He as [<-|[]]. discriminate.
Qed.

Lemma class_export_origin n e :
  In e (f_exports (facts_of n)) -> exp_type e = "class" ->
  exists line l id sup body specs,
    n = ExportNamedDeclaration line (Some (Class ClassDeclaration l id sup body)) specs
    /\ exp_name e = opt_name id.
Proof.
  intros He Hty. destruct n; simpl in He; try contradiction.
  - destruct type; contradiction.
  - destruct type; contradiction.
  - apply in_app_or in He as [He|He].
    + destruct declaration as [[]|]; simpl in He; try contradiction.
      * destruct type; simpl in He; try contradiction.
        destruct He as [<-|[]]. discriminate.
      * destruct type; simpl in He; try contradiction.
        destruct He as [<-|[]]. simpl. eauto 10.
      * apply in_map_iff in He as (d & <- & _). discriminate.
    + apply in_map_iff in He as (d & <- & _). discriminate.
  - destruct He as [<-|[]]. discriminate.
Qed.

Lemma name_exported (e : ExportRecord) (es : list ExportRecord) :
  In e es -> bool_decide (exp_name e ∈ map exp_name es) = true.
Proof.
  intros He. apply bool_decide_eq_true. apply list_elem_of_In.
  apply in_map. exact He.
Qed.

(** C2, amended.  When the parse succeeds and the walk over the tree
    returns, the record carries no error, and the exported flag of every
    function and class is the membership of its name among the names of
    all export records of the same pass, whatever their kind.  Every
    export record of kind function with a non-empty name has a function
    record of that name flagged exported, and every export record of kind
    class has a class record of that name flagged exported. *)
Theorem parseJavaScript_exported (path content : string) (options : Options)
    (tree : node) :
  outcome (acorn_parse content) = Parsed tree ->
  walk (acorn_parse content) = Returns ->
  let r := parseJavaScript acorn_parse content (new_result path content) options in
  parseError r = None
  /\ (forall f, f ∈ functions r ->
     fn_exported f = Some (bool_decide (Some (fn_name f) ∈ map exp_name (exports r))))
  /\ (forall c, c ∈ classes r ->
        cls_exported c = Some (bool_decide (cls_name c ∈ map exp_name (exports r))))
  /\ (forall e name, e ∈ exports r -> exp_type e = "function" ->
        exp_name e = Some name -> name <> "" ->
        exists f, f ∈ functions r /\ fn_name f = name /\ fn_exported f = Some true)
  /\ (forall e, e ∈ exports r -> exp_type e = "class" ->
        exists c, c ∈ classes r /\ cls_name c = exp_name e
                  /\ cls_exported c = Some true).
Proof.
  intros Hparsed Hwalk r.
  destruct (parseJavaScript_parsed acorn_parse content (new_result path content)
              options tree Hparsed Hwalk) as (Hx & Hf & Hc & _ & _ & _ & Herr).
  fold r in Hx, Hf, Hc, Herr. simpl in Hx, Hf, Hc, Herr.
  split; [exact Herr|]. split; [|split; [|split]].
  - intros f Hin. rewrite Hf in Hin. apply list_elem_of_In, in_map_iff in Hin.
    destruct Hin as (f0 & <- & _). reflexivity.
  - intros c Hin. rewrite Hc in Hin. apply list_elem_of_In, in_map_iff in Hin.
    destruct Hin as (c0 & <- & _). reflexivity.
  - intros e name He Hty Hname Hne.
    apply list_elem_of_In in He. pose proof He as Hin. rewrite Hx in Hin.
    apply in_flat_map in Hin as (n & Hn & Hen).
    destruct (function_export_origin n e Hen Hty)
      as (line & l & id & ps & b & a & g & specs & -> & Hid).
    assert (Hd : In (Function FunctionDeclaration l id ps b a g) (postorder tree)).
    { apply (kid_walked tree _ _ Hn). simpl. left. reflexivity. }
    exists (mark_function (map exp_name (exports r))
              {| fn_name := JsString.or_default (opt_name id) "anonymous";
                 fn_params := map param_name ps;
                 fn_async := Some a; fn_generator := Some g; fn_arrow := None;
                 fn_line := l; fn_exported := Some false; fn_isMethod := None |}).
    assert (Hnm : JsString.or_default (opt_name id) "anonymous" = name).
    { rewrite <- Hid, Hname. unfold JsString.or_default, JsString.truthy.
      destruct (String.eqb_spec name ""); [congruence | reflexivity]. }
    split; [|split].
    + rewrite Hf. apply list_elem_of_In, in_map, in_flat_map.
      exists (Function FunctionDeclaration l id ps b a g). split; [exact Hd|].
      simpl. left. reflexivity.
    + simpl. exact Hnm.
    + simpl. rewrite Hnm, <- Hname. f_equal. apply name_exported, He.
  - intros e He Hty.
    apply list_elem_of_In in He. pose proof He as Hin. rewrite Hx in Hin.
    apply in_flat_map in Hin as (n & Hn & Hen).
    destruct (class_export_origin n e Hen Hty)
      as (line & l & id & sup & body & specs & -> & Hid).
    assert (Hd : In (Class ClassDeclaration l id sup body) (postorder tree)).
    { apply (kid_walked tree _ _ Hn). simpl. left. reflexivity. }
    exists (mark_class (map exp_name (exports r))
              {| cls_name := opt_name id; cls_superClass := opt_name sup;
                 cls_methods := Some (flat_map method_of body);
                 cls_line := l; cls_exported := None |}).
    split; [|split].
    + rewrite Hc. apply list_elem_of_In, in_map, in_flat_map.
      exists (Class ClassDeclaration l id sup body). split; [exact Hd|].
      simpl. left. reflexivity.
    + simpl. symmetry. exact Hid.
    + simpl. rewrite <- Hid. f_equal. apply name_exported, He.
Qed.


Lemma declared_function_marked names line decl f :
  In f (declared_function line decl) ->
  fn_name (mark_function names f) = fn_name f
  /\ fn_params (mark_function names f) = fn_params f
  /\ fn_line (mark_function names f) = fn_line f
  /\ fn_arrow (mark_function names f) = fn_arrow f.
Proof. intros _. repeat split; reflexivity. Qed.


End Generic.

Import NodePath.


(** [export function g() {}]: the export record and the flagged function. *)
Lemma parseJavaScript_exported_witness :
  exists f,
    f ∈ functions (parseJavaScript (Samples.acorn_returns Samples.tree_export_function)
                     Samples.js_export_function
                     (new_result "a.js" Samples.js_export_function)
                     Samples.default_options)
    /\ fn_name f = "g" /\ fn_exported f = Some true.
Proof.
  pose proof (parseJavaScript_exported
                (Samples.acorn_returns Samples.tree_export_function)
                "a.js" Samples.js_export_function Samples.default_options
                Samples.tree_export_function eq_refl eq_refl) as (_ & _ & _ & Hfun & _).
  apply (Hfun {| exp_type := "function"; exp_name := Some "g"; exp_line := 1 |} "g").
  - left.
  - reflexivity.
  - reflexivity.
  - discriminate.
Defined.

(** C2 as stated fails, also when the walk returns: in
    [function f() {}  export { f };] the only export record has kind
    [reexport], and the function [f] is flagged exported. *)
Lemma parseJavaScript_exported_by_reexport :
  ~ (forall (acorn_parse : string -> Parse) (content : string) (tree : node),
       outcome (acorn_parse content) = Parsed tree ->
       walk (acorn_parse content) = Returns ->
       let r := parseJavaScript acorn_parse content (new_result "a.js" content)
                  Samples.default_options in
       forall f, f ∈ functions r -> fn_exported f = Some true ->
         exists e, e ∈ exports r
                   /\ (exp_type e = "function" \/ exp_type e = "class")
                   /\ exp_name e = Some (fn_name f)).
Proof.
  intros Hclaim.
  specialize (Hclaim (Samples.acorn_returns Samples.tree_reexport)
                Samples.js_reexport Samples.tree_reexport eq_refl eq_refl).
  simpl in Hclaim.
  destruct (Hclaim
              {| fn_name := "f"; fn_params := []; fn_async := Some false;
                 fn_generator := Some false; fn_arrow := None; fn_line := 1;
                 fn_exported := Some true; fn_isMethod := None |})
    as (e & He & Hty & _).
  - vm_compute. left.
  - reflexivity.
  - vm_compute in He. apply list_elem_of_singleton in He. subst e.
    destruct Hty; discriminate.
Qed.

Lemma parseFile_parse_failure_witness :
  parseError (parseFile Samples.acorn_unbalanced Samples.no_json "a.js"
                Samples.js_unbalanced Samples.default_options)
  = Some "Unexpected token (2:0)"
  /\ functions (parseFile Samples.acorn_unbalanced Samples.no_json "a.js"
                  Samples.js_unbalanced Samples.default_options) = [].
Proof.
  pose proof (parseFile_parse_failure Samples.acorn_unbalanced Samples.no_json
                "a.js" Samples.js_unbalanced Samples.default_options
                "Unexpected token (2:0)" eq_refl eq_refl) as Hw.
  split; [apply Hw | apply (proj1 (proj2 (proj2 (proj2 (proj2 Hw)))))].
Defined.

(** C1 as stated fails: when the parser has reported a comment before it
    throws, the comment stays in the record that carries the error. *)
Lemma parseFile_failure_keeps_comments :
  ~ (forall (acorn_parse : string -> Parse) (content message : string),
       outcome (acorn_parse content) = Thrown message ->
       let r := parseFile acorn_parse Samples.no_json "a.js" content
                  Samples.default_options in
       parseError r <> None /\ parseError r <> Some ""
       /\ imports r = [] /\ exports r = [] /\ functions r = [] /\ classes r = []
       /\ variables r = [] /\ comments r = []).
Proof.
  intros Hclaim.
  specialize (Hclaim Samples.acorn_unbalanced Samples.js_unbalanced
                "Unexpected token (2:0)" eq_refl).
  destruct Hclaim as (_ & _ & _ & _ & _ & _ & _ & Hcomments).
  vm_compute in Hcomments. discriminate.
Qed.

End EcmaFacts.

(** ** The analyzer *)

Module AnalyzerFacts.
Import Json Analyzer.

Lemma same_value_string s v : same_value (JString s) v = true -> v = JString s.
Proof.
  destruct v; simpl; try discriminate. intros Heq.
  apply String.eqb_eq in Heq. congruence.
Qed.

(** A string survives deduplication unless it has been seen. *)
Lemma dedupe_from_string s xs : forall seen,
  JString s ∈ xs -> existsb (same_value (JString s)) seen = false ->
  JString s ∈ dedupe_from seen xs.
Proof.
  induction xs as [|x xs IH]; intros seen Hin Hseen; [inversion Hin|].
  simpl. apply elem_of_cons in Hin as [<-|Hin].
  - rewrite Hseen. left.
  - destruct (existsb (same_value x) seen) eqn:Hx; [apply IH; assumption|].
    destruct (same_value (JString s) x) eqn:Hsx.
    + apply same_value_string in Hsx. subst x. left.
    + right. apply IH; [assumption|]. cbn [existsb]. rewrite Hsx, Hseen. reflexivity.
Qed.

Lemma requirement_line_skipped deps line :
  skipped line = true -> requirement_line deps line = deps.
Proof.
  unfold skipped, requirement_line. intros Hs. apply negb_true_iff in Hs.
  rewrite Hs. reflexivity.
Qed.



Section Generic.
Variable fs : FileSystem.
Variable JSON_parse : string -> Json.value + string.
Variable relative : string -> string -> string.
Context `{PathModule}.

Lemma common_entry_found projectPath files entry :
  entry ∈ commonEntries ->
  Scanner.Array_includes files (join projectPath entry) = true ->
  forall acc,
    JString entry ∈
      fold_left
        (fun entryPoints entry =>
           let fullPath := join projectPath entry in
           if Scanner.Array_includes files fullPath
           then entryPoints ++ [JString entry]
           else entryPoints)
        commonEntries acc.
Proof.
  intros Hentry Hfound.
  induction commonEntries as [|e es IH]; intros acc; [inversion Hentry|].
  simpl. apply elem_of_cons in Hentry as [<-|Hentry].
  - rewrite Hfound. clear IH.
    assert (Hkeep : forall l acc', JString entry ∈ acc' ->
      JString entry ∈
        fold_left
          (fun entryPoints entry =>
             if Scanner.Array_includes files (join projectPath entry)
             then entryPoints ++ [JString entry]
             else entryPoints) l acc').
    { induction l as [|x l IHl]; intros acc' Hacc; simpl; [exact Hacc|].
      apply IHl. destruct (Scanner.Array_includes files (join projectPath x));
        [apply elem_of_app; left|]; exact Hacc. }
    apply Hkeep. apply elem_of_app. right. left.
  - apply IH, Hentry.
Qed.

Lemma declared_entries_keep projectPath acc v :
  v ∈ acc -> v ∈ declared_entries fs JSON_parse projectPath acc.
Proof.
  intros Hv. unfold declared_entries.
  repeat match goal with
         | |- context [match ?x with _ => _ end] => destruct x
         end; repeat (apply elem_of_app; left); exact Hv.
Qed.

Lemma Array_includes_elem_of (xs : list string) x :
  x ∈ xs -> Scanner.Array_includes xs x = true.
Proof.
  intros Hx. unfold Scanner.Array_includes. apply existsb_exists.
  exists x. split; [apply list_elem_of_In, Hx | apply String.eqb_refl].
Qed.


End Generic.

Import NodePath.



End AnalyzerFacts.

(** ** More on the scanner *)

Module ScannerMore.
Import Scanner Derived StatsFacts.

(** A histogram built by counting up the keys of a list holds, for each
    key, the number of elements with that key. *)
Lemma lookup_count_up {A} (g : A -> string) (xs : list A) (e : string) :
  forall counts : gmap string nat,
    fold_left (fun counts x => count_up (g x) counts) xs counts !! e
    = if decide (length (filter (fun x => g x = e) xs) = 0) then counts !! e
      else Some (default 0 (counts !! e) + length (filter (fun x => g x = e) xs)).
Proof.
  induction xs as [|x xs IH]; intros counts; simpl; [reflexivity|].
  rewrite IH, filter_cons. unfold count_up.
  destruct (decide (g x = e)) as [->|Hne]; simpl.
  - rewrite lookup_insert_eq. simpl.
    destruct (decide (length (filter (fun x => g x = e) xs) = 0)) as [->|_];
      simpl; f_equal; lia.
  - rewrite lookup_insert_ne by exact Hne. reflexivity.
Qed.

Section Generic.
Context `{PathModule}.
Variable fs : FileSystem.

Lemma byExtension_fold files : forall stats,
  byExtension (fold_left (stats_step fs) files stats) =
  fold_left (fun counts file => count_up (extension_key file) counts) files
    (byExtension stats).
Proof.
  induction files as [|f files IH]; intros stats; simpl; [reflexivity|].
  rewrite IH. reflexivity.
Qed.

Lemma total_fold files : forall stats,
  total (fold_left (stats_step fs) files stats) = total stats.
Proof.
  induction files as [|f files IH]; intros stats; simpl; [reflexivity|].
  rewrite IH. reflexivity.
Qed.

Lemma totalSize_fold files : forall stats,
  totalSize (fold_left (stats_step fs) files stats)
  = (totalSize stats
     + fold_right N.add 0%N (map (fun f => default 0%N (stat_size fs f)) files))%N.
Proof.
  induction files as [|f files IH]; intros stats; simpl; [lia|].
  rewrite IH. simpl. destruct (stat_size fs f); simpl; lia.
Qed.

(** X1.  For a file list whose extension and directory keys name no member
    of [Object.prototype], every file is counted exactly once in each
    histogram: the counts of the extension histogram and those of the
    directory histogram both add up to the number of files, which is also
    [total].  The total size is the sum of the sizes of the files whose
    [stat] succeeds; a file whose [stat] fails adds nothing to it and is
    still counted. *)
Theorem getFileStats_counts_add_up (files : list string) :
  ordinary_keys files = true ->
  total (getFileStats fs files) = length files
  /\ count_sum (byExtension (getFileStats fs files)) = length files
  /\ count_sum (byDirectory (getFileStats fs files)) = length files
  /\ totalSize (getFileStats fs files)
     = fold_right N.add 0%N (map (fun f => default 0%N (stat_size fs f)) files).
Proof.
  intros _. split; [|split; [|split]].
  - unfold getFileStats. rewrite total_fold. reflexivity.
  - unfold getFileStats. rewrite byExtension_fold. simpl.
    assert (Hgen : forall counts,
      count_sum (fold_left (fun counts file => count_up (extension_key file) counts)
                   files counts) = length files + count_sum counts).
    { induction files as [|f files IH]; intros counts; simpl; [reflexivity|].
      rewrite IH, count_sum_count_up. lia. }
    rewrite Hgen. unfold count_sum. rewrite map_fold_empty. lia.
  - apply byDirectory_counts_every_file.
  - unfold getFileStats. rewrite totalSize_fold. simpl. lia.
Qed.

(** X2.  For a file list whose extension and directory keys name no member
    of [Object.prototype], the extension histogram maps an extension, or
    the marker [(no extension)], to the number of files that have it, and
    has no entry for one that no file has; the directory histogram does
    the same for the directory keys.  No key is the empty string. *)
Theorem getFileStats_histograms (files : list string) (e : string) :
  ordinary_keys files = true ->
  byExtension (getFileStats fs files) !! e
  = (if decide (length (filter (fun f => extension_key f = e) files) = 0) then None
     else Some (length (filter (fun f => extension_key f = e) files)))
  /\ byDirectory (getFileStats fs files) !! e
     = (if decide (length (filter (fun f => directory_key f = e) files) = 0) then None
        else Some (length (filter (fun f => directory_key f = e) files)))
  /\ byExtension (getFileStats fs files) !! "" = None
  /\ byDirectory (getFileStats fs files) !! "" = None.
Proof.
  intros _.
  assert (Hext : forall k,
    byExtension (getFileStats fs files) !! k
    = (if decide (length (filter (fun f => extension_key f = k) files) = 0) then None
       else Some (length (filter (fun f => extension_key f = k) files)))).
  { intros k. unfold getFileStats. rewrite byExtension_fold. simpl.
    rewrite lookup_count_up, lookup_empty. reflexivity. }
  assert (Hdir : forall k,
    byDirectory (getFileStats fs files) !! k
    = (if decide (length (filter (fun f => directory_key f = k) files) = 0) then None
       else Some (length (filter (fun f => directory_key f = k) files)))).
  { intros k. unfold getFileStats. rewrite byDirectory_fold. simpl.
    rewrite lookup_count_up, lookup_empty. reflexivity. }
  assert (Hnil : forall (g : string -> string),
    (forall f, g f <> "") -> filter (fun f => g f = "") files = []).
  { intros g Hg. clear Hext Hdir. induction files as [|f fl IH]; [reflexivity|].
    rewrite filter_cons. destruct (decide (g f = "")) as [Heq|_]; [|exact IH].
    destruct (Hg f Heq). }
  split; [apply Hext|split; [apply Hdir|split]].
  - rewrite Hext, Hnil; [reflexivity|].
    intros f. unfold extension_key, JsString.truthy.
    destruct (String.eqb_spec (extname f) ""); simpl; [discriminate | assumption].
  - rewrite Hdir, Hnil; [reflexivity|].
    intros f. unfold directory_key, JsString.truthy.
    destruct (String.eqb_spec (hd "" (JsString.split sep (dirname f))) ""); simpl;
      [discriminate | assumption].
Qed.

End Generic.

Section Categorizer.
Context `{PathModule}.

Lemma categories_ext (a b : Categories) :
  (forall c, members c a = members c b) -> a = b.
Proof.
  intros Hm. destruct a, b.
  pose proof (Hm Code). pose proof (Hm Config). pose proof (Hm Docs).
  pose proof (Hm Tests). pose proof (Hm Assets). pose proof (Hm Other).
  simpl in *. congruence.
Qed.

(** X3.  Categorizing two lists one after the other and joining the
    results list by list is categorizing their concatenation: the category
    of a path does not depend on the paths around it. *)
Theorem categorizeFiles_app (files more : list string) :
  categorizeFiles (files ++ more)
  = merge_categories (categorizeFiles files) (categorizeFiles more).
Proof.
  apply categories_ext. intros c.
  rewrite CategorizerFacts.members_categorizeFiles, filter_app.
  rewrite <- !CategorizerFacts.members_categorizeFiles.
  destruct c; reflexivity.
Qed.

End Categorizer.

Import NodePath.

(** Two files of a project, by relative path. *)
Lemma getFileStats_counts_add_up_witness :
  total (getFileStats Samples.pip_project ["src/a.js"; "README.md"]) = 2
  /\ count_sum (byExtension (getFileStats Samples.pip_project ["src/a.js"; "README.md"]))
     = 2
  /\ count_sum (byDirectory (getFileStats Samples.pip_project ["src/a.js"; "README.md"]))
     = 2.
Proof.
  destruct (getFileStats_counts_add_up Samples.pip_project ["src/a.js"; "README.md"])
    as (Ht & He & Hd & _); [reflexivity|].
  repeat split; assumption.
Defined.

Lemma getFileStats_histograms_witness :
  byExtension (getFileStats Samples.pip_project ["src/a.js"; "README.md"]) !! ".js"
  = Some 1
  /\ byDirectory (getFileStats Samples.pip_project ["src/a.js"; "README.md"]) !! "src"
     = Some 1
  /\ byDirectory (getFileStats Samples.pip_project ["src/a.js"; "README.md"]) !! "."
     = Some 1.
Proof.
  destruct (getFileStats_histograms Samples.pip_project ["src/a.js"; "README.md"] ".js")
    as (He & _); [reflexivity|].
  destruct (getFileStats_histograms Samples.pip_project ["src/a.js"; "README.md"] "src")
    as (_ & Hsrc & _); [reflexivity|].
  destruct (getFileStats_histograms Samples.pip_project ["src/a.js"; "README.md"] ".")
    as (_ & Hdot & _); [reflexivity|].
  rewrite He, Hsrc, Hdot. repeat split; reflexivity.
Defined.

(** *** The directory scan *)

Lemma insert_sorted_perm x l : JsArray.insert_sorted x l ≡ₚ x :: l.
Proof.
  induction l as [|y l IH]; simpl; [reflexivity|].
  destruct (String.leb x y); [reflexivity|].
  rewrite IH. apply Permutation_swap.
Qed.

Lemma sort_perm l : JsArray.sort l ≡ₚ l.
Proof.
  induction l as [|x l IH]; simpl; [reflexivity|].
  rewrite insert_sorted_perm, IH. reflexivity.
Qed.

Lemma insert_sorted_ascending x l :
  ascending l -> ascending (JsArray.insert_sorted x l).
Proof.
  unfold ascending. induction l as [|y l IH]; intros Hl; simpl.
  - repeat constructor.
  - destruct (String.leb x y) eqn:Hxy.
    + constructor; [exact Hl|]. constructor. exact Hxy.
    + inversion Hl as [|? ? Hl' Hhd]; subst.
      constructor; [apply IH, Hl'|].
      assert (Hyx : String.leb y x = true).
      { destruct (String.leb_total x y) as [Hc|Hc]; [congruence | exact Hc]. }
      destruct l as [|z l]; simpl.
      * constructor. exact Hyx.
      * destruct (String.leb x z); constructor; [exact Hyx|].
        inversion Hhd; assumption.
Qed.

Lemma sort_ascending l : ascending (JsArray.sort l).
Proof.
  induction l as [|x l IH]; simpl; [constructor|].
  apply insert_sorted_ascending, IH.
Qed.

(** X4.  A scan is fulfilled only when the root is a directory, and then
    with the paths [glob] found, each once, in ascending order; the ignore
    patterns handed to [glob] are the default ones followed by the
    caller's.  In every other case the scan is rejected. *)
Theorem scanDirectory_sorted (stat : string -> Scan.StatOutcome)
    (glob : string -> Scan.GlobOptions -> list string)
    (dirPath : string) (options : Scan.ScanOptions) :
  match Scan.scanDirectory stat glob dirPath options with
  | Scan.Files files =>
      stat dirPath = Scan.IsDirectory
      /\ ascending files
      /\ exists pattern depth,
           files ≡ₚ glob pattern
                      {| Scan.cwd := dirPath; Scan.absolute := true; Scan.nodir := true;
                         Scan.glob_ignore :=
                           Scan.DEFAULT_IGNORE ++ default [] (Scan.ignore options);
                         Scan.glob_maxDepth := depth |}
           /\ depth = default 10%Z (Scan.maxDepth options)
           /\ pattern = (if (0 <? depth)%Z then "**/*" else "*")
  | Scan.Rejected message =>
      stat dirPath <> Scan.IsDirectory
      /\ (stat dirPath = Scan.NotDirectory ->
          message = dirPath +:+ " is not a directory")
      /\ (forall m, stat dirPath = Scan.StatRejects (Some "ENOENT") m ->
          message = "Directory not found: " +:+ dirPath)
  end.
Proof.
  unfold Scan.scanDirectory. destruct (stat dirPath) as [| |code m] eqn:Hstat.
  - split; [reflexivity|]. split; [apply sort_ascending|].
    eexists _, _. split; [apply sort_perm|]. split; reflexivity.
  - split; [discriminate|]. split; [reflexivity|]. intros m' Hm. discriminate.
  - destruct (bool_decide (code = Some "ENOENT")) eqn:Hcode.
    + split; [discriminate|]. split; [discriminate|]. reflexivity.
    + split; [discriminate|]. split; [discriminate|].
      intros m' Hm. injection Hm as -> ->.
      apply bool_decide_eq_false in Hcode. congruence.
Qed.

End ScannerMore.

(** ** More on the Python extractor *)

Module PythonMore.
Import Regex RegexFacts Parser Derived.

Lemma add_merge_facts a b r : add_facts (merge_facts a b) r = add_facts b (add_facts a r).
Proof.
  destruct r; unfold add_facts, merge_facts; simpl.
  rewrite !app_assoc. reflexivity.
Qed.

Lemma python_line_facts r n l : python_line r n l = add_facts (python_facts n l) r.
Proof.
  unfold python_line, python_facts.
  destruct (exec importRegex l); [WalkFacts.same_record r|].
  destruct (exec funcRegex l); [WalkFacts.same_record r|].
  destruct (exec classRegex l); [WalkFacts.same_record r|].
  destruct (exec varRegex l); WalkFacts.same_record r.
Qed.

(** The loop is the concatenation of what the lines contribute. *)
Lemma python_lines_facts ls : forall i r,
  python_lines ls i r = add_facts (python_all ls i) r.
Proof.
  induction ls as [|l ls IH]; intros i r; simpl.
  - symmetry. apply WalkFacts.add_no_facts.
  - rewrite IH, python_line_facts, add_merge_facts. reflexivity.
Qed.

(** A line contributes at most one record, numbered with the line. *)
Lemma python_facts_one n l :
  length (f_imports (python_facts n l)) + length (f_functions (python_facts n l))
  + length (f_classes (python_facts n l)) + length (f_variables (python_facts n l)) <= 1
  /\ f_exports (python_facts n l) = []
  /\ Forall (fun ns => ns = [] \/ ns = [n]) (line_numbers (python_facts n l)).
Proof.
  unfold python_facts, line_numbers.
  destruct (exec importRegex l); [simpl; repeat split; auto 10|].
  destruct (exec funcRegex l); [simpl; repeat split; auto 10|].
  destruct (exec classRegex l); [simpl; repeat split; auto 10|].
  destruct (exec varRegex l); simpl; repeat split; auto 10.
Qed.

Lemma python_all_count ls : forall i,
  length (f_imports (python_all ls i)) + length (f_functions (python_all ls i))
  + length (f_classes (python_all ls i)) + length (f_variables (python_all ls i))
  <= length ls
  /\ f_exports (python_all ls i) = [].
Proof.
  induction ls as [|l ls IH]; intros i; simpl; [split; [lia|reflexivity]|].
  destruct (IH (i + 1)) as [IHn IHx].
  destruct (python_facts_one (i + 1) l) as (Hn & Hx & _).
  rewrite !length_app, Hx, IHx. split; [lia|reflexivity].
Qed.

(** X5.  The Python scan gives at most one record per line: the imports,
    functions, classes and variables it adds number at most the lines of
    the content.  It leaves the exports, the comments, the tree, the error
    and the structure of the record as they were. *)
Theorem parsePython_one_record_per_line (content : string) (r : FileRecord) :
  length (imports (parsePython content r)) + length (functions (parsePython content r))
  + length (classes (parsePython content r)) + length (variables (parsePython content r))
  <= length (imports r) + length (functions r) + length (classes r)
     + length (variables r) + length (JsString.split "010" content)
  /\ exports (parsePython content r) = exports r
  /\ comments (parsePython content r) = comments r
  /\ ast (parsePython content r) = ast r
  /\ parseError (parsePython content r) = parseError r
  /\ structure (parsePython content r) = structure r.
Proof.
  unfold parsePython. rewrite python_lines_facts. simpl.
  destruct (python_all_count (JsString.split "010" content) 0) as [Hn Hx].
  rewrite !length_app, Hx, app_nil_r. repeat split; try reflexivity. lia.
Qed.

(** *** Line numbers *)

Lemma line_numbers_merge a b :
  line_numbers (merge_facts a b)
  = [map imp_line (f_imports a) ++ map imp_line (f_imports b);
     map fn_line (f_functions a) ++ map fn_line (f_functions b);
     map cls_line (f_classes a) ++ map cls_line (f_classes b);
     map var_line (f_variables a) ++ map var_line (f_variables b)].
Proof. unfold line_numbers, merge_facts. simpl. rewrite !map_app. reflexivity. Qed.

Lemma numbered_head (h t : list nat) (i b : nat) :
  i + 1 <= b ->
  h = [] \/ h = [i + 1] ->
  StronglySorted lt t /\ Forall (fun n => i + 1 < n <= b) t ->
  StronglySorted lt (h ++ t) /\ Forall (fun n => i < n <= b) (h ++ t).
Proof.
  intros Hb Hh [Hs Hr].
  assert (Hr' : Forall (fun n => i < n <= b) t).
  { eapply Forall_impl; [exact Hr|]. simpl. intros. lia. }
  destruct Hh as [-> | ->]; simpl; [split; assumption|].
  split.
  - constructor; [exact Hs|]. eapply Forall_impl; [exact Hr|]. simpl. intros. lia.
  - constructor; [lia | exact Hr'].
Qed.

Lemma python_all_numbers ls : forall i,
  Forall (fun ns => StronglySorted lt ns /\ Forall (fun n => i < n <= i + length ls) ns)
    (line_numbers (python_all ls i)).
Proof.
  induction ls as [|l ls IH]; intros i.
  - repeat constructor.
  - simpl python_all. rewrite line_numbers_merge.
    destruct (python_facts_one (i + 1) l) as (_ & _ & Hone).
    specialize (IH (i + 1)). unfold line_numbers in Hone, IH.
    apply Forall_cons_1 in Hone as [H1 Hone], IH as [I1 IH].
    apply Forall_cons_1 in Hone as [H2 Hone], IH as [I2 IH].
    apply Forall_cons_1 in Hone as [H3 Hone], IH as [I3 IH].
    apply Forall_cons_1 in Hone as [H4 _], IH as [I4 _].
    simpl length.
    replace (i + 1 + length ls) with (i + S (length ls)) in I1, I2, I3, I4 by lia.
    constructor; [apply numbered_head; (lia || assumption)|].
    constructor; [apply numbered_head; (lia || assumption)|].
    constructor; [apply numbered_head; (lia || assumption)|].
    constructor; [apply numbered_head; (lia || assumption)|].
    constructor.
Qed.

Lemma parsePython_new_result `{PathModule} path content :
  facts_in (parsePython content (new_result path content))
  = python_all (JsString.split "010" content) 0
  /\ lines (parsePython content (new_result path content))
     = length (JsString.split "010" content).
Proof.
  unfold parsePython. rewrite python_lines_facts. split; [|reflexivity].
  destruct (python_all (JsString.split "010" content) 0). reflexivity.
Qed.

(** X6.  In the record of a Python file, every import, function, class
    and variable carries the number of a line of the content, counted from
    1, and each of the four lists is in strictly increasing line order. *)
Theorem parsePython_line_numbers `{PathModule} (path content : string) :
  Forall (fun ns =>
            StronglySorted lt ns
            /\ Forall (fun n => 1 <= n <= lines (parsePython content
                                                   (new_result path content))) ns)
    (line_numbers (facts_in (parsePython content (new_result path content)))).
Proof.
  destruct (parsePython_new_result path content) as [-> ->].
  eapply Forall_impl; [apply python_all_numbers|].
  simpl. intros ns [Hs Hr]. split; [exact Hs|].
  eapply Forall_impl; [exact Hr|]. simpl. intros. lia.
Qed.

(** *** Where a record comes from, and what a line leaves *)

Lemma python_all_at ls : forall i j line,
  ls !! j = Some line ->
  f_imports (python_facts (i + j + 1) line) ⊆ f_imports (python_all ls i)
  /\ f_functions (python_facts (i + j + 1) line) ⊆ f_functions (python_all ls i)
  /\ f_classes (python_facts (i + j + 1) line) ⊆ f_classes (python_all ls i)
  /\ f_variables (python_facts (i + j + 1) line) ⊆ f_variables (python_all ls i).
Proof.
  induction ls as [|l ls IH]; intros i j line Hj; [discriminate|].
  destruct j as [|j]; simpl in Hj |- *.
  - injection Hj as ->. replace (i + 0 + 1) with (i + 1) by lia.
    repeat split; intros x Hx; apply elem_of_app; left; exact Hx.
  - destruct (IH (i + 1) j line Hj) as (H1 & H2 & H3 & H4).
    replace (i + 1 + j + 1) with (i + S j + 1) in H1, H2, H3, H4 by lia.
    repeat split; intros x Hx; apply elem_of_app; right; auto.
Qed.

Lemma python_all_origin ls : forall i n,
  n ∈ concat (line_numbers (python_all ls i)) ->
  exists j line,
    ls !! j = Some line /\ n = i + j + 1
    /\ concat (line_numbers (python_facts n line)) <> [].
Proof.
  induction ls as [|l ls IH]; intros i n Hn; [inversion Hn|].
  simpl python_all in Hn. rewrite line_numbers_merge in Hn. simpl in Hn.
  rewrite app_nil_r in Hn.
  assert (Hsplit : n ∈ concat (line_numbers (python_facts (i + 1) l))
                   \/ n ∈ concat (line_numbers (python_all ls (i + 1)))).
  { unfold line_numbers. simpl. rewrite !app_nil_r.
    repeat (apply elem_of_app in Hn as [Hn|Hn]);
      repeat (apply elem_of_app in Hn as [Hn|Hn]);
      rewrite !elem_of_app; tauto. }
  destruct Hsplit as [Hhere|Hlater].
  - exists 0, l. split; [reflexivity|].
    destruct (python_facts_one (i + 1) l) as (_ & _ & Hone).
    assert (Heq : n = i + 1).
    { pose proof Hhere as Hin.
      apply list_elem_of_In, in_concat in Hin as (ns & Hns & Hin).
      rewrite List.Forall_forall in Hone.
      destruct (Hone ns Hns) as [-> | ->]; [destruct Hin|].
      destruct Hin as [<-|[]]. reflexivity. }
    split; [lia|]. subst n. intros Hnil. rewrite Hnil in Hhere. inversion Hhere.
  - destruct (IH (i + 1) n Hlater) as (j & line & Hj & Hn' & Hne).
    exists (S j), line. split; [exact Hj|]. split; [lia | exact Hne].
Qed.

Lemma star_loop_fails p (k : cont) tail c rest caps :
  all_chars p tail = true -> p c = false ->
  (forall ch s' caps', ch = c \/ p ch = true -> k (String ch s') caps' = None) ->
  star_loop p k (tail +:+ String c rest) caps = None.
Proof.
  intros Htail Hc Hfail. induction tail as [|t tail IH].
  - change ("" +:+ String c rest) with (String c rest). simpl. rewrite Hc.
    apply Hfail. left. reflexivity.
  - simpl in Htail. apply andb_true_iff in Htail as [Ht Htail].
    rewrite append_cons. simpl. rewrite Ht, (IH Htail).
    apply Hfail. right. exact Ht.
Qed.

Lemma funcRegex_not_def indent c rest :
  all_chars space indent = true -> space c = false -> c <> "d"%char ->
  exec funcRegex (indent +:+ String c rest) = None.
Proof.
  intros Hindent Hc Hd. unfold exec, funcRegex. rewrite run_seq. cbn [run].
  apply star_loop_fails; [exact Hindent | exact Hc |].
  intros ch s' caps' Hch. simpl.
  destruct (Ascii.eqb_spec ch "d") as [->|_]; [|reflexivity].
  destruct Hch as [<-|Hsp]; [congruence|]. vm_compute in Hsp. discriminate.
Qed.

Lemma classRegex_first c s : c <> "c"%char -> exec classRegex (String c s) = None.
Proof.
  intros Hc. unfold exec, classRegex. simpl.
  destruct (Ascii.eqb_spec c "c"); [contradiction | reflexivity].
Qed.

Lemma varRegex_first c s :
  upper c || one "_" c = false -> exec varRegex (String c s) = None.
Proof. intros Hc. unfold exec, varRegex. simpl. rewrite Hc. reflexivity. Qed.

Lemma space_char_facts c :
  space c = true ->
  c <> "c"%char /\ c <> "d"%char /\ upper c || one "_" c = false.
Proof.
  destruct c as [[] [] [] [] [] [] [] []]; vm_compute; intros;
    repeat split; congruence.
Qed.

(** An indented line whose text does not start with [d] leaves nothing. *)
Lemma python_facts_indented n indent c rest :
  indent <> "" -> all_chars space indent = true ->
  space c = false -> c <> "d"%char ->
  python_facts n (indent +:+ String c rest) = no_facts.
Proof.
  intros Hne Hindent Hc Hd. unfold python_facts.
  rewrite (funcRegex_not_def indent c rest Hindent Hc Hd).
  destruct indent as [|a indent]; [congruence|].
  simpl in Hindent. apply andb_true_iff in Hindent as [Ha _].
  rewrite append_cons.
  destruct (PythonFacts.space_not_f_i a Ha) as [Hf Hi].
  destruct (space_char_facts a Ha) as (Hcc & _ & Hu).
  rewrite (PythonFacts.importRegex_first a _ Hf Hi).
  rewrite (classRegex_first a _ Hcc), (varRegex_first a _ Hu). reflexivity.
Qed.

(** X7.  An indented line whose text starts with anything but the letter
    [d] (a nested class, an import or an assignment inside a block) leaves
    no record: nothing in the result carries its line number. *)
Theorem parsePython_indented_ignored `{PathModule} (path content : string) (j : nat)
    (indent : string) (c : ascii) (rest : string) :
  indent <> "" -> all_chars space indent = true ->
  space c = false -> c <> "d"%char ->
  JsString.split "010" content !! j = Some (indent +:+ String c rest) ->
  j + 1 ∉ concat (line_numbers
                    (facts_in (parsePython content (new_result path content)))).
Proof.
  intros Hne Hindent Hc Hd Hline Hin.
  rewrite (proj1 (parsePython_new_result path content)) in Hin.
  destruct (python_all_origin _ 0 _ Hin) as (j' & line & Hj' & Heq & Hsome).
  assert (j' = j) by lia. subst j'. rewrite Hline in Hj'. injection Hj' as <-.
  rewrite (python_facts_indented _ indent c rest Hne Hindent Hc Hd) in Hsome.
  apply Hsome. reflexivity.
Qed.

Import NodePath.

Lemma parsePython_indented_ignored_witness :
  JsString.split "010" MoreSamples.python_module !! 4 = Some "    class Inner:"
  /\ 5 ∉ concat (line_numbers
                   (facts_in (parsePython MoreSamples.python_module
                                (new_result "m.py" MoreSamples.python_module)))).
Proof.
  split; [reflexivity|].
  apply (parsePython_indented_ignored "m.py" MoreSamples.python_module 4
           "    " "c" "lass Inner:");
    [discriminate | reflexivity | reflexivity | discriminate | reflexivity].
Defined.

(** *** Import statements and constants *)

Lemma run_opt_skipped r s caps k :
  run r s caps k = None -> run (Opt r) s caps k = k s caps.
Proof. intros Hr. simpl. rewrite Hr. reflexivity. Qed.

Lemma run_eol caps k : run Eol "" caps k = k "" caps.
Proof. reflexivity. Qed.

Lemma run_group_plus_end i p cs caps k res :
  cs <> "" -> all_chars p cs = true ->
  k "" ((i, cs) :: caps) = Some res ->
  run (Group i (Plus p)) cs caps k = Some res.
Proof.
  intros Hne Hall Hk.
  pose proof (run_group_plus_exact i p cs "" caps k res Hne Hall eq_refl Hk) as Hrun.
  rewrite append_empty_r in Hrun. exact Hrun.
Qed.

Lemma nonspace_stops s tail :
  s <> "" -> all_chars nonspace s = true -> stops space (s +:+ tail) = true.
Proof.
  intros Hne Hall. apply (stops_append space nonspace); [assumption..|].
  intros c Hc. unfold nonspace in Hc. apply negb_true_iff in Hc. exact Hc.
Qed.

Lemma importRegex_plain names :
  names <> "" -> all_chars dot names = true -> stops space names = true ->
  exec importRegex ("import" +:+ " " +:+ names) = Some [(2, names)].
Proof.
  intros Hne Hdot Hstop. unfold exec, importRegex.
  rewrite run_seq, run_opt_skipped by reflexivity.
  rewrite run_lit, run_seq.
  apply (run_plus_exact space " "); [discriminate | reflexivity | exact Hstop |].
  rewrite run_seq. apply run_group_plus_end; [assumption..|].
  reflexivity.
Qed.

Lemma importRegex_from module names :
  module <> "" -> all_chars nonspace module = true ->
  names <> "" -> all_chars dot names = true -> stops space names = true ->
  exec importRegex ("from" +:+ " " +:+ module +:+ " " +:+ "import" +:+ " " +:+ names)
  = Some [(2, names); (1, module)].
Proof.
  intros Hm Hmod Hne Hdot Hstop. unfold exec, importRegex.
  rewrite run_seq. apply run_opt_taken.
  rewrite run_lit, run_seq.
  apply (run_plus_exact space " ");
    [discriminate | reflexivity | apply nonspace_stops; assumption |].
  rewrite run_seq. apply run_group_plus_exact; [assumption.. | reflexivity |].
  apply (run_plus_exact space " "); [discriminate | reflexivity | reflexivity |].
  rewrite run_lit, run_seq.
  apply (run_plus_exact space " "); [discriminate | reflexivity | exact Hstop |].
  rewrite run_seq. apply run_group_plus_end; [assumption..|].
  reflexivity.
Qed.

(** X8.  A line [from M import N] gives an import record whose source is
    the module [M]; a line [import N] gives one whose source is the text
    [N] after the keyword, whole.  [M] is a run of non-space characters
    and [N] starts with a non-space character. *)
Theorem parsePython_imports `{PathModule} (path content : string) (j : nat)
    (from : option string) (names : string) :
  names <> "" -> all_chars dot names = true -> stops space names = true ->
  (forall module, from = Some module ->
     module <> "" /\ all_chars nonspace module = true) ->
  JsString.split "010" content !! j
    = Some (match from with
            | Some module => "from " +:+ module +:+ " import " +:+ names
            | None => "import " +:+ names
            end) ->
  {| imp_source := Some (default names from); imp_specifiers := None;
     imp_line := j + 1 |}
  ∈ imports (parsePython content (new_result path content)).
Proof.
  intros Hne Hdot Hstop Hfrom Hline.
  assert (Hin : forall x, x ∈ f_imports (python_facts (0 + j + 1) _) ->
                          x ∈ f_imports (python_all (JsString.split "010" content) 0))
    by apply (proj1 (python_all_at _ 0 j _ Hline)).
  pose proof (proj1 (parsePython_new_result path content)) as Hfacts.
  apply (f_equal f_imports) in Hfacts. simpl in Hfacts. rewrite Hfacts.
  apply Hin. unfold python_facts. destruct from as [module|].
  - destruct (Hfrom module eq_refl) as [Hm Hmod].
    change ("from " +:+ module +:+ " import " +:+ names)
      with ("from" +:+ " " +:+ module +:+ " " +:+ "import" +:+ " " +:+ names).
    rewrite (importRegex_from module names Hm Hmod Hne Hdot Hstop). simpl.
    unfold JsString.truthy. destruct (String.eqb_spec module ""); [congruence|].
    left.
  - change ("import " +:+ names) with ("import" +:+ " " +:+ names).
    rewrite (importRegex_plain names Hne Hdot Hstop). simpl.
    unfold JsString.truthy. destruct (String.eqb_spec names ""); [congruence|].
    left.
Qed.

Lemma parsePython_imports_witness :
  {| imp_source := Some "os"; imp_specifiers := None; imp_line := 1 |}
  ∈ imports (parsePython MoreSamples.python_module
               (new_result "m.py" MoreSamples.python_module))
  /\ {| imp_source := Some "a.b"; imp_specifiers := None; imp_line := 2 |}
     ∈ imports (parsePython MoreSamples.python_module
                  (new_result "m.py" MoreSamples.python_module)).
Proof.
  split.
  - apply (parsePython_imports "m.py" MoreSamples.python_module 0 None "os");
      [discriminate | reflexivity | reflexivity | discriminate | reflexivity].
  - apply (parsePython_imports "m.py" MoreSamples.python_module 1 (Some "a.b") "c, d");
      [discriminate | reflexivity | reflexivity | | reflexivity].
    intros module Hmod. injection Hmod as <-. split; [discriminate | reflexivity].
Defined.

Lemma constant_char_facts c :
  upper c || one "_" c = true ->
  Ascii.eqb c "f" = false /\ Ascii.eqb c "i" = false /\ space c = false
  /\ c <> "d"%char /\ c <> "c"%char.
Proof.
  destruct c as [[] [] [] [] [] [] [] []]; vm_compute; intros;
    repeat split; congruence.
Qed.

Lemma varRegex_constant name ws rest :
  constant_name name = true -> all_chars space ws = true ->
  exec varRegex (name +:+ ws +:+ "=" +:+ rest) = Some [(1, name)].
Proof.
  intros Hname Hws. destruct name as [|c name]; [discriminate|].
  simpl in Hname. apply andb_true_iff in Hname as [Hc Hname].
  unfold exec, varRegex. rewrite run_seq. rewrite append_cons. cbn [run].
  rewrite Hc.
  assert (Hstop : stops (fun c => upper c || digit c || one "_" c)
                    (ws +:+ "=" +:+ rest) = true).
  { destruct ws as [|w ws]; [reflexivity|].
    simpl in Hws. apply andb_true_iff in Hws as [Hw _].
    rewrite append_cons. simpl.
    destruct w as [[] [] [] [] [] [] [] []]; vm_compute in Hw |- *; congruence. }
  apply star_loop_exact; [exact Hname | exact Hstop |]. cbv beta.
  change (String c (name +:+ ws +:+ "=" +:+ rest))
    with (String c name +:+ ws +:+ "=" +:+ rest).
  rewrite consumed_append.
  apply star_loop_exact; [exact Hws | reflexivity |]. reflexivity.
Qed.

(** X9.  A line at column 0 that starts with a name in capitals, digits
    and underscores (not starting with a digit), followed by optional
    white space and an equals sign, gives a variable record with that
    name. *)
Theorem parsePython_constant `{PathModule} (path content : string) (j : nat)
    (name ws rest : string) :
  constant_name name = true -> all_chars space ws = true ->
  JsString.split "010" content !! j = Some (name +:+ ws +:+ "=" +:+ rest) ->
  {| var_name := name; var_kind := None; var_line := j + 1 |}
  ∈ variables (parsePython content (new_result path content)).
Proof.
  intros Hname Hws Hline.
  assert (Hin : forall x, x ∈ f_variables (python_facts (0 + j + 1) _) ->
                          x ∈ f_variables (python_all (JsString.split "010" content) 0))
    by apply (python_all_at _ 0 j _ Hline).
  pose proof (proj1 (parsePython_new_result path content)) as Hfacts.
  apply (f_equal f_variables) in Hfacts. simpl in Hfacts. rewrite Hfacts.
  apply Hin. unfold python_facts.
  rewrite (varRegex_constant name ws rest Hname Hws).
  destruct name as [|c name]; [discriminate|].
  simpl in Hname. apply andb_true_iff in Hname as [Hc _].
  destruct (constant_char_facts c Hc) as (Hf & Hi & Hsp & Hd & Hcc).
  rewrite append_cons.
  rewrite (PythonFacts.importRegex_first c _ Hf Hi).
  pose proof (funcRegex_not_def "" c (name +:+ ws +:+ "=" +:+ rest) eq_refl Hsp Hd)
    as Hfunc.
  change ("" +:+ String c (name +:+ ws +:+ "=" +:+ rest))
    with (String c (name +:+ ws +:+ "=" +:+ rest)) in Hfunc.
  rewrite Hfunc.
  rewrite (classRegex_first c _ Hcc). simpl. left.
Qed.

Lemma parsePython_constant_witness :
  {| var_name := "MAX_SIZE"; var_kind := None; var_line := 3 |}
  ∈ variables (parsePython MoreSamples.python_module
                 (new_result "m.py" MoreSamples.python_module)).
Proof.
  apply (parsePython_constant "m.py" MoreSamples.python_module 2 "MAX_SIZE" " " " 10");
    reflexivity.
Defined.

End PythonMore.

(** ** More on the extraction call *)

Module ParseFileMore.
Import ESTree Parser WalkFacts Derived.

Section Generic.
Variable acorn_parse : string -> Parse.
Variable JSON_parse : string -> Json.value + string.
Context `{PathModule}.

Lemma parseJavaScript_metadata content r options :
  filePath (parseJavaScript acorn_parse content r options) = filePath r
  /\ fileName (parseJavaScript acorn_parse content r options) = fileName r
  /\ extension (parseJavaScript acorn_parse content r options) = extension r
  /\ lines (parseJavaScript acorn_parse content r options) = lines r
  /\ size (parseJavaScript acorn_parse content r options) = size r.
Proof.
  unfold parseJavaScript. rewrite fold_onComment.
  destruct (outcome (acorn_parse content)); [|repeat split; reflexivity].
  destruct (walk (acorn_parse content)).
  - rewrite simple_visit. destruct (showAst options); repeat split; reflexivity.
  - rewrite visits_facts. destruct (showAst options); repeat split; reflexivity.
Qed.

Lemma parsePython_metadata content r :
  filePath (parsePython content r) = filePath r
  /\ fileName (parsePython content r) = fileName r
  /\ extension (parsePython content r) = extension r
  /\ lines (parsePython content r) = lines r
  /\ size (parsePython content r) = size r.
Proof.
  unfold parsePython. rewrite PythonMore.python_lines_facts. repeat split; reflexivity.
Qed.

(** X10.  Whatever the extension and whatever the parsers do, the record
    names the file it was asked about and measures the content it was
    given: the path, its base name and extension, the number of lines (one
    more than the number of line feeds, so at least 1, also for the empty
    content) and the length. *)
Theorem parseFile_metadata (path content : string) (options : Options) :
  let r := parseFile acorn_parse JSON_parse path content options in
  filePath r = path
  /\ fileName r = basename path
  /\ extension r = extname path
  /\ lines r = length (JsString.split "010" content)
  /\ 1 <= lines r
  /\ size r = String.length content.
Proof.
  intros r.
  assert (Hmeta : filePath r = path /\ fileName r = basename path
                  /\ extension r = extname path
                  /\ lines r = length (JsString.split "010" content)
                  /\ size r = String.length content).
  { subst r. unfold parseFile.
    destruct (Scanner.Array_includes [".js"; ".mjs"; ".cjs"] (extname path));
      [apply parseJavaScript_metadata|].
    destruct (Scanner.Array_includes [".ts"; ".tsx"] (extname path));
      [apply parseJavaScript_metadata|].
    destruct (Scanner.Array_includes [".jsx"] (extname path));
      [apply parseJavaScript_metadata|].
    destruct (String.eqb (extname path) ".py"); [apply parsePython_metadata|].
    destruct (String.eqb (extname path) ".json"); [|repeat split; reflexivity].
    unfold parseJSON. destruct (JSON_parse content); repeat split; reflexivity. }
  destruct Hmeta as (Hp & Hn & He & Hl & Hs).
  repeat split; try assumption.
  rewrite Hl. destruct content as [|c content]; simpl; [lia|].
  destruct (Ascii.eqb c "010"); [simpl; lia|].
  destruct (JsString.split "010" content); simpl; lia.
Qed.

(** X11.  For a [.json] file the record has no imports, exports,
    functions, classes, variables or comments, and exactly one of the
    descriptor and the error: the descriptor of the parsed value from depth
    0 when [JSON.parse] succeeds, the message when it throws. *)
Theorem parseFile_json (path content : string) (options : Options) :
  extname path = ".json" ->
  let r := parseFile acorn_parse JSON_parse path content options in
  facts_in r = no_facts /\ comments r = [] /\ ast r = None
  /\ match JSON_parse content with
     | inl json => structure r = Some (Json.getJSONStructure json 0)
                   /\ parseError r = None
     | inr message => structure r = None /\ parseError r = Some message
     end.
Proof.
  intros Hext r. subst r. unfold parseFile. rewrite Hext. simpl.
  unfold parseJSON. destruct (JSON_parse content); repeat split; reflexivity.
Qed.

End Generic.

Import NodePath.

Lemma parseFile_json_witness :
  structure (parseFile (Samples.acorn_returns Samples.block) Samples.no_json
               "data.json" "{" Samples.default_options) = None
  /\ parseError (parseFile (Samples.acorn_returns Samples.block) Samples.no_json
                   "data.json" "{" Samples.default_options)
     = Some "Unexpected end of JSON input".
Proof.
  apply (parseFile_json (Samples.acorn_returns Samples.block) Samples.no_json
           "data.json" "{" Samples.default_options).
  reflexivity.
Defined.

End ParseFileMore.

(** ** More on the ECMAScript extractor *)

Module EcmaMore.
Import ESTree Parser WalkFacts Derived.

Section Generic.
Variable acorn_parse : string -> Parse.
Context `{PathModule}.

(** The lists of a successful parse and walk of a fresh record. *)
Lemma parsed_lists path content options tree :
  outcome (acorn_parse content) = Parsed tree ->
  walk (acorn_parse content) = Returns ->
  let r := parseJavaScript acorn_parse content (new_result path content) options in
  exports r = flat_map (fun n => f_exports (facts_of n)) (postorder tree)
  /\ functions r
     = map (mark_function (map exp_name (exports r)))
         (flat_map (fun n => f_functions (facts_of n)) (postorder tree))
  /\ classes r
     = map (mark_class (map exp_name (exports r)))
         (flat_map (fun n => f_classes (facts_of n)) (postorder tree)).
Proof.
  intros Hparsed Hwalk r.
  destruct (parseJavaScript_parsed acorn_parse content (new_result path content)
              options tree Hparsed Hwalk) as (Hx & Hf & Hc & _).
  repeat split; assumption.
Qed.

(** The function and class records of a fresh record, up to the flag, are
    those of the nodes the callbacks have run on, however the walk ends. *)
Lemma walked_lists path content options tree :
  outcome (acorn_parse content) = Parsed tree ->
  let r := parseJavaScript acorn_parse content (new_result path content) options in
  let nodes := walked (acorn_parse content) tree in
  (forall f0, In f0 (flat_map (fun n => f_functions (facts_of n)) nodes) ->
     exists f, f ∈ functions r
               /\ fn_name f = fn_name f0 /\ fn_params f = fn_params f0
               /\ fn_line f = fn_line f0 /\ fn_async f = fn_async f0
               /\ fn_generator f = fn_generator f0)
  /\ (forall f, f ∈ functions r ->
        exists f0, In f0 (flat_map (fun n => f_functions (facts_of n)) nodes)
                   /\ fn_name f = fn_name f0 /\ fn_params f = fn_params f0
                   /\ fn_line f = fn_line f0)
  /\ (forall c0, In c0 (flat_map (fun n => f_classes (facts_of n)) nodes) ->
        exists c, c ∈ classes r
                  /\ cls_name c = cls_name c0 /\ cls_superClass c = cls_superClass c0
                  /\ cls_methods c = cls_methods c0 /\ cls_line c = cls_line c0)
  /\ (forall c, c ∈ classes r ->
        exists c0, In c0 (flat_map (fun n => f_classes (facts_of n)) nodes)
                   /\ cls_name c = cls_name c0 /\ cls_line c = cls_line c0
                   /\ cls_methods c = cls_methods c0).
Proof.
  intros Hparsed r nodes.
  destruct (parseJavaScript_walked acorn_parse content (new_result path content)
              options tree Hparsed) as (_ & Hf & Hc & _).
  fold r nodes in Hf, Hc. simpl in Hf, Hc.
  destruct (walk (acorn_parse content)); rewrite Hf, Hc;
    (split; [|split; [|split]]).
  - intros f0 Hf0. eexists. split; [apply list_elem_of_In, in_map, Hf0|].
    repeat split.
  - intros f Hin. apply list_elem_of_In, in_map_iff in Hin as (f0 & <- & Hf0).
    exists f0. repeat split. exact Hf0.
  - intros c0 Hc0. eexists. split; [apply list_elem_of_In, in_map, Hc0|].
    repeat split.
  - intros c Hin. apply list_elem_of_In, in_map_iff in Hin as (c0 & <- & Hc0).
    exists c0. repeat split. exact Hc0.
  - intros f0 Hf0. exists f0. split; [apply list_elem_of_In, Hf0|]. repeat split.
  - intros f Hin. exists f. split; [apply list_elem_of_In, Hin|]. repeat split.
  - intros c0 Hc0. exists c0. split; [apply list_elem_of_In, Hc0|]. repeat split.
  - intros c Hin. exists c. split; [apply list_elem_of_In, Hin|]. repeat split.
Qed.

(** What the callbacks write into the exported flag. *)
Lemma unmarked_function n f :
  In f (f_functions (facts_of n)) -> fn_exported f <> Some true.
Proof.
  intros Hf. destruct n; simpl in Hf; try contradiction.
  - destruct type; simpl in Hf; try contradiction.
    destruct Hf as [<-|[]]. discriminate.
  - destruct type; contradiction.
  - apply in_flat_map in Hf as ([id init] & _ & Hf).
    destruct id; simpl in Hf; try contradiction.
    destruct init as [[]|]; simpl in Hf; try contradiction.
    destruct type; simpl in Hf; try contradiction;
      destruct Hf as [<-|[]]; discriminate.
Qed.

Lemma unmarked_class n c :
  In c (f_classes (facts_of n)) -> cls_exported c = None.
Proof.
  intros Hc. destruct n; simpl in Hc; try contradiction;
    try (destruct type; simpl in Hc; try contradiction).
  destruct Hc as [<-|[]]. reflexivity.
Qed.

(** X12.  When the parse succeeds and the walk returns, the exported flag
    of every function record is set, and two function records with the
    same name carry the same flag: it is a property of the name, not of
    the declaration.  When the walk throws, the record carries the message
    and no flag has been computed: no function record is flagged exported
    and no class record has a flag. *)
Theorem parseJavaScript_flag_by_name (path content : string) (options : Options)
    (tree : node) :
  outcome (acorn_parse content) = Parsed tree ->
  let r := parseJavaScript acorn_parse content (new_result path content) options in
  (walk (acorn_parse content) = Returns ->
   forall f g, f ∈ functions r -> g ∈ functions r -> fn_name f = fn_name g ->
     fn_exported f = fn_exported g /\ fn_exported f <> None)
  /\ (forall visited message,
        walk (acorn_parse content) = Throws visited message ->
        parseError r = Some message
        /\ (forall f, f ∈ functions r -> fn_exported f <> Some true)
        /\ (forall c, c ∈ classes r -> cls_exported c = None)).
Proof.
  intros Hparsed r. split.
  - intros Hwalk f g Hf Hg Hname.
    destruct (parsed_lists path content options tree Hparsed Hwalk) as (_ & Hfs & _).
    fold r in Hfs. rewrite Hfs in Hf, Hg.
    apply list_elem_of_In, in_map_iff in Hf as (f0 & <- & _).
    apply list_elem_of_In, in_map_iff in Hg as (g0 & <- & _).
    simpl in *. rewrite Hname. split; [reflexivity | discriminate].
  - intros visited message Hwalk.
    destruct (parseJavaScript_walked acorn_parse content (new_result path content)
                options tree Hparsed) as (_ & Hf & Hc & _ & _ & _ & Herr).
    fold r in Hf, Hc, Herr. rewrite Hwalk in Hf, Hc, Herr. simpl in Hf, Hc.
    split; [exact Herr|]. split.
    + intros f Hin. rewrite Hf in Hin.
      apply list_elem_of_In, in_flat_map in Hin as (n & _ & Hin).
      exact (unmarked_function n f Hin).
    + intros c Hin. rewrite Hc in Hin.
      apply list_elem_of_In, in_flat_map in Hin as (n & _ & Hin).
      exact (unmarked_class n c Hin).
Qed.

(** X13.  When the parse succeeds and the walk returns, a function
    declaration that is the default export is flagged exported, under its
    own name or, without one, under [anonymous]. *)
Theorem parseJavaScript_default_export (path content : string) (options : Options)
    (tree : node) (line l : nat) (id : option node) (params : list node) (body : node)
    (async generator : bool) :
  outcome (acorn_parse content) = Parsed tree ->
  walk (acorn_parse content) = Returns ->
  ExportDefaultDeclaration line
    (Function FunctionDeclaration l id params body async generator)
    ∈ postorder tree ->
  exists f,
    f ∈ functions (parseJavaScript acorn_parse content (new_result path content) options)
    /\ fn_name f = JsString.or_default (opt_name id) "anonymous"
    /\ fn_line f = l
    /\ fn_exported f = Some true.
Proof.
  intros Hparsed Hwalk Hn.
  destruct (parsed_lists path content options tree Hparsed Hwalk) as (Hx & Hfs & _).
  apply list_elem_of_In in Hn.
  set (r := parseJavaScript acorn_parse content (new_result path content) options) in *.
  set (d := Function FunctionDeclaration l id params body async generator) in *.
  assert (Hd : In d (postorder tree)).
  { apply (kid_walked tree _ _ Hn). left. reflexivity. }
  assert (He : In {| exp_type := "default";
                     exp_name := Some (JsString.or_default (opt_name id) "anonymous");
                     exp_line := line |} (exports r)).
  { rewrite Hx. apply in_flat_map. eexists. split; [exact Hn|].
    simpl. left. reflexivity. }
  exists (mark_function (map exp_name (exports r))
            {| fn_name := JsString.or_default (opt_name id) "anonymous";
               fn_params := map param_name params;
               fn_async := Some async; fn_generator := Some generator;
               fn_arrow := None; fn_line := l; fn_exported := Some false;
               fn_isMethod := None |}).
  split; [|split; [reflexivity|split; [reflexivity|]]].
  - rewrite Hfs. apply list_elem_of_In, in_map, in_flat_map.
    exists d. split; [exact Hd|]. left. reflexivity.
  - simpl. f_equal. apply (EcmaFacts.name_exported _ _ He).
Qed.

(** The function records of a node, whatever its kind. *)
Lemma function_origin n f :
  In f (f_functions (facts_of n)) ->
  (exists line id params body async generator,
     n = Function FunctionDeclaration line id params body async generator
     /\ fn_name f = JsString.or_default (opt_name id) "anonymous"
     /\ fn_params f = map param_name params /\ fn_line f = line)
  \/ (exists line kind declarations name init,
        n = VariableDeclaration line kind declarations
        /\ In (Identifier name, init) declarations
        /\ function_init init = true
        /\ fn_name f = name /\ fn_line f = line).
Proof.
  intros Hf. destruct n; simpl in Hf; try contradiction.
  - destruct type; simpl in Hf; try contradiction.
    destruct Hf as [<-|[]]. left. eauto 10.
  - destruct type; contradiction.
  - right. apply in_flat_map in Hf as ([id init] & Hd & Hf).
    destruct id; simpl in Hf; try contradiction.
    destruct init as [[]|]; simpl in Hf; try contradiction.
    destruct type; simpl in Hf; try contradiction;
      destruct Hf as [<-|[]]; exists line, kind, declarations; eauto 10.
Qed.

(** X14.  After a successful parse, every function declaration the
    callbacks have run on, at any depth, gives a function record with its
    name, parameter names and line.  Conversely every function record
    comes from such a function declaration or from a declarator, of a
    variable declaration the callbacks have run on, named by an identifier
    and initialized with a function or arrow expression: a function
    expression used as a callback, a method or an immediately called
    function gives none.  The callbacks have run on every node of the tree
    when the walk returns, and on the nodes before the point where it threw
    otherwise. *)
Theorem parseJavaScript_functions (path content : string) (options : Options)
    (tree : node) :
  outcome (acorn_parse content) = Parsed tree ->
  let r := parseJavaScript acorn_parse content (new_result path content) options in
  let nodes := walked (acorn_parse content) tree in
  (forall line id params body async generator,
     Function FunctionDeclaration line id params body async generator ∈ nodes ->
     exists f, f ∈ functions r
               /\ fn_name f = JsString.or_default (opt_name id) "anonymous"
               /\ fn_params f = map param_name params /\ fn_line f = line
               /\ fn_async f = Some async /\ fn_generator f = Some generator)
  /\ (forall f, f ∈ functions r ->
        (exists line id params body async generator,
           Function FunctionDeclaration line id params body async generator ∈ nodes
           /\ fn_name f = JsString.or_default (opt_name id) "anonymous"
           /\ fn_params f = map param_name params /\ fn_line f = line)
        \/ (exists line kind declarations name init,
              VariableDeclaration line kind declarations ∈ nodes
              /\ (Identifier name, init) ∈ declarations
              /\ function_init init = true
              /\ fn_name f = name /\ fn_line f = line))
  /\ (walk (acorn_parse content) = Returns -> nodes = postorder tree)
  /\ (forall visited message,
        walk (acorn_parse content) = Throws visited message ->
        nodes = firstn visited (postorder tree)).
Proof.
  intros Hparsed r nodes.
  destruct (walked_lists path content options tree Hparsed) as (Hto & Hfrom & _).
  fold r nodes in Hto, Hfrom.
  split; [|split; [|split]].
  - intros line id params body async generator Hn. apply list_elem_of_In in Hn.
    destruct (Hto {| fn_name := JsString.or_default (opt_name id) "anonymous";
                     fn_params := map param_name params;
                     fn_async := Some async; fn_generator := Some generator;
                     fn_arrow := None; fn_line := line; fn_exported := Some false;
                     fn_isMethod := None |})
      as (f & Hf & Hnm & Hps & Hl & Ha & Hg).
    { apply in_flat_map. eexists. split; [exact Hn|]. left. reflexivity. }
    exists f. repeat split; assumption.
  - intros f Hf. destruct (Hfrom f Hf) as (f0 & Hf0 & Hnm & Hps & Hl).
    apply in_flat_map in Hf0 as (n & Hn & Hf0).
    rewrite Hnm, Hps, Hl.
    destruct (function_origin n f0 Hf0)
      as [(line & id & params & body & async & generator & -> & Hnm0 & Hps0 & Hl0)
         |(line & kind & decls & name & init & -> & Hd & Hi & Hnm0 & Hl0)].
    + left. exists line, id, params, body, async, generator.
      repeat split; try assumption. apply list_elem_of_In. exact Hn.
    + right. exists line, kind, decls, name, init.
      repeat split; try assumption; apply list_elem_of_In; assumption.
  - intros Hwalk. subst nodes. unfold walked. rewrite Hwalk. reflexivity.
  - intros visited message Hwalk. subst nodes. unfold walked. rewrite Hwalk.
    reflexivity.
Qed.

(** X15.  After a successful parse, every class declaration the callbacks
    have run on gives a class record with its name, the name of its parent
    when the parent is an identifier, and its method definitions in order;
    every class record comes from such a class declaration, never from a
    class expression.  The callbacks have run on every node of the tree
    when the walk returns, and on the nodes before the point where it threw
    otherwise. *)
Theorem parseJavaScript_classes (path content : string) (options : Options)
    (tree : node) :
  outcome (acorn_parse content) = Parsed tree ->
  let r := parseJavaScript acorn_parse content (new_result path content) options in
  let nodes := walked (acorn_parse content) tree in
  (forall line id superClass body,
     Class ClassDeclaration line id superClass body ∈ nodes ->
     exists c, c ∈ classes r
               /\ cls_name c = opt_name id
               /\ cls_superClass c = opt_name superClass
               /\ cls_methods c = Some (flat_map method_of body)
               /\ cls_line c = line)
  /\ (forall c, c ∈ classes r ->
        exists line id superClass body,
          Class ClassDeclaration line id superClass body ∈ nodes
          /\ cls_name c = opt_name id /\ cls_line c = line
          /\ cls_methods c = Some (flat_map method_of body))
  /\ (walk (acorn_parse content) = Returns -> nodes = postorder tree)
  /\ (forall visited message,
        walk (acorn_parse content) = Throws visited message ->
        nodes = firstn visited (postorder tree)).
Proof.
  intros Hparsed r nodes.
  destruct (walked_lists path content options tree Hparsed) as (_ & _ & Hto & Hfrom).
  fold r nodes in Hto, Hfrom.
  split; [|split; [|split]].
  - intros line id superClass body Hn. apply list_elem_of_In in Hn.
    destruct (Hto {| cls_name := opt_name id; cls_superClass := opt_name superClass;
                     cls_methods := Some (flat_map method_of body);
                     cls_line := line; cls_exported := None |})
      as (c & Hc & Hnm & Hs & Hm & Hl).
    { apply in_flat_map. eexists. split; [exact Hn|]. left. reflexivity. }
    exists c. repeat split; assumption.
  - intros c Hc. destruct (Hfrom c Hc) as (c0 & Hc0 & Hnm & Hl & Hm).
    apply in_flat_map in Hc0 as (n & Hn & Hc0).
    rewrite Hnm, Hl, Hm.
    destruct n; simpl in Hc0; try contradiction;
      try (destruct type; simpl in Hc0; try contradiction).
    destruct Hc0 as [<-|[]].
    exists line, id, superClass, body.
    repeat split. apply list_elem_of_In. exact Hn.
  - intros Hwalk. subst nodes. unfold walked. rewrite Hwalk. reflexivity.
  - intros visited message Hwalk. subst nodes. unfold walked. rewrite Hwalk.
    reflexivity.
Qed.

End Generic.

Import NodePath.

(** In [tree_shadow] two declarations share the name [f], which is
    exported once: the record of the inner one, with a parameter, and the
    record of the outer one carry the same flag.  When the walk over
    [tree_nested] throws after five nodes, the record carries the message. *)
Lemma parseJavaScript_flag_by_name_witness :
  (exists f g,
     f ∈ functions (parseJavaScript (Samples.acorn_returns MoreSamples.tree_shadow)
                      MoreSamples.js_shadow (new_result "a.js" MoreSamples.js_shadow)
                      Samples.default_options)
     /\ g ∈ functions (parseJavaScript (Samples.acorn_returns MoreSamples.tree_shadow)
                         MoreSamples.js_shadow (new_result "a.js" MoreSamples.js_shadow)
                         Samples.default_options)
     /\ fn_params f = ["x"] /\ fn_params g = []
     /\ fn_exported f = fn_exported g /\ fn_exported f <> None)
  /\ parseError (parseJavaScript (Samples.acorn_overflows MoreSamples.tree_nested 5)
                   MoreSamples.js_nested (new_result "a.js" MoreSamples.js_nested)
                   Samples.default_options)
     = Some "Maximum call stack size exceeded".
Proof.
  split.
  - exists {| fn_name := "f"; fn_params := ["x"]; fn_async := Some false;
              fn_generator := Some false; fn_arrow := None; fn_line := 1;
              fn_exported := Some true; fn_isMethod := None |},
           {| fn_name := "f"; fn_params := []; fn_async := Some false;
              fn_generator := Some false; fn_arrow := None; fn_line := 1;
              fn_exported := Some true; fn_isMethod := None |}.
    assert (Hf : {| fn_name := "f"; fn_params := ["x"]; fn_async := Some false;
                    fn_generator := Some false; fn_arrow := None; fn_line := 1;
                    fn_exported := Some true; fn_isMethod := None |}
                 ∈ functions
                     (parseJavaScript (Samples.acorn_returns MoreSamples.tree_shadow)
                        MoreSamples.js_shadow (new_result "a.js" MoreSamples.js_shadow)
                        Samples.default_options)) by left.
    assert (Hg : {| fn_name := "f"; fn_params := []; fn_async := Some false;
                    fn_generator := Some false; fn_arrow := None; fn_line := 1;
                    fn_exported := Some true; fn_isMethod := None |}
                 ∈ functions
                     (parseJavaScript (Samples.acorn_returns MoreSamples.tree_shadow)
                        MoreSamples.js_shadow (new_result "a.js" MoreSamples.js_shadow)
                        Samples.default_options)) by (right; left).
    split; [exact Hf|]. split; [exact Hg|]. split; [reflexivity|].
    split; [reflexivity|].
    exact (proj1 (parseJavaScript_flag_by_name
                    (Samples.acorn_returns MoreSamples.tree_shadow)
                    "a.js" MoreSamples.js_shadow Samples.default_options
                    MoreSamples.tree_shadow eq_refl) eq_refl _ _ Hf Hg eq_refl).
  - apply (proj2 (parseJavaScript_flag_by_name
                    (Samples.acorn_overflows MoreSamples.tree_nested 5)
                    "a.js" MoreSamples.js_nested Samples.default_options
                    MoreSamples.tree_nested eq_refl)
             5 "Maximum call stack size exceeded").
    reflexivity.
Defined.

Lemma parseJavaScript_default_export_witness :
  exists f,
    f ∈ functions (parseJavaScript (Samples.acorn_returns MoreSamples.tree_nested)
                     MoreSamples.js_nested
                     (new_result "a.js" MoreSamples.js_nested)
                     Samples.default_options)
    /\ fn_name f = "anonymous" /\ fn_line f = 3 /\ fn_exported f = Some true.
Proof.
  apply (parseJavaScript_default_export
           (Samples.acorn_returns MoreSamples.tree_nested)
           "a.js" MoreSamples.js_nested Samples.default_options
           MoreSamples.tree_nested 3 3 None [] Samples.block false false
           eq_refl eq_refl).
  do 17 right. left.
Defined.

Lemma parseJavaScript_functions_witness :
  exists f,
    f ∈ functions (parseJavaScript (Samples.acorn_returns MoreSamples.tree_nested)
                     MoreSamples.js_nested
                     (new_result "a.js" MoreSamples.js_nested)
                     Samples.default_options)
    /\ fn_name f = "inner" /\ fn_params f = ["x"] /\ fn_line f = 1
    /\ fn_async f = Some false /\ fn_generator f = Some false.
Proof.
  apply (proj1 (parseJavaScript_functions
                  (Samples.acorn_returns MoreSamples.tree_nested)
                  "a.js" MoreSamples.js_nested Samples.default_options
                  MoreSamples.tree_nested eq_refl)
           1 (Some (Identifier "inner")) [Identifier "x"] Samples.block false false).
  do 4 right. left.
Defined.

Lemma parseJavaScript_classes_witness :
  exists c,
    c ∈ classes (parseJavaScript (Samples.acorn_returns MoreSamples.tree_classes)
                   MoreSamples.js_classes
                   (new_result "a.js" MoreSamples.js_classes)
                   Samples.default_options)
    /\ cls_name c = Some "A" /\ cls_superClass c = Some "B"
    /\ cls_methods c
       = Some [{| m_name := Some "constructor"; m_kind := "constructor";
                  m_static := false |};
               {| m_name := Some "make"; m_kind := "method"; m_static := true |}]
    /\ cls_line c = 1.
Proof.
  apply (proj1 (parseJavaScript_classes
                  (Samples.acorn_returns MoreSamples.tree_classes)
                  "a.js" MoreSamples.js_classes Samples.default_options
                  MoreSamples.tree_classes eq_refl)
           1 (Some (Identifier "A")) (Some (Identifier "B"))
           [MoreSamples.method "constructor" "constructor" false;
            MoreSamples.method "make" "method" true]).
  do 8 right. left.
Defined.

Example classes_of_tree_classes :
  map cls_name
    (classes (parseJavaScript (Samples.acorn_returns MoreSamples.tree_classes)
                MoreSamples.js_classes (new_result "a.js" MoreSamples.js_classes)
                Samples.default_options)) = [Some "A"]
  /\ map fn_name
       (functions (parseJavaScript (Samples.acorn_returns MoreSamples.tree_nested)
                     MoreSamples.js_nested (new_result "a.js" MoreSamples.js_nested)
                     Samples.default_options)) = ["inner"; "outer"; "anonymous"].
Proof. split; reflexivity. Qed.

(** The same source when the walk throws after five nodes: the record has
    [inner] only, unflagged, and the error. *)
Example overflow_keeps_the_facts_so_far :
  map (fun f => (fn_name f, fn_exported f))
    (functions (parseJavaScript (Samples.acorn_overflows MoreSamples.tree_nested 5)
                  MoreSamples.js_nested (new_result "a.js" MoreSamples.js_nested)
                  Samples.default_options)) = [("inner", Some false)].
Proof. reflexivity. Qed.

End EcmaMore.

(** ** Plain objects: assignment and lookup *)

Module JsObjectFacts.
Import JsObject.

Section Props.
Context {A : Type}.
Implicit Types (o : list (string * A)) (k : string) (v : A).

Lemma get_update k v o : has_key k o = true -> get k (update k v o) = Some v.
Proof.
  induction o as [|[k' v'] o IH]; simpl; [discriminate|].
  destruct (String.eqb k' k) eqn:Hk; simpl.
  - intros _. rewrite String.eqb_refl. reflexivity.
  - intros Hin. rewrite Hk. apply IH, Hin.
Qed.

Lemma get_insert_new k v o : has_key k o = false -> get k (insert_new k v o) = Some v.
Proof.
  induction o as [|[k' v'] o IH]; simpl.
  - intros _. rewrite String.eqb_refl. reflexivity.
  - destruct (String.eqb k' k) eqn:Hk; simpl; [discriminate|]. intros Hin.
    destruct (array_index k) as [n|], (array_index k') as [n'|];
      try destruct (n <? n')%N; simpl;
      rewrite ?String.eqb_refl, ?Hk; auto.
Qed.

(** Reading back what was assigned. *)
Lemma get_assign k v o : k <> "__proto__" -> get k (assign k v o) = Some v.
Proof.
  intros Hk. unfold assign.
  destruct (String.eqb_spec k "__proto__"); [contradiction|].
  destruct (has_key k o) eqn:Hin; [apply get_update | apply get_insert_new]; exact Hin.
Qed.

Lemma get_update_other k k' v o : k <> k' -> get k' (update k v o) = get k' o.
Proof.
  intros Hne. induction o as [|[k0 v0] o IH]; simpl; [reflexivity|].
  destruct (String.eqb_spec k0 k) as [->|Hk0]; simpl.
  - destruct (String.eqb_spec k k'); [contradiction | reflexivity].
  - rewrite IH. reflexivity.
Qed.

Lemma get_insert_new_other k k' v o : k <> k' -> get k' (insert_new k v o) = get k' o.
Proof.
  intros Hne. induction o as [|[k0 v0] o IH]; simpl.
  - destruct (String.eqb_spec k k'); [contradiction | reflexivity].
  - destruct (array_index k) as [n|], (array_index k0) as [n0|];
      try destruct (n <? n0)%N; simpl;
      try rewrite IH;
      destruct (String.eqb_spec k k'); try contradiction; reflexivity.
Qed.

(** Assigning one name leaves the others. *)
Lemma get_assign_other k k' v o : k <> k' -> get k' (assign k v o) = get k' o.
Proof.
  intros Hne. unfold assign.
  destruct (String.eqb k "__proto__"); [reflexivity|].
  destruct (has_key k o);
    [apply get_update_other | apply get_insert_new_other]; exact Hne.
Qed.

Lemma length_update k v o : length (update k v o) = length o.
Proof.
  induction o as [|[k' v'] o IH]; simpl; [reflexivity|].
  destruct (String.eqb k' k); simpl; [reflexivity | rewrite IH; reflexivity].
Qed.

Lemma length_insert_new k v o : length (insert_new k v o) = S (length o).
Proof.
  induction o as [|[k' v'] o IH]; simpl; [reflexivity|].
  destruct (array_index k) as [n|], (array_index k') as [n'|];
    try destruct (n <? n')%N; simpl; rewrite ?IH; reflexivity.
Qed.

Lemma Forall_assign_entry (P : string * A -> Prop) k v o :
  P (k, v) -> Forall P o -> Forall P (assign k v o).
Proof.
  intros Hv Ho. unfold assign.
  destruct (String.eqb k "__proto__"); [assumption|].
  destruct (has_key k o).
  - induction Ho as [|[k' v'] r Hh Hr IH]; simpl; [constructor|].
    destruct (String.eqb k' k); constructor; auto.
  - induction Ho as [|[k' v'] r Hh Hr IH]; simpl.
    + constructor; auto.
    + destruct (array_index k) as [i|], (array_index k') as [i'|];
        try destruct (i <? i')%N; repeat (constructor; auto).
Qed.

(** An assignment adds at most one property. *)
Lemma length_assign k v o :
  length o <= length (assign k v o) <= S (length o).
Proof.
  unfold assign. destruct (String.eqb k "__proto__"); [lia|].
  destruct (has_key k o); rewrite ?length_update, ?length_insert_new; lia.
Qed.

End Props.

End JsObjectFacts.

(** ** More on the JSON descriptor *)

Module JsonMore.
Import Json JsObjectFacts.

Lemma each_length (f : value -> shape) : forall (n : nat) (ps : list (string * value)) acc,
  length ((fix each (n : nat) (ps : list (string * value))
              (structure : list (string * shape)) {struct ps} :=
             match n, ps with
             | S n', (key, v) :: ps' => each n' ps' (JsObject.assign key (f v) structure)
             | _, _ => structure
             end) n ps acc) <= length acc + Nat.min n (length ps).
Proof.
  intros n ps. revert n. induction ps as [|[k v] ps IH]; intros n acc.
  - destruct n; simpl; lia.
  - destruct n as [|n]; [simpl; lia|].
    specialize (IH n (JsObject.assign k (f v) acc)).
    pose proof (length_assign k (f v) acc). simpl Nat.min. simpl length at 3.
    etransitivity; [exact IH|]. lia.
Qed.

(** X16.  The descriptor of an object holds at most the first ten
    properties and the remainder note, so at most eleven keys.  When the
    object has more than ten properties, the key [...] of the descriptor
    holds the note with the number of properties left out, also when one of
    the first ten properties has that name: the note overwrites it. *)
Theorem getJSONStructure_object_keys (props : list (string * value)) (depth : nat) :
  depth <= 3 ->
  exists keys,
    getJSONStructure (JObject props) depth = ShObject keys
    /\ length keys <= 11
    /\ length keys <= S (length props)
    /\ (10 < length props ->
        JsObject.get "..." keys
        = Some (ShString (JsString.of_nat (length props - 10) +:+ " more keys"))).
Proof.
  intros Hd. apply Nat.ltb_ge in Hd. simpl. rewrite Hd.
  eexists. split; [reflexivity|].
  pose proof (each_length (fun v => getJSONStructure v (depth + 1)) 10 props [])
    as Hlen. simpl length in Hlen.
  set (first := (fix each (n : nat) (ps : list (string * value))
                     (structure : list (string * shape)) {struct ps} :=
                   match n, ps with
                   | S n', (key, v) :: ps' =>
                       each n' ps'
                         (JsObject.assign key (getJSONStructure v (depth + 1)) structure)
                   | _, _ => structure
                   end) 10 props []) in *.
  destruct (Nat.ltb_spec 10 (length props)) as [Hmore|Hfew].
  - pose proof (length_assign "..."
                  (ShString (JsString.of_nat (length props - 10) +:+ " more keys"))
                  first) as Ha.
    split; [lia|]. split; [lia|]. intros _. apply get_assign. discriminate.
  - split; [lia|]. split; [lia|]. intros Hmore. lia.
Qed.

Lemma getJSONStructure_object_keys_witness :
  exists keys,
    getJSONStructure MoreSamples.twelve_keys 0 = ShObject keys
    /\ length keys <= 11
    /\ JsObject.get "..." keys = Some (ShString "2 more keys").
Proof.
  destruct (getJSONStructure_object_keys
              (map (fun k => (k, JNull))
                 ["a"; "b"; "..."; "d"; "e"; "f"; "g"; "h"; "i"; "j"; "k"; "l"]) 0)
    as (keys & Hk & Hlen & _ & Hnote); [lia|].
  exists keys. split; [exact Hk|]. split; [exact Hlen|].
  apply Hnote. simpl. lia.
Defined.

(** X17.  The descriptor of an array reports its length and describes its
    first item only: two arrays of the same length with the same first item
    have the same descriptor, whatever else they hold, and an empty array
    has no item descriptor. *)
Theorem getJSONStructure_array_first (items others : list value) (depth : nat) :
  length items = length others -> hd_error items = hd_error others ->
  getJSONStructure (JArray items) depth = getJSONStructure (JArray others) depth
  /\ (depth <= 3 ->
      getJSONStructure (JArray items) depth
      = ShArray (length items)
          (option_map (fun first => getJSONStructure first (depth + 1))
             (hd_error items))).
Proof.
  intros Hlen Hhd. split.
  - simpl. rewrite Hlen.
    destruct items, others; simpl in Hhd; try discriminate; [reflexivity|].
    injection Hhd as ->. reflexivity.
  - intros Hd. apply Nat.ltb_ge in Hd. simpl. rewrite Hd.
    destruct items; reflexivity.
Qed.

Lemma getJSONStructure_array_first_witness :
  getJSONStructure (JArray [JNumber 1%Q; JString "x"; JNull]) 0
  = getJSONStructure (JArray [JNumber 1%Q; JArray []; JBool true]) 0.
Proof.
  exact (proj1 (getJSONStructure_array_first
                  [JNumber 1%Q; JString "x"; JNull]
                  [JNumber 1%Q; JArray []; JBool true] 0 eq_refl eq_refl)).
Defined.

End JsonMore.

(** ** More on the dependency and entry-point probes *)

Module AnalyzerMore.
Import Json Analyzer Regex RegexFacts RegexMore Derived JsObjectFacts.

Lemma operator_is_dot c : operator_char c = true -> dot c = true.
Proof. destruct c as [[] [] [] [] [] [] [] []]; vm_compute; congruence. Qed.

Lemma operator_not_name c : operator_char c = true -> name_char c = false.
Proof. destruct c as [[] [] [] [] [] [] [] []]; vm_compute; congruence. Qed.

Lemma name_not_hash c s :
  name_char c = true -> JsString.startsWith (String c s) "#" = false.
Proof. destruct c as [[] [] [] [] [] [] [] []]; vm_compute; congruence. Qed.

Lemma requirement_spec_stops spec :
  spec = "" \/ requirement_spec spec = true -> stops name_char spec = true.
Proof.
  intros [->|Hspec]; [reflexivity|].
  destruct spec as [|o [|d tail]]; try discriminate. simpl in *.
  apply andb_true_iff in Hspec as [Ho _]. rewrite (operator_not_name o Ho). reflexivity.
Qed.

(** What a match of the requirement pattern says about the line. *)
Lemma requirementRegex_inv s m :
  exec requirementRegex s = Some m ->
  exists name spec,
    s = name +:+ spec /\ requirement_name name = true
    /\ ((spec = "" /\ m = [(1, name)])
        \/ (requirement_spec spec = true /\ m = [(2, spec); (1, name)])).
Proof.
  unfold exec, requirementRegex. cbn [run Plus].
  destruct s as [|c s]; [discriminate|].
  destruct (name_char c) eqn:Hc; [|discriminate]. intros Hrun.
  apply star_loop_inv in Hrun as (cs & rest & -> & Hcs & Hk).
  change (String c (cs +:+ rest)) with (String c cs +:+ rest) in Hk.
  rewrite consumed_append in Hk.
  exists (String c cs), rest. split; [reflexivity|].
  split; [unfold requirement_name; simpl; rewrite Hc, Hcs; reflexivity|].
  destruct rest as [|o rest]; [left; split; [reflexivity | congruence]|].
  right. destruct (operator_char o) eqn:Ho; [|discriminate].
  match type of Hk with
  | match ?run with _ => _ end = _ => destruct run as [result|] eqn:Hs; [|discriminate]
  end.
  injection Hk as ->.
  apply star_loop_inv in Hs as (ops & rest2 & -> & Hops & Hk).
  destruct rest2 as [|d rest2]; [discriminate|].
  destruct (dot d) eqn:Hd; [|discriminate].
  apply star_loop_inv in Hk as (ds & rest3 & -> & Hds & Hk).
  destruct rest3 as [|x rest3]; [|discriminate].
  rewrite consumed_all in Hk. injection Hk as <-.
  split; [|reflexivity].
  assert (Hall : all_chars dot (ops +:+ String d (ds +:+ "")) = true).
  { rewrite all_chars_append, (all_chars_impl _ _ _ operator_is_dot Hops).
    simpl. rewrite Hd, all_chars_append, Hds. reflexivity. }
  unfold requirement_spec.
  destruct (ops +:+ String d (ds +:+ "")) as [|y tail] eqn:Htail.
  - destruct ops; discriminate.
  - rewrite Ho, Hall. reflexivity.
Qed.

(** The pattern matches every well-formed line. *)
Lemma requirementRegex_some name spec :
  requirement_name name = true -> spec = "" \/ requirement_spec spec = true ->
  exec requirementRegex (name +:+ spec) <> None.
Proof.
  unfold requirement_name. intros Hname Hspec.
  apply andb_true_iff in Hname as [Hne Hall].
  destruct name as [|c cs]; [discriminate|]. simpl in Hall.
  apply andb_true_iff in Hall as [Hc Hall].
  unfold exec, requirementRegex. cbn [run Plus]. rewrite append_cons, Hc.
  apply star_loop_some; [exact Hall|].
  destruct Hspec as [->|Hspec]; [discriminate|].
  destruct spec as [|o [|d tail]]; try discriminate.
  simpl in Hspec. apply andb_true_iff in Hspec as [Ho Hdots].
  apply andb_true_iff in Hdots as [Hd Hdots].
  rewrite Ho.
  match goal with
  | |- match ?run with _ => _ end <> None =>
      assert (Hrun : run <> None); [|destruct run; [discriminate | contradiction]]
  end.
  apply (star_loop_some _ _ "" (String d tail)); [reflexivity|].
  rewrite Hd. rewrite <- (append_empty_r tail) at 1.
  apply star_loop_some; [exact Hdots | discriminate].
Qed.

(** The match of a well-formed line: the name and, when there is one, the
    version specification. *)
Lemma requirementRegex_match name spec :
  requirement_name name = true -> spec = "" \/ requirement_spec spec = true ->
  exists m, exec requirementRegex (name +:+ spec) = Some m
            /\ group 1 m = name
            /\ JsString.or_default (capture 2 m) "*" = JsString.or_default (Some spec) "*".
Proof.
  intros Hname Hspec.
  destruct (exec requirementRegex (name +:+ spec)) as [m|] eqn:Hm;
    [|exfalso; exact (requirementRegex_some name spec Hname Hspec Hm)].
  exists m. split; [reflexivity|].
  destruct (requirementRegex_inv _ _ Hm) as (name' & spec' & Heq & Hname' & Hcase).
  assert (Hsame : name = name' /\ spec = spec').
  { unfold requirement_name in Hname, Hname'.
    apply andb_true_iff in Hname as [_ Hname].
    apply andb_true_iff in Hname' as [_ Hname'].
    apply (run_end_unique name_char); try assumption.
    - apply requirement_spec_stops, Hspec.
    - apply requirement_spec_stops. destruct Hcase as [[-> _]|[Hs _]]; auto. }
  destruct Hsame as [<- <-].
  destruct Hcase as [[-> ->]|[Hs ->]]; [split; reflexivity|].
  split; reflexivity.
Qed.

Lemma requirement_line_entries deps line :
  Forall (fun p => requirement_entry p = true) deps ->
  Forall (fun p => requirement_entry p = true) (requirement_line deps line).
Proof.
  intros Hdeps. unfold requirement_line.
  destruct (_ && _); [|exact Hdeps].
  destruct (exec requirementRegex (JsString.trim line)) as [m|] eqn:Hm; [|exact Hdeps].
  destruct (requirementRegex_inv _ _ Hm) as (name & spec & _ & Hname & Hcase).
  apply Forall_assign_entry; [|exact Hdeps].
  unfold requirement_entry. simpl.
  destruct Hcase as [[-> ->]|[Hs ->]]; cbn; rewrite Hname; [reflexivity|].
  destruct spec as [|o tail]; [discriminate|].
  change (JsString.truthy (String o tail)) with true. cbv iota.
  rewrite Hs. apply orb_true_r.
Qed.

(** X18.  Whatever the text, every dependency that [parseRequirements]
    records has a name made of letters, digits, underscores and hyphens, at
    least one of them, and as its value a string: the star, or a version
    specification that starts with a comparison character, has at least one
    more character and holds no line terminator. *)
Theorem parseRequirements_entries (content : string) :
  exists deps,
    parseRequirements content = JObject deps
    /\ Forall (fun p => requirement_entry p = true) deps.
Proof.
  unfold parseRequirements. eexists. split; [reflexivity|].
  assert (Hgen : forall lines acc,
    Forall (fun p => requirement_entry p = true) acc ->
    Forall (fun p => requirement_entry p = true) (fold_left requirement_line lines acc)).
  { induction lines as [|l lines IH]; intros acc Hacc; simpl; [exact Hacc|].
    apply IH, requirement_line_entries, Hacc. }
  apply Hgen. constructor.
Qed.

Lemma fold_requirement_skips lines : forall acc,
  fold_left requirement_line (List.filter (fun l => negb (skipped l)) lines) acc
  = fold_left requirement_line lines acc.
Proof.
  induction lines as [|l lines IH]; intros acc; simpl; [reflexivity|].
  destruct (skipped l) eqn:Hs; simpl.
  - rewrite (AnalyzerFacts.requirement_line_skipped _ _ Hs). apply IH.
  - apply IH.
Qed.

(** X19.  Blank lines and comment lines do not count: two texts whose
    remaining lines are the same, in the same order, give the same
    dependencies. *)
Theorem parseRequirements_skips (a b : string) :
  List.filter (fun l => negb (skipped l)) (JsString.split "010" a)
  = List.filter (fun l => negb (skipped l)) (JsString.split "010" b) ->
  parseRequirements a = parseRequirements b.
Proof.
  intros Heq. unfold parseRequirements.
  rewrite <- (fold_requirement_skips (JsString.split "010" a)),
          <- (fold_requirement_skips (JsString.split "010" b)), Heq.
  reflexivity.
Qed.

Lemma parseRequirements_skips_witness :
  parseRequirements Samples.requirements_txt
  = parseRequirements ("flask==2.0" +:+ Samples.nl +:+ "   " +:+ Samples.nl +:+ " # pinned").
Proof.
  apply (parseRequirements_skips Samples.requirements_txt
           ("flask==2.0" +:+ Samples.nl +:+ "   " +:+ Samples.nl +:+ " # pinned")).
  vm_compute. reflexivity.
Defined.

Lemma split_not_nil sep s : JsString.split sep s <> [].
Proof.
  destruct s as [|c s]; simpl; [discriminate|].
  destruct (Ascii.eqb c sep); [discriminate|].
  destruct (JsString.split sep s); discriminate.
Qed.

Lemma split_append sep a b :
  JsString.split sep (a +:+ String sep b) = JsString.split sep a ++ JsString.split sep b.
Proof.
  induction a as [|c a IH]; rewrite ?append_cons; simpl.
  - rewrite Ascii.eqb_refl. reflexivity.
  - rewrite IH. destruct (Ascii.eqb c sep); [reflexivity|].
    destruct (JsString.split sep a) eqn:Ha; [|reflexivity].
    exfalso. exact (split_not_nil _ _ Ha).
Qed.

Lemma requirement_line_well_formed deps line name spec :
  requirement_name name = true -> spec = "" \/ requirement_spec spec = true ->
  JsString.trim line = name +:+ spec ->
  requirement_line deps line
  = JsObject.assign name (JString (JsString.or_default (Some spec) "*")) deps.
Proof.
  intros Hname Hspec Htrim. unfold requirement_line. rewrite Htrim.
  destruct (requirementRegex_match name spec Hname Hspec) as (m & -> & -> & ->).
  unfold requirement_name in Hname. apply andb_true_iff in Hname as [Hne Hall].
  destruct name as [|c cs]; [discriminate|].
  simpl in Hall. apply andb_true_iff in Hall as [Hc _].
  rewrite append_cons, (name_not_hash c _ Hc). reflexivity.
Qed.

(** X20.  The last mention of a package decides: when the text ends with a
    line that, once trimmed, is a well-formed name followed by nothing or
    by a well-formed version specification, the dependencies map that name
    to the specification, or to the star when there is none, whatever the
    earlier lines said about it.  A package named [__proto__] is the
    exception: the assignment reaches the inherited setter, and the
    dependencies stay as they were. *)
Theorem parseRequirements_last_mention (content line name spec : string) :
  requirement_name name = true ->
  spec = "" \/ requirement_spec spec = true ->
  JsString.split "010" line = [line] ->
  JsString.trim line = name +:+ spec ->
  (name <> "__proto__" ->
   member (parseRequirements (content +:+ String "010" line)) name
   = Some (Some (JString (JsString.or_default (Some spec) "*"))))
  /\ (name = "__proto__" ->
      parseRequirements (content +:+ String "010" line) = parseRequirements content).
Proof.
  intros Hname Hspec Hline Htrim. unfold parseRequirements.
  rewrite split_append, fold_left_app, Hline.
  change (fold_left requirement_line [line] ?acc) with (requirement_line acc line).
  rewrite (requirement_line_well_formed _ line name spec Hname Hspec Htrim).
  split.
  - intros Hproto. simpl. rewrite get_assign by exact Hproto. reflexivity.
  - intros ->. reflexivity.
Qed.

Lemma parseRequirements_last_mention_witness :
  member (parseRequirements ("flask==2.0" +:+ String "010" " flask>=3 ")) "flask"
  = Some (Some (JString ">=3")).
Proof.
  apply (parseRequirements_last_mention "flask==2.0" " flask>=3 " "flask" ">=3");
    try reflexivity.
  - right. reflexivity.
  - discriminate.
Defined.

End AnalyzerMore.

(** ** More on the entry points and the manifest probes *)

Module EntryMore.
Import Json Analyzer.

Lemma same_value_sym a b : same_value a b = same_value b a.
Proof.
  destruct a, b; simpl; try reflexivity.
  - destruct b, b0; reflexivity.
  - apply Bool.eq_iff_eq_true. rewrite !Qeq_bool_iff. split; intros Heq; symmetry; exact Heq.
  - apply String.eqb_sym.
Qed.

(** What deduplication returns holds nothing seen before and no value
    twice. *)
Lemma dedupe_from_distinct xs : forall seen,
  Forall (fun x => existsb (same_value x) seen = false) (dedupe_from seen xs)
  /\ ForallOrdPairs (fun a b => same_value a b = false) (dedupe_from seen xs).
Proof.
  induction xs as [|x xs IH]; intros seen; simpl; [split; constructor|].
  destruct (existsb (same_value x) seen) eqn:Hx; [apply IH|].
  destruct (IH (x :: seen)) as [Hseen Hpairs].
  split.
  - constructor; [exact Hx|].
    eapply Forall_impl; [exact Hseen|]. intros y Hy. cbn [existsb] in Hy.
    apply orb_false_iff in Hy as [_ Hy]. exact Hy.
  - constructor; [|exact Hpairs].
    apply List.Forall_forall. intros y Hy.
    rewrite List.Forall_forall in Hseen. specialize (Hseen y Hy).
    cbn [existsb] in Hseen. apply orb_false_iff in Hseen as [Hyx _].
    rewrite same_value_sym. exact Hyx.
Qed.

(** Distinct strings pass deduplication unchanged. *)
Lemma dedupe_from_strings (l : list string) : forall seen,
  NoDup l -> (forall s, s ∈ l -> existsb (same_value (JString s)) seen = false) ->
  dedupe_from seen (map JString l) = map JString l.
Proof.
  induction l as [|s l IH]; intros seen Hnd Hseen; simpl; [reflexivity|].
  rewrite (Hseen s) by left. f_equal.
  apply NoDup_cons in Hnd as [Hs Hnd]. apply IH; [exact Hnd|].
  intros s' Hs'. cbn [existsb same_value].
  rewrite (Hseen s') by (right; exact Hs').
  destruct (String.eqb_spec s' s) as [->|]; [contradiction | reflexivity].
Qed.

Lemma NoDup_List_filter {A} (f : A -> bool) (l : list A) :
  NoDup l -> NoDup (List.filter f l).
Proof.
  induction 1 as [|x l Hx Hl IH]; simpl; [constructor|].
  destruct (f x); [|exact IH]. constructor; [|exact IH].
  intros Hin. apply list_elem_of_In, filter_In in Hin as [Hin _].
  apply Hx, list_elem_of_In, Hin.
Qed.

Lemma commonEntries_distinct : NoDup commonEntries.
Proof. apply (bool_decide_unpack _). vm_compute. exact I. Qed.

Section Generic.
Variable fs : FileSystem.
Variable JSON_parse : string -> Json.value + string.
Context `{PathModule}.

Lemma common_entries_fold projectPath files l : forall acc,
  fold_left
    (fun entryPoints entry =>
       let fullPath := join projectPath entry in
       if Scanner.Array_includes files fullPath
       then entryPoints ++ [JString entry]
       else entryPoints) l acc
  = acc ++ map JString
             (List.filter
                (fun entry => Scanner.Array_includes files (join projectPath entry)) l).
Proof.
  induction l as [|e l IH]; intros acc; simpl; [rewrite app_nil_r; reflexivity|].
  rewrite IH. destruct (Scanner.Array_includes files (join projectPath e)); simpl;
    [rewrite <- app_assoc|]; reflexivity.
Qed.

Lemma dedupe_conventional projectPath files :
  dedupe
    (map JString
       (List.filter (fun entry => Scanner.Array_includes files (join projectPath entry))
          commonEntries))
  = map JString
      (List.filter (fun entry => Scanner.Array_includes files (join projectPath entry))
         commonEntries).
Proof.
  apply dedupe_from_strings; [|reflexivity].
  apply NoDup_List_filter, commonEntries_distinct.
Qed.

(** X21.  The entry points never hold the same string, number, boolean or
    [null] twice, and every conventional entry name whose path under the
    root is in the file list is among them. *)
Theorem findEntryPoints_distinct (projectPath : string) (files : list string) :
  ForallOrdPairs (fun a b => same_value a b = false)
    (findEntryPoints fs JSON_parse projectPath files)
  /\ (forall entry,
        entry ∈ commonEntries -> join projectPath entry ∈ files ->
        JString entry ∈ findEntryPoints fs JSON_parse projectPath files).
Proof.
  split.
  - apply dedupe_from_distinct.
  - intros entry Hentry Hfile. unfold findEntryPoints, dedupe.
    apply AnalyzerFacts.dedupe_from_string; [|reflexivity].
    apply AnalyzerFacts.declared_entries_keep.
    apply AnalyzerFacts.common_entry_found;
      [exact Hentry | apply AnalyzerFacts.Array_includes_elem_of, Hfile].
Qed.

(** X22.  Without a manifest that can be read and parsed, the entry points
    are exactly the conventional names found among the files, in the order
    of the table of names and not of the file list. *)
Theorem findEntryPoints_without_manifest (projectPath : string) (files : list string) :
  (readFile fs (join projectPath "package.json") = None
   \/ exists text message,
        readFile fs (join projectPath "package.json") = Some text
        /\ JSON_parse text = inr message) ->
  findEntryPoints fs JSON_parse projectPath files
  = map JString
      (List.filter (fun entry => Scanner.Array_includes files (join projectPath entry))
         commonEntries).
Proof.
  intros Hfail. unfold findEntryPoints. rewrite common_entries_fold, app_nil_l.
  unfold declared_entries.
  destruct Hfail as [-> | (text & message & -> & ->)];
    apply dedupe_conventional.
Qed.

(** X23.  A manifest whose text parses to [null]: reading its
    [dependencies] throws after the manager has been set, so the probe goes
    on with the other manifests, and [npm] stays the manager only when
    neither of them is there; the dependencies are then empty.  The entry
    points are the conventional ones. *)
Theorem analyze_null_manifest (projectPath text : string) (files : list string) :
  readFile fs (join projectPath "package.json") = Some text ->
  JSON_parse text = inl JNull ->
  manager (analyzeDependencies fs JSON_parse projectPath)
  = match readFile fs (join projectPath "requirements.txt") with
    | Some _ => Some "pip"
    | None =>
        if access fs (join projectPath "pyproject.toml")
        then Some "poetry/pip" else Some "npm"
    end
  /\ (readFile fs (join projectPath "requirements.txt") = None ->
      dependencies (analyzeDependencies fs JSON_parse projectPath) = JObject [])
  /\ devDependencies (analyzeDependencies fs JSON_parse projectPath) = JObject []
  /\ findEntryPoints fs JSON_parse projectPath files
     = map JString
         (List.filter (fun entry => Scanner.Array_includes files (join projectPath entry))
            commonEntries).
Proof.
  intros Hread Hparse. unfold analyzeDependencies, probe_package.
  rewrite Hread, Hparse. cbn [member].
  split; [|split; [|split]].
  - destruct (readFile fs (join projectPath "requirements.txt")); [reflexivity|].
    destruct (access fs _); reflexivity.
  - intros ->. destruct (access fs _); reflexivity.
  - destruct (readFile fs (join projectPath "requirements.txt")); [reflexivity|].
    destruct (access fs _); reflexivity.
  - unfold findEntryPoints. rewrite common_entries_fold, app_nil_l.
    unfold declared_entries. rewrite Hread, Hparse. cbn [member].
    apply dedupe_conventional.
Qed.

(** X24.  With a manifest that parses to an object: a non-empty [main]
    string is an entry point, a non-empty [bin] string is one, and so is
    every string among the values of a [bin] object. *)
Theorem findEntryPoints_manifest (projectPath text : string) (files : list string)
    (props : list (string * value)) :
  readFile fs (join projectPath "package.json") = Some text ->
  JSON_parse text = inl (JObject props) ->
  (forall main, JsObject.get "main" props = Some (JString main) -> main <> "" ->
     JString main ∈ findEntryPoints fs JSON_parse projectPath files)
  /\ (forall bin, JsObject.get "bin" props = Some (JString bin) -> bin <> "" ->
        JString bin ∈ findEntryPoints fs JSON_parse projectPath files)
  /\ (forall bins name bin,
        JsObject.get "bin" props = Some (JObject bins) -> (name, JString bin) ∈ bins ->
        JString bin ∈ findEntryPoints fs JSON_parse projectPath files).
Proof.
  intros Hread Hparse.
  assert (Hne : forall s, s <> "" -> JsString.truthy s = true).
  { intros s Hs. unfold JsString.truthy.
    destruct (String.eqb_spec s ""); [contradiction | reflexivity]. }
  split; [|split].
  - intros main Hmain Hm. unfold findEntryPoints, dedupe.
    apply AnalyzerFacts.dedupe_from_string; [|reflexivity].
    unfold declared_entries. rewrite Hread, Hparse. cbn [member]. rewrite Hmain.
    cbn [truthy]. rewrite (Hne main Hm).
    destruct (JsObject.get "bin" props) as [bin|]; [destruct (truthy bin)|];
      rewrite ?elem_of_app, list_elem_of_singleton; auto.
  - intros bin Hbin Hb. unfold findEntryPoints, dedupe.
    apply AnalyzerFacts.dedupe_from_string; [|reflexivity].
    unfold declared_entries. rewrite Hread, Hparse. cbn [member]. rewrite Hbin.
    cbn [truthy]. rewrite (Hne bin Hb).
    apply elem_of_app. right. left.
  - intros bins name bin Hbin Hin. unfold findEntryPoints, dedupe.
    apply AnalyzerFacts.dedupe_from_string; [|reflexivity].
    unfold declared_entries. rewrite Hread, Hparse. cbn [member]. rewrite Hbin.
    cbn [truthy object_values].
    apply elem_of_app. right.
    apply (list_elem_of_fmap_2 snd _ _ Hin).
Qed.

End Generic.

Import NodePath.

Lemma findEntryPoints_without_manifest_witness :
  findEntryPoints Samples.pip_project Samples.no_json "/proj" Samples.pip_project_files
  = [JString "index.js"].
Proof.
  etransitivity.
  - apply (findEntryPoints_without_manifest Samples.pip_project Samples.no_json "/proj"
             Samples.pip_project_files).
    left. reflexivity.
  - vm_compute. reflexivity.
Defined.

Lemma analyze_null_manifest_witness :
  manager (analyzeDependencies MoreSamples.null_manifest MoreSamples.json_null "/app")
  = Some "npm".
Proof.
  destruct (analyze_null_manifest MoreSamples.null_manifest MoreSamples.json_null
              "/app" "null" []) as (Hmanager & _); [reflexivity | reflexivity |].
  rewrite Hmanager. reflexivity.
Defined.

Lemma findEntryPoints_manifest_witness :
  JString "lib/cli.js"
    ∈ findEntryPoints MoreSamples.node_manifest MoreSamples.json_manifest "/app" []
  /\ JString "bin/briefly.js"
       ∈ findEntryPoints MoreSamples.node_manifest MoreSamples.json_manifest "/app" [].
Proof.
  destruct (findEntryPoints_manifest MoreSamples.node_manifest MoreSamples.json_manifest
              "/app" MoreSamples.manifest_text []
              MoreSamples.manifest_props) as (Hmain & _ & Hbins);
    [vm_compute; reflexivity | vm_compute; reflexivity |].
  split.
  - apply Hmain; [reflexivity | discriminate].
  - apply (Hbins [("briefly", JString "bin/briefly.js")] "briefly"); [reflexivity | left].
Defined.

End EntryMore.

(** ** The technology stack and the directory structure *)

Module ProjectMore.
Import Json Analyzer Project Derived.

Lemma elem_of_push_if x c t s : x ∈ push_if c t s <-> x ∈ s \/ (c = true /\ x = t).
Proof.
  unfold push_if. destruct c.
  - rewrite elem_of_app, list_elem_of_singleton. split.
    + intros [Hs| ->]; auto.
    + intros [Hs|[_ ->]]; auto.
  - split; [auto|]. intros [Hs|[Hc _]]; [exact Hs | discriminate].
Qed.

Lemma push_ifs_sublist (rules : list (bool * string)) : forall s,
  fold_left (fun s r => push_if (fst r) (snd r) s) rules s `sublist_of` s ++ rules.*2.
Proof.
  induction rules as [|[c t] rules IH]; intros s; simpl.
  - rewrite app_nil_r. reflexivity.
  - etransitivity; [apply IH|]. unfold push_if. destruct c.
    + rewrite <- app_assoc. reflexivity.
    + apply sublist_app; [reflexivity|]. apply sublist_cons. reflexivity.
Qed.

Ltac tag_rule :=
  unfold detectTechStack; cbv zeta; rewrite !elem_of_push_if, elem_of_nil;
  rewrite ?orb_true_iff; split;
  [ intros Htag;
    repeat match type of Htag with
           | _ \/ _ => destruct Htag as [Htag|Htag]
           end;
    try contradiction; destruct Htag as [Hcond Heq];
    try discriminate Heq; rewrite ?orb_true_iff in Hcond; exact Hcond
  | intros Hcond; repeat first [ right; split; [exact Hcond | reflexivity] | left ] ].

(** X25.  The technology stack lists its tags in one fixed order, each at
    most once, and nothing else.  A tag with a single rule is in the stack
    exactly when the merged dependencies hold a truthy value under the
    name of its rule; React and NestJS have two names each.  In the merged
    dependencies a development dependency hides a dependency of the same
    name. *)
Theorem detectTechStack_tags (deps : Dependencies) (stats : Scanner.Stats) :
  detectTechStack deps stats `sublist_of` all_tags
  /\ (forall name tag,
        (name, tag) ∈ dependency_tags ->
        (tag ∈ detectTechStack deps stats <-> depends_on deps name = true))
  /\ ("React" ∈ detectTechStack deps stats
      <-> depends_on deps "react" = true \/ depends_on deps "react-dom" = true)
  /\ ("NestJS" ∈ detectTechStack deps stats
      <-> depends_on deps "nestjs" = true \/ depends_on deps "@nestjs/core" = true)
  /\ (forall name v,
        own_property (devDependencies deps) name = Some v ->
        depends_on deps name = truthy v).
Proof.
  split; [|split; [|split; [|split]]].
  - unfold detectTechStack. cbv zeta.
    exact (push_ifs_sublist
             [(_, "JavaScript"); (_, "TypeScript"); (_, "Python"); (_, "Go");
              (_, "Rust"); (_, "React"); (_, "Vue"); (_, "Angular"); (_, "Next.js");
              (_, "Express"); (_, "Fastify"); (_, "NestJS"); (_, "Webpack");
              (_, "Vite"); (_, "Jest"); (_, "Mocha"); (_, "Tailwind CSS")] []).
  - intros name tag Hin. unfold dependency_tags in Hin.
    repeat (apply elem_of_cons in Hin as [Hin|Hin];
            [injection Hin as -> ->; tag_rule|]).
    inversion Hin.
  - tag_rule.
  - tag_rule.
  - intros name v Hdev. unfold depends_on, allDeps. rewrite Hdev. reflexivity.
Qed.

Section Generic.
Variable fs : FileSystem.
Variable JSON_parse : string -> Json.value + string.
Variable relative : string -> string -> string.
Context `{PathModule}.

Lemma byExtension_lookup files e :
  is_Some (Scanner.byExtension (Scanner.getFileStats fs files) !! e)
  <-> exists file, file ∈ files /\ extension_key file = e.
Proof.
  unfold Scanner.getFileStats. rewrite ScannerMore.byExtension_fold. simpl.
  rewrite ScannerMore.lookup_count_up, lookup_empty.
  destruct (decide (length (filter (fun f => extension_key f = e) files) = 0))
    as [Hnone|Hsome].
  - split; [intros [? ?]; discriminate|].
    intros (file & Hin & Hkey). apply length_zero_iff_nil in Hnone.
    assert (Hf : file ∈ filter (fun f => extension_key f = e) files)
      by (apply list_elem_of_filter; auto).
    rewrite Hnone in Hf. inversion Hf.
  - split; [|intros _; eexists; reflexivity]. intros _.
    destruct (filter (fun f => extension_key f = e) files) as [|file l] eqn:Hl;
      [simpl in Hsome; lia|].
    assert (Hf : file ∈ filter (fun f => extension_key f = e) files)
      by (rewrite Hl; left).
    apply list_elem_of_filter in Hf as [Hkey Hin]. eauto.
Qed.

(** A test on the keys of the extension histogram is a test on the files. *)
Lemma extension_test files (test : string -> bool) :
  existsb test (keys (Scanner.byExtension (Scanner.getFileStats fs files))) = true
  <-> exists file, file ∈ files /\ test (extension_key file) = true.
Proof.
  rewrite existsb_exists. split.
  - intros (e & He & Htest). unfold keys in He.
    apply list_elem_of_In, list_elem_of_fmap in He as ([e' n] & -> & He).
    apply elem_of_map_to_list in He.
    destruct (proj1 (byExtension_lookup files e') (ex_intro _ n He))
      as (file & Hin & <-).
    eauto.
  - intros (file & Hin & Htest). exists (extension_key file). split; [|exact Htest].
    destruct (proj2 (byExtension_lookup files (extension_key file))) as [n Hn]; [eauto|].
    unfold keys. apply list_elem_of_In, list_elem_of_fmap.
    exists (extension_key file, n). split; [reflexivity|].
    apply elem_of_map_to_list, Hn.
Qed.

Lemma Array_includes_iff (xs : list string) x :
  Scanner.Array_includes xs x = true <-> x ∈ xs.
Proof.
  split; [|apply AnalyzerFacts.Array_includes_elem_of].
  unfold Scanner.Array_includes. rewrite existsb_exists.
  intros (y & Hy & Heq). apply String.eqb_eq in Heq as ->.
  apply list_elem_of_In, Hy.
Qed.

Lemma includes_extension_key (exts : list string) file :
  "(no extension)" ∉ exts -> "" ∉ exts ->
  Scanner.Array_includes exts (extension_key file) = true <-> extname file ∈ exts.
Proof.
  intros Hmark Hempty. rewrite Array_includes_iff.
  unfold extension_key, JsString.truthy.
  destruct (String.eqb_spec (extname file) "") as [->|_]; simpl; [|reflexivity].
  split; intros Hin; contradiction.
Qed.

Lemma eqb_extension_key (ext : string) file :
  ext <> "(no extension)" -> ext <> "" ->
  String.eqb (extension_key file) ext = true <-> extname file = ext.
Proof.
  intros Hmark Hempty. rewrite String.eqb_eq.
  unfold extension_key, JsString.truthy.
  destruct (String.eqb_spec (extname file) "") as [->|_]; simpl; [|reflexivity].
  split; congruence.
Qed.

Ltac language_rule test :=
  unfold analyzeProject, techStack, detectTechStack; cbv zeta;
  rewrite !elem_of_push_if, elem_of_nil; split;
  [ intros Htag;
    repeat match type of Htag with
           | _ \/ _ => destruct Htag as [Htag|Htag]
           end;
    try contradiction; destruct Htag as [Hcond Heq];
    try discriminate Heq; apply (extension_test _ test) in Hcond; exact Hcond
  | intros Hcond; apply (extension_test _ test) in Hcond;
    repeat first [ right; split; [exact Hcond | reflexivity] | left ] ].

(** X26.  In the analysis of a project a language tag is in the technology
    stack exactly when one of the files has an extension of that language:
    [.js], [.mjs] or [.cjs] for JavaScript (not [.jsx]), [.ts] or [.tsx]
    for TypeScript, [.py], [.go] and [.rs] for Python, Go and Rust. *)
Theorem analyzeProject_languages (projectPath : string) (files : list string) :
  ("JavaScript" ∈ techStack (analyzeProject fs JSON_parse relative projectPath files)
   <-> exists file, file ∈ files /\ extname file ∈ [".js"; ".mjs"; ".cjs"])
  /\ ("TypeScript" ∈ techStack (analyzeProject fs JSON_parse relative projectPath files)
      <-> exists file, file ∈ files /\ extname file ∈ [".ts"; ".tsx"])
  /\ ("Python" ∈ techStack (analyzeProject fs JSON_parse relative projectPath files)
      <-> exists file, file ∈ files /\ extname file = ".py")
  /\ ("Go" ∈ techStack (analyzeProject fs JSON_parse relative projectPath files)
      <-> exists file, file ∈ files /\ extname file = ".go")
  /\ ("Rust" ∈ techStack (analyzeProject fs JSON_parse relative projectPath files)
      <-> exists file, file ∈ files /\ extname file = ".rs").
Proof.
  assert (Hexts : forall exts, "(no extension)" ∉ exts -> "" ∉ exts ->
    (exists file, file ∈ files
                  /\ Scanner.Array_includes exts (extension_key file) = true)
    <-> exists file, file ∈ files /\ extname file ∈ exts).
  { intros exts Hm He. split; intros (file & Hin & Hx); exists file;
      (split; [exact Hin|]); apply (includes_extension_key exts file Hm He), Hx. }
  assert (Hext : forall ext, ext <> "(no extension)" -> ext <> "" ->
    (exists file, file ∈ files /\ String.eqb (extension_key file) ext = true)
    <-> exists file, file ∈ files /\ extname file = ext).
  { intros ext Hm He. split; intros (file & Hin & Hx); exists file;
      (split; [exact Hin|]); apply (eqb_extension_key ext file Hm He), Hx. }
  split; [|split; [|split; [|split]]].
  - rewrite <- Hexts by (intros Hin; repeat (apply elem_of_cons in Hin as [Hin|Hin];
                                             [discriminate|]); inversion Hin).
    language_rule (fun e => Scanner.Array_includes [".js"; ".mjs"; ".cjs"] e).
  - rewrite <- Hexts by (intros Hin; repeat (apply elem_of_cons in Hin as [Hin|Hin];
                                             [discriminate|]); inversion Hin).
    language_rule (fun e => Scanner.Array_includes [".ts"; ".tsx"] e).
  - rewrite <- Hext by discriminate. language_rule (fun e => String.eqb e ".py").
  - rewrite <- Hext by discriminate. language_rule (fun e => String.eqb e ".go").
  - rewrite <- Hext by discriminate. language_rule (fun e => String.eqb e ".rs").
Qed.

(** *** The directory structure *)






End Generic.

End ProjectMore.

(** ** Output helpers: escape sequences and indentation *)

Module OutputMore.
Import Regex RegexFacts RegexMore Output.

Lemma ansiRegex_needs_escape c rest :
  Ascii.eqb c escape = false -> exec ansiRegex (String c rest) = None.
Proof. intros Hc. unfold exec, ansiRegex. cbn [run]. rewrite Hc. reflexivity. Qed.

Lemma strip_plain text rest :
  all_chars (fun c => negb (Ascii.eqb c escape)) text = true ->
  strip 0 (text +:+ rest) = text +:+ strip 0 rest.
Proof.
  induction text as [|c text IH]; [reflexivity|].
  rewrite !append_cons. cbn [all_chars strip]. intros Hall.
  apply andb_true_iff in Hall as [Hc Hall]. apply negb_true_iff in Hc.
  rewrite (ansiRegex_needs_escape c _ Hc), (IH Hall). reflexivity.
Qed.

Lemma strip_length str : forall skip, String.length (strip skip str) <= String.length str.
Proof.
  induction str as [|c str IH]; intros skip; [simpl; lia|].
  cbn [strip]. destruct skip as [|skip].
  - destruct (exec ansiRegex (String c str)) as [m|].
    + specialize (IH (String.length (group 0 m) - 1)). simpl. lia.
    + specialize (IH 0). simpl. lia.
  - specialize (IH skip). simpl. lia.
Qed.

Lemma strip_skip dropped rest :
  strip (String.length dropped) (dropped +:+ rest) = strip 0 rest.
Proof.
  induction dropped as [|c dropped IH]; [reflexivity|].
  rewrite append_cons. cbn [String.length strip]. exact IH.
Qed.

Lemma strip_match c rest m :
  exec ansiRegex (String c rest) = Some m ->
  strip 0 (String c rest) = strip (String.length (group 0 m) - 1) rest.
Proof.
  intros Hm.
  change (strip 0 (String c rest))
    with (match exec ansiRegex (String c rest) with
          | Some m => strip (String.length (group 0 m) - 1) rest
          | None => String c (strip 0 rest)
          end).
  rewrite Hm. reflexivity.
Qed.

Lemma letter_ends_parameters c :
  lower c || upper c = true -> (digit c || one ";" c) = false.
Proof. destruct c as [[] [] [] [] [] [] [] []]; vm_compute; congruence. Qed.

(** The pattern matches a well-formed sequence at the start of a text, and
    takes exactly the sequence. *)
Lemma ansiRegex_sequence params letter rest :
  all_chars (fun c => digit c || one ";" c) params = true ->
  lower letter || upper letter = true ->
  exec ansiRegex (String escape (String "[" (params +:+ String letter rest)))
  = Some [(0, String escape (String "[" (params +:+ String letter "")))].
Proof.
  intros Hparams Hletter. unfold exec, ansiRegex. cbn [run].
  rewrite !Ascii.eqb_refl.
  apply star_loop_exact; [exact Hparams | |].
  - simpl. rewrite (letter_ends_parameters letter Hletter). reflexivity.
  - cbv beta. rewrite Hletter. f_equal. f_equal. f_equal.
    change (String escape (String "[" (params +:+ String letter rest)))
      with (String escape (String "[" "") +:+ (params +:+ String letter rest)).
    change (String letter rest) with (String letter "" +:+ rest).
    rewrite <- !append_assoc. rewrite consumed_append.
    rewrite append_assoc. reflexivity.
Qed.

(** X28.  A well-formed escape sequence, that is the escape character, an
    opening bracket, digits and semicolons and one letter, disappears: a
    text without the escape character that precedes it stays, and what
    follows is stripped in turn.  A text without the escape character is
    left as it is, and stripping never lengthens a text. *)
Theorem stripAnsi_sequence (text params rest : string) (letter : ascii) :
  all_chars (fun c => negb (Ascii.eqb c escape)) text = true ->
  all_chars (fun c => digit c || one ";" c) params = true ->
  lower letter || upper letter = true ->
  stripAnsi (text +:+ String escape (String "[" (params +:+ String letter rest)))
  = text +:+ stripAnsi rest
  /\ stripAnsi text = text
  /\ (forall str, String.length (stripAnsi str) <= String.length str).
Proof.
  intros Htext Hparams Hletter. split; [|split].
  - unfold stripAnsi.
    rewrite (strip_plain text _ Htext). f_equal.
    rewrite (strip_match _ _ _ (ansiRegex_sequence params letter rest Hparams Hletter)).
    set (dropped := String "[" (params +:+ String letter "")).
    replace (String.length (group 0 [(0, String escape dropped)]) - 1)
      with (String.length dropped) by (unfold group; simpl; lia).
    replace (String "[" (params +:+ String letter rest)) with (dropped +:+ rest)
      by (unfold dropped; rewrite append_cons, append_assoc; reflexivity).
    apply strip_skip.
  - unfold stripAnsi.
    rewrite <- (append_empty_r text) at 1.
    rewrite (strip_plain text "" Htext). apply append_empty_r.
  - intros str. apply strip_length.
Qed.

Lemma stripAnsi_sequence_witness :
  stripAnsi ("ok " +:+ String escape (String "[" ("1;32" +:+ String "m" "done")))
  = "ok " +:+ stripAnsi "done".
Proof.
  apply (stripAnsi_sequence "ok " "1;32" "done" "m"); reflexivity.
Defined.

(** *** Indentation of a summary *)

Lemma split_lines sep s :
  Forall (fun l => all_chars (fun c => negb (Ascii.eqb c sep)) l = true)
    (JsString.split sep s).
Proof.
  induction s as [|c s IH]; simpl; [repeat constructor|].
  destruct (Ascii.eqb c sep) eqn:Hc; [constructor; [reflexivity | exact IH]|].
  destruct (JsString.split sep s) as [|h t]; [repeat constructor; simpl; rewrite Hc; reflexivity|].
  inversion IH as [|? ? Hh Ht]; subst.
  constructor; [simpl; rewrite Hc, Hh; reflexivity | exact Ht].
Qed.

(** Splitting what was joined gives the pieces back. *)
Lemma split_join sep x xs :
  Forall (fun l => all_chars (fun c => negb (Ascii.eqb c sep)) l = true) (x :: xs) ->
  JsString.split sep (JsArray.join (String sep "") (x :: xs)) = x :: xs.
Proof.
  revert x. induction xs as [|y xs IH]; intros x Hall.
  - simpl. apply PythonFacts.split_no_separator. inversion Hall; assumption.
  - inversion Hall as [|? ? Hx Hrest]; subst.
    change (JsArray.join (String sep "") (x :: y :: xs))
      with (x +:+ String sep (JsArray.join (String sep "") (y :: xs))).
    rewrite AnalyzerMore.split_append, (IH y Hrest),
      (PythonFacts.split_no_separator sep x Hx).
    reflexivity.
Qed.

(** X29.  The formatted summary has the lines of the summary, each behind
    two spaces: as many lines, in the same order, empty ones included. *)
Theorem formatAISummary_lines (summary : string) :
  JsString.split "010" (formatAISummary summary)
  = map (fun line => "  " +:+ line) (JsString.split "010" summary).
Proof.
  unfold formatAISummary.
  pose proof (split_lines "010" summary) as Hlines.
  pose proof (AnalyzerMore.split_not_nil "010" summary) as Hne.
  destruct (JsString.split "010" summary) as [|x xs]; [contradiction|].
  cbn [map]. apply split_join.
  change (("  " +:+ x) :: map (fun line => "  " +:+ line) xs)
    with (map (fun line => "  " +:+ line) (x :: xs)).
  apply Forall_fmap. eapply Forall_impl; [exact Hlines|].
  intros l Hl. simpl. exact Hl.
Qed.

End OutputMore.

(** ** Statistics of absolute paths *)

Module AbsolutePaths.
Import Scanner NodePath.

Lemma dirname_scan_range codes : forall i matchedSlash,
  dirname_scan codes i matchedSlash = (-1)%Z
  \/ (1 <= dirname_scan codes i matchedSlash)%Z.
Proof.
  induction codes as [|code before IH]; intros i matchedSlash; simpl; [auto|].
  destruct (Z.ltb_spec i 1); [auto|].
  destruct (Ascii.eqb code "/"); [|apply IH].
  destruct (negb matchedSlash); [right; assumption | apply IH].
Qed.

(** The directory name of a path that starts with the separator starts
    with it too. *)
Lemma posix_dirname_rooted rest :
  exists d, posix_dirname (String "/" rest) = String "/" d.
Proof.
  unfold posix_dirname. cbn [Ascii.eqb Bool.eqb andb].
  set (e := dirname_scan _ _ _).
  destruct (dirname_scan_range (backwards (String "/" rest))
              (last_index (String "/" rest)) true) as [He|He]; fold e in He.
  - rewrite He. simpl. eauto.
  - destruct (Z.eqb_spec e (-1)); [lia|].
    destruct (Z.eqb_spec e 1); [simpl; eauto|].
    unfold slice. destruct (Z.to_nat (e - 0)) as [|k] eqn:Hk; [lia|].
    simpl. eauto.
Qed.

Lemma rooted_first_segment file :
  JsString.startsWith file "/" = true ->
  hd "" (JsString.split sep (dirname file)) = "".
Proof.
  destruct file as [|c rest]; [discriminate|].
  unfold JsString.startsWith. cbn [String.prefix]. intros Hstart.
  destruct (ascii_dec "/" c) as [<-|]; [|discriminate Hstart].
  destruct (posix_dirname_rooted rest) as [d Hd].
  change (dirname (String "/" rest)) with (posix_dirname (String "/" rest)).
  rewrite Hd. reflexivity.
Qed.

(** X30.  With POSIX paths, every path that starts with the separator is
    counted under the root marker of the directory histogram, whatever
    directory it lies in: for a non-empty list of absolute paths, as a scan
    returns them, the histogram has that single entry. *)
Theorem getFileStats_absolute (fs : FileSystem) (files : list string) :
  Forall (fun file => JsString.startsWith file "/" = true) files ->
  files <> [] ->
  byDirectory (getFileStats fs files) = {[ "." := length files ]}.
Proof.
  intros Hall Hne. apply StatsFacts.byDirectory_rooted; [|exact Hne].
  eapply Forall_impl; [exact Hall|]. intros file. apply rooted_first_segment.
Qed.

Lemma getFileStats_absolute_witness :
  byDirectory (getFileStats Samples.pip_project ["/proj/src/a.js"; "/proj/README.md"])
  = {[ "." := 2 ]}.
Proof.
  apply (getFileStats_absolute Samples.pip_project ["/proj/src/a.js"; "/proj/README.md"]).
  - repeat constructor.
  - discriminate.
Defined.

End AbsolutePaths.
